(** * Rental vs. Airbnb listings: the aggregation pipeline of
    [program_script.py], embedded and verified.

    Tables are lists of rows in index order.  Numbers are rationals ([Q]).
    The ratio policy is first taken in exact arithmetic, every constant of
    the script (the score and midpoint tables, [-1 / x], [1 / x]) written
    as the script writes it; where the [float64] of the machine matters
    (the price conversion, the comparison of the weighted-median walk, the
    symmetry of the ratios) the rounding to binary64 is written out, and
    the [int64] sums of the walk wrap around.  Exceptions are results of
    an error monad; the one function that writes into an object it was
    handed, [add_ratios], runs over a store of objects addressed by
    references. *)

From Stdlib Require Import QArith Ascii String DecimalString SpecFloat.
From stdpp Require Import list gmap strings.

#[local] Open Scope string_scope.
#[local] Open Scope list_scope.
#[local] Open Scope Z_scope.

(** ** Exceptions *)

Inductive exn : Type :=
  | TypeError
  | ZeroDivisionError
  | ValueError
  | IndexError
  | KeyError
  | AttributeError.

Inductive result (A : Type) : Type :=
  | Ok (a : A)
  | Raise (e : exn).
Arguments Ok {A} a.
Arguments Raise {A} e.

#[global] Instance result_ret : MRet result := fun A a => Ok a.
#[global] Instance result_bind : MBind result := fun A B k m =>
  match m with
  | Ok a => k a
  | Raise e => Raise e
  end.

#[global] Instance result_fmap : FMap result := fun A B f m =>
  match m with
  | Ok a => Ok (f a)
  | Raise e => Raise e
  end.

(** [for a in l: f a], collecting the results; the first exception stops it. *)
Fixpoint rmapM {A B : Type} (f : A -> result B) (l : list A) : result (list B) :=
  match l with
  | [] => Ok []
  | a :: l' => b ← f a; bs ← rmapM f l'; Ok (b :: bs)
  end.

(** ** Cell values

    A cell of a pandas object column: a number (Python [int] or [float];
    the two zeros of [float] are one number, they compare equal and no
    operation of the script tells them apart), the float NaN that pandas
    uses for a missing value, a [str], or one of the two float infinities. *)

Inductive value : Type :=
  | Num (q : Q)
  | NaN
  | Str (s : string)
  | Inf (negative : bool).

Definition Qltb (x y : Q) : bool := negb (Qle_bool y x).

(** [x == y]: never raises; NaN differs from everything, a [str] from a number. *)
Definition py_eq (x y : value) : bool :=
  match x, y with
  | Num a, Num b => Qeq_bool a b
  | Str s, Str t => String.eqb s t
  | Inf s, Inf t => Bool.eqb s t
  | _, _ => false
  end.

(** [x > y]: [TypeError] between a [str] and a number; false on NaN. *)
Definition py_gt (x y : value) : result bool :=
  match x, y with
  | Num a, Num b => Ok (Qltb b a)
  | Str s, Str t => Ok (String.ltb t s)
  | Str _, _ | _, Str _ => Raise TypeError
  | Num _, Inf t => Ok t
  | Inf s, Num _ => Ok (negb s)
  | Inf s, Inf t => Ok (negb s && t)
  | _, _ => Ok false
  end.

(** [x + y] on numbers ([str + str] concatenates). *)
Definition py_add (x y : value) : result value :=
  match x, y with
  | Num a, Num b => Ok (Num (a + b))
  | Str s, Str t => Ok (Str (s ++ t))
  | Str _, _ | _, Str _ => Raise TypeError
  | Inf s, Num _ | Num _, Inf s => Ok (Inf s)
  | Inf s, Inf t => Ok (if Bool.eqb s t then Inf s else NaN)
  | _, _ => Ok NaN
  end.

(** [x * y] on numbers; an infinity times zero is NaN. *)
Definition py_mul (x y : value) : result value :=
  match x, y with
  | Num a, Num b => Ok (Num (a * b))
  | Str _, _ | _, Str _ => Raise TypeError
  | Inf s, Num q | Num q, Inf s =>
      Ok (if Qeq_bool q 0 then NaN else Inf (xorb s (Qltb q 0)))
  | Inf s, Inf t => Ok (Inf (xorb s t))
  | _, _ => Ok NaN
  end.

(** [x / y]: true division; Python raises on a zero divisor, whatever the
    dividend, and a number over an infinity is zero. *)
Definition py_div (x y : value) : result value :=
  match x, y with
  | Num a, Num b => if Qeq_bool b 0 then Raise ZeroDivisionError else Ok (Num (a / b))
  | Str _, _ | _, Str _ => Raise TypeError
  | NaN, Num b => if Qeq_bool b 0 then Raise ZeroDivisionError else Ok NaN
  | Inf s, Num b =>
      if Qeq_bool b 0 then Raise ZeroDivisionError else Ok (Inf (xorb s (Qltb b 0)))
  | Num _, Inf _ => Ok (Num 0)
  | _, _ => Ok NaN
  end.

(** ** Binary64 numbers

    A [float64] that is a number is a rational [m * 2 ^ e] with
    [|m| < 2 ^ 53] and [-1074 <= e]; an operation on such numbers gives the
    nearest one to its exact result, a result halfway between two of them
    going to the one with the even [m]. *)

(** [x / y] as the nearest integer, a half going to the even one
    ([0 <= x], [0 < y]). *)
Definition div_half_even (x y : Z) : Z :=
  let q := x / y in
  let r := x mod y in
  match 2 * r ?= y with
  | Lt => q
  | Gt => q + 1
  | Eq => if Z.even q then q else q + 1
  end.

(** The integer part of the binary logarithm of [n / d] ([0 < n], [0 < d]). *)
Definition floor_log2 (n d : Z) : Z :=
  let l := Z.log2 n - Z.log2 d in
  if 0 <=? l then (if d * 2 ^ l <=? n then l else l - 1)
  else (if d <=? n * 2 ^ (- l) then l else l - 1).

(** The [m] and [e] of the nearest number to [n / d] ([0 < n], [0 < d]):
    53 binary digits, or fewer at the bottom of the range. *)
Definition nearest_pos (n d : Z) : Z * Z :=
  let e := Z.max (floor_log2 n d - 52) (-1074) in
  let m := if 0 <=? e then div_half_even n (d * 2 ^ e)
           else div_half_even (n * 2 ^ (- e)) d in
  (m, e).

(** [m * 2 ^ e]. *)
Definition scale (m e : Z) : Q :=
  if 0 <=? e then inject_Z (m * 2 ^ e) else m # (2 ^ Z.to_pos (- e))%positive.

(** The nearest number to [q], not looking at the top of the range: a
    result of [2 ^ 1024] or more stands for an overflow. *)
Definition nearest64 (q : Q) : Q :=
  match Qnum q with
  | Z0 => 0
  | Zpos n => let '(m, e) := nearest_pos (Zpos n) (Zpos (Qden q)) in scale m e
  | Zneg n => let '(m, e) := nearest_pos (Zpos n) (Zpos (Qden q)) in (- scale m e)%Q
  end.

(** *** The same rounding in the Standard Library

    [SpecFloat] specifies binary64 as the format of precision 53 and
    exponent bound 1024; [nearest64] is compared with it on the quotient of
    two integers and on an integer times a power of two. *)

Definition spec_float_value (x : spec_float) : option Q :=
  match x with
  | S754_zero _ => Some 0%Q
  | S754_finite s m e => Some (scale (if s then Zneg m else Zpos m) e)
  | _ => None
  end.

(** [n / d] for [n] and [d] of at most 53 binary digits, [0 < d]. *)
Definition agrees_on_quotient (nd : Z * Z) : bool :=
  let '(n, d) := nd in
  match spec_float_value
          (SFdiv 53 1024 (binary_normalize 53 1024 n 0 false)
             (binary_normalize 53 1024 d 0 false)) with
  | Some r => Qeq_bool (nearest64 (n # Z.to_pos d)) r
  | None => false
  end.

(** [m * 2 ^ e]. *)
Definition agrees_on_scaled (me : Z * Z) : bool :=
  let '(m, e) := me in
  match spec_float_value (binary_normalize 53 1024 m e false) with
  | Some r => Qeq_bool (nearest64 (scale m e)) r
  | None => false
  end.

(** The [float64] nearest to [q]: an infinity from [2 ^ 1024] on. *)
Definition round64 (q : Q) : value :=
  let x := nearest64 q in
  if Qle_bool (inject_Z (2 ^ 1024)) x then Inf false
  else if Qle_bool x (inject_Z (- 2 ^ 1024)) then Inf true
  else Num (Qred x).

(** [float(x)]: an [int] goes to the nearest [float64], a [float] is itself. *)
Definition to_float (v : value) : value :=
  match v with
  | Num q => round64 q
  | _ => v
  end.

(** ** The comparison table ([df_aggregate]'s result)

    One row of the aggregate table, under the public column names that
    [df_aggregate] gives them. *)

Module Agg.
Record row : Type := mk {
  SA2 : string;
  Bedrooms : string;
  rental_count : value;
  Airbnb_count : value;
  rental_price : value;
  rental_price_basic : value;
  rental_price_average : value;
  Airbnb_price : value
}.
End Agg.

(** The value [add_ratios] stores in [count_ratio] for one row (the first
    [if] chain of its loop body). *)
Definition count_ratio (row : Agg.row) : result value :=
  if py_eq (Agg.Airbnb_count row) (Agg.rental_count row) then Ok (Num 0)
  else
    gt ← py_gt (Agg.Airbnb_count row) (Agg.rental_count row);
    if (gt : bool) then
      if py_eq (Agg.rental_count row) (Num 0) then
        d ← py_add (Agg.rental_count row) (Num 1);
        f ← py_div (Num (-1 # 1)) d;
        py_mul (Agg.Airbnb_count row) f
      else
        f ← py_div (Num (-1 # 1)) (Agg.rental_count row);
        py_mul (Agg.Airbnb_count row) f
    else
      if py_eq (Agg.Airbnb_count row) (Num 0) then
        d ← py_add (Agg.Airbnb_count row) (Num 1);
        f ← py_div (Num 1) d;
        py_mul (Agg.rental_count row) f
      else
        f ← py_div (Num 1) (Agg.Airbnb_count row);
        py_mul (Agg.rental_count row) f.

(** The value [add_ratios] stores in [price_ratio] for one row (the second
    [if] chain of its loop body). *)
Definition price_ratio (row : Agg.row) : result value :=
  if py_eq (Agg.Airbnb_price row) (Agg.rental_price_average row) then Ok (Num 0)
  else
    gt ← py_gt (Agg.Airbnb_price row) (Agg.rental_price_average row);
    if (gt : bool) then
      if py_eq (Agg.rental_price_average row) (Num 0) then
        d ← py_add (Agg.rental_price_average row) (Num 1);
        f ← py_div (Num (-1 # 1)) d;
        py_mul (Agg.Airbnb_price row) f
      else
        f ← py_div (Num (-1 # 1)) (Agg.rental_price_average row);
        py_mul (Agg.Airbnb_price row) f
    else
      if py_eq (Agg.Airbnb_price row) (Num 0) then
        d ← py_add (Agg.Airbnb_price row) (Num 1);
        f ← py_div (Num 1) d;
        py_mul (Agg.rental_price_average row) f
      else
        f ← py_div (Num 1) (Agg.Airbnb_price row);
        py_mul (Agg.rental_price_average row) f.

(** The policy of the specification (section 4.6), on numbers [a] (the
    listing side) and [b] (the rental side); compared with the code below. *)
Definition ratio_policy (a b : Q) : Q :=
  if Qeq_bool a b then 0
  else if Qltb b a then
    (if Qeq_bool b 0 then a * ((-1 # 1) / (b + 1)) else a * ((-1 # 1) / b))
  else
    (if Qeq_bool a 0 then b * (1 / (a + 1)) else b * (1 / a)).

(** ** Strings

    The string operations of Python and pandas that the script uses, on
    ASCII text. *)

(** [s] without its prefix [p], when it starts with [p]. *)
Fixpoint strip_prefix (p s : string) : option string :=
  match p, s with
  | EmptyString, _ => Some s
  | String a p', String b s' => if Ascii.eqb a b then strip_prefix p' s' else None
  | String _ _, EmptyString => None
  end.

(** [sub in s]. *)
Fixpoint contains (sub s : string) : bool :=
  match strip_prefix sub s with
  | Some _ => true
  | None => match s with
            | EmptyString => false
            | String _ s' => contains sub s'
            end
  end.

(** Left-to-right replacement of the non-overlapping matches of a pattern:
    [m s] is the length of the match that starts at the head of [s], if any;
    [skip] counts the characters of the current match still to be dropped. *)
Fixpoint sub_matches (m : string -> option nat) (new : string) (skip : nat)
    (s : string) : string :=
  match s with
  | EmptyString => EmptyString
  | String c s' =>
      match skip with
      | S k => sub_matches m new k s'
      | O =>
          match m s with
          | Some (S k) => new ++ sub_matches m new k s'
          | _ => String c (sub_matches m new O s')
          end
      end
  end.

Definition literal (old : string) (s : string) : option nat :=
  match strip_prefix old s with
  | Some _ => Some (String.length old)
  | None => None
  end.

(** [s.replace(old, new)] and pandas' [.str.replace(old, new)] with a
    literal pattern ([regex = False], the default), for a non-empty [old]. *)
Definition str_replace (old new s : string) : string :=
  sub_matches (literal old) new O s.

(** The text [s] without the character [c]: the stripping of a character
    in the specification's words, compared with [str_replace] below. *)
Fixpoint without (c : ascii) (s : string) : string :=
  match s with
  | EmptyString => EmptyString
  | String d s' => if Ascii.eqb c d then without c s' else String d (without c s')
  end.

(** The longest run of [c] at the head of [s], and what follows it. *)
Fixpoint skip_char (c : ascii) (s : string) : nat * string :=
  match s with
  | String b s' =>
      if Ascii.eqb b c then let '(n, r) := skip_char c s' in (S n, r) else (O, s)
  | EmptyString => (O, s)
  end.

(** The class [\s] of Python's [re] on ASCII text. *)
Definition is_space (c : ascii) : bool :=
  let n := N_of_ascii c in
  ((n =? 32) || ((9 <=? n) && (n <=? 13)) || ((28 <=? n) && (n <=? 31)))%N.

(** The pattern [" bedrooms*: Total households stated"] of [rental_count]. *)
Definition re_bedrooms_total (s : string) : option nat :=
  s1 ← strip_prefix " bedroom" s;
  let '(k, s2) := skip_char "s" s1 in
  _ ← strip_prefix ": Total households stated" s2;
  Some (String.length " bedroom" + k + String.length ": Total households stated")%nat.

(** The pattern [" bedrooms*: \S.*$"] of [assign_rental_price]; a column
    label has no line break, so [.*$] runs to the end of the label. *)
Definition re_bedrooms_any (s : string) : option nat :=
  s1 ← strip_prefix " bedroom" s;
  let '(k, s2) := skip_char "s" s1 in
  s3 ← strip_prefix ": " s2;
  match s3 with
  | String c _ => if is_space c then None else Some (String.length s)
  | EmptyString => None
  end.

(** [re.sub("^.*?(?=\$)", "", s)]: the text before the first dollar sign
    is dropped; a label without one is left as it is. *)
Fixpoint from_first_dollar (s : string) : option string :=
  match s with
  | EmptyString => None
  | String c s' => if Ascii.eqb c "$" then Some s else from_first_dollar s'
  end.

Definition drop_to_dollar (s : string) : string :=
  match from_first_dollar s with
  | Some r => r
  | None => s
  end.

(** [re.sub("^\$100$", "Under $100", s)]. *)
Definition under_100 (s : string) : string :=
  if String.eqb s "$100" then "Under $100" else s.

(** *** Numbers and text *)

Definition digit_of (c : ascii) : option Z :=
  let n := Z.of_N (N_of_ascii c) in
  if ((48 <=? n) && (n <=? 57))%Z then Some (n - 48) else None.

(** The white space that [float] skips around a number. *)
Definition is_float_space (c : ascii) : bool :=
  let n := N_of_ascii c in
  ((n =? 32) || ((9 <=? n) && (n <=? 13)))%N.

(** [s] without the white space at its head, at its end. *)
Fixpoint lstrip (s : string) : string :=
  match s with
  | String c s' => if is_float_space c then lstrip s' else s
  | EmptyString => s
  end.

Fixpoint rstrip (s : string) : string :=
  match s with
  | EmptyString => EmptyString
  | String c s' =>
      match rstrip s' with
      | EmptyString => if is_float_space c then EmptyString else String c EmptyString
      | r => String c r
      end
  end.

Definition is_digit (c : ascii) : bool :=
  match digit_of c with
  | Some _ => true
  | None => false
  end.

(** The digit separators of a numeric literal: an underscore stands
    between two digits, or the text is rejected; [prev] is the character
    before [s]. *)
Fixpoint drop_underscores (prev : ascii) (s : string) : option string :=
  match s with
  | EmptyString => if Ascii.eqb prev "_" then None else Some EmptyString
  | String c s' =>
      if Ascii.eqb c "_" then
        if is_digit prev then drop_underscores c s' else None
      else if Ascii.eqb prev "_" && negb (is_digit c) then None
      else String c <$> drop_underscores c s'
  end.

(** The digits at the head of [s]: the number they write after the digits
    of [acc], how many they are, and the rest of [s]. *)
Fixpoint read_digits (acc : Z) (n : nat) (s : string) : Z * nat * string :=
  match s with
  | String c s' =>
      match digit_of c with
      | Some d => read_digits (10 * acc + d) (S n) s'
      | None => (acc, n, s)
      end
  | EmptyString => (acc, n, s)
  end.

(** A sign at the head of [s], or none: whether it is a minus, and the rest. *)
Definition read_sign (s : string) : bool * string :=
  match s with
  | String "-" s' => (true, s')
  | String "+" s' => (false, s')
  | _ => (false, s)
  end.

(** An exponent at the head of [s]: [e] or [E], a sign or none, and at least
    one digit; anything else is no exponent and is left in place. *)
Definition read_exponent (s : string) : Z * string :=
  match s with
  | String c s' =>
      if Ascii.eqb c "e" || Ascii.eqb c "E" then
        let '(negative, s1) := read_sign s' in
        let '(e, n, s2) := read_digits 0 O s1 in
        match n with
        | O => (0, s)
        | S _ => (if negative : bool then - e else e, s2)
        end
      else (0, s)
  | EmptyString => (0, s)
  end.

(** [m * 10 ^ k], in lowest terms. *)
Definition decimal (m k : Z) : Q :=
  if 0 <=? k then inject_Z (m * 10 ^ k) else Qred (m # Z.to_pos (10 ^ (- k))).

(** The decimal number at the head of [s], with the rest of [s]: digits
    with or without a point among them, and an exponent or none. *)
Definition read_decimal (s : string) : option (Q * string) :=
  let '(ip, n1, s1) := read_digits 0 O s in
  let '(m, n2, s2) :=
    match s1 with
    | String "." s' => read_digits ip O s'
    | _ => (ip, O, s1)
    end in
  match (n1 + n2)%nat with
  | O => None
  | S _ =>
      let '(e, s3) := read_exponent s2 in
      Some (decimal m (e - Z.of_nat n2), s3)
  end.

(** [c.lower()], [s.lower()]. *)
Definition lower (c : ascii) : ascii :=
  let n := N_of_ascii c in
  if ((65 <=? n) && (n <=? 90))%N then ascii_of_N (n + 32) else c.

Fixpoint lower_string (s : string) : string :=
  match s with
  | EmptyString => EmptyString
  | String c s' => String (lower c) (lower_string s')
  end.

(** [float(s)]: digit separators are checked and dropped, white space
    around the text is skipped, and what is left is a sign or none before
    a decimal number or one of the names [inf], [infinity], [nan] in any
    case.  The number read is the nearest [float64] to the decimal number,
    an infinity past the top of the range.  [None] is for a text that
    [float] rejects with [ValueError]. *)
Definition parse_float (s : string) : option value :=
  s ← drop_underscores "000" s;
  let '(negative, s1) := read_sign (rstrip (lstrip s)) in
  match read_decimal s1 with
  | Some (q, EmptyString) => Some (round64 (if negative : bool then - q else q))
  | Some _ => None
  | None =>
      let name := lower_string s1 in
      if String.eqb name "inf" || String.eqb name "infinity" then Some (Inf negative)
      else if String.eqb name "nan" then Some NaN
      else None
  end.

(** *** Price texts

    The text of an amount, for the statement of the price conversion. *)

(** The character of a decimal digit. *)
Definition digit_char (d : nat) : ascii := ascii_of_nat (48 + d).

(** The text of a list of decimal digits, and the number it writes. *)
Definition digits_text (ds : list nat) : string :=
  foldr (fun d s => String (digit_char d) s) EmptyString ds.

Definition digits_value (ds : list nat) : Z :=
  fold_left (fun acc d => 10 * acc + Z.of_nat d) ds 0.

(** An amount with a decimal point, as "1234.00": its text and its value. *)
Definition amount_text (ip fp : list nat) : string :=
  digits_text ip ++ String "." (digits_text fp).

Definition amount (ip fp : list nat) : Q :=
  decimal (digits_value (ip ++ fp)) (- Z.of_nat (length fp)).

(** A price cell of the listings file: empty, or the text of an amount
    with "$" and "," among its characters. *)
Definition price_cell (v : value) : Prop :=
  v = NaN \/
  exists (s : string) (ip fp : list nat),
    v = Str s /\
    Forall (fun d => (d < 10)%nat) ip /\ Forall (fun d => (d < 10)%nat) fp /\ ip <> [] /\
    without "$" (without "," s) = amount_text ip fp.

(** The product of a [float64] and 7, as a [float64]. *)
Definition times7 (v : value) : value :=
  match v with
  | Num x => round64 (x * 7)
  | _ => v
  end.

(** A character that is no digit separator and no white space. *)
Definition clean (c : ascii) : bool :=
  negb (Ascii.eqb c "_") && negb (is_float_space c).

Fixpoint all_chars (P : ascii -> bool) (s : string) : bool :=
  match s with
  | EmptyString => true
  | String c s' => P c && all_chars P s'
  end.

(** [str(n)] for a Python [int]. *)
Definition str_of_Z (n : Z) : string := NilZero.string_of_int (Z.to_int n).

(** [str(x)] for a [float] that holds the whole number [n]
    (of magnitude below 1e16, where [repr] uses no exponent). *)
Definition str_of_float_Z (n : Z) : string := str_of_Z n ++ ".0".

(** ** Constants of the script *)

Definition CATEGORIES : list string :=
  ["1 bedroom"; "2 bedrooms"; "3 bedrooms"; "4 bedrooms"; "5 bedrooms";
   "6 bedrooms"; "7 bedrooms"; "8 or more bedrooms";
   "Total households stated - number of bedrooms"].

Definition NA_REPLACEMENT : value := Num 0.
Definition NIGHTS_IN_WEEK : Q := 7.
Definition BEDROOMS_ORDER : list string :=
  ["1"; "2"; "3"; "4"; "5"; "6"; "7"; "8 or more"; "total"].

(** ** Keyed tables and the pandas operations on them

    A table keyed by area and bedroom category: the two key columns and
    the remaining columns [cols]. *)

Record Row (A : Type) : Type := mkRow {
  SA22018__1 : string;
  bedrooms : string;
  cols : A
}.
Arguments mkRow {A} _ _ _.
Arguments SA22018__1 {A} _.
Arguments bedrooms {A} _.
Arguments cols {A} _.

Definition key : Type := string * string.

Definition key_of {A : Type} (r : Row A) : key := (SA22018__1 r, bedrooms r).

Definition key_eqb (k1 k2 : key) : bool :=
  String.eqb (fst k1) (fst k2) && String.eqb (snd k1) (snd k2).

(** Python's order on pairs of [str]: by code point, first component first. *)
Definition key_leb (k1 k2 : key) : bool :=
  match String.compare (fst k1) (fst k2) with
  | Lt => true
  | Eq => String.leb (snd k1) (snd k2)
  | Gt => false
  end.

Fixpoint insert_by {A : Type} (leb : A -> A -> bool) (x : A) (l : list A) : list A :=
  match l with
  | [] => [x]
  | y :: l' => if leb x y then x :: l else y :: insert_by leb x l'
  end.

(** A stable sort. *)
Definition sort_by {A : Type} (leb : A -> A -> bool) (l : list A) : list A :=
  foldr (insert_by leb) [] l.

(** [.sort_values(by = ["SA22018__1", "bedrooms"])]. *)
Definition sort_values {A : Type} (df : list (Row A)) : list (Row A) :=
  sort_by (fun r1 r2 => key_leb (key_of r1) (key_of r2)) df.

(** [.unique()]: the distinct values in order of first appearance. *)
Fixpoint unique (l : list string) : list string :=
  match l with
  | [] => []
  | x :: l' => x :: List.filter (fun y => negb (String.eqb x y)) (unique l')
  end.

Fixpoint unique_keys (l : list key) : list key :=
  match l with
  | [] => []
  | x :: l' => x :: List.filter (fun y => negb (key_eqb x y)) (unique_keys l')
  end.

(** [[(sa2, bedroom) for sa2 in unique_sa2s for bedroom in unique_bedrooms]]. *)
Definition all_combinations (unique_sa2s unique_bedrooms : list string) : list key :=
  flat_map (fun sa2 => map (fun bedroom => (sa2, bedroom)) unique_bedrooms) unique_sa2s.

(** [pd.merge(left, right, on = ["SA22018__1", "bedrooms"], how = "right")]
    where [right] has the two key columns only: the keys of [right] in
    their order, each with the rows of [left] that carry it, or with one
    row whose other columns are all NaN ([nan]) when [left] has none. *)
Definition merge_right {A : Type} (nan : A) (left : list (Row A)) (right : list key)
    : list (Row A) :=
  flat_map (fun k =>
    match List.filter (fun r => key_eqb (key_of r) k) left with
    | [] => [mkRow (fst k) (snd k) nan]
    | matches => matches
    end) right.

(** [.fillna(d)] on one cell. *)
Definition fillna (d : value) (v : value) : value :=
  match v with
  | NaN => d
  | _ => v
  end.

Definition map_cols {A B : Type} (f : A -> B) (df : list (Row A)) : list (Row B) :=
  map (fun r => mkRow (SA22018__1 r) (bedrooms r) (f (cols r))) df.

(** ** Listing table normaliser ([airbnb_import]) *)

(** A cell of the [bedrooms] column: a whole number (read as a float,
    since the column has gaps), NaN, or a [str]. *)
Inductive bed : Type :=
  | BedNum (n : Z)
  | BedNaN
  | BedStr (s : string).

Definition bed_number (b : bed) : Prop :=
  match b with
  | BedStr _ => False
  | _ => True
  end.

(** The listings file as [pd.read_csv] returns it. *)
Module Csv.
Record row : Type := mk {
  latitude : Q;
  longitude : Q;
  room_type : string;
  price : value;
  bedrooms : bed
}.
End Csv.

(** One area of [sa2_import]'s result; a polygon is the set of points
    (longitude, latitude) that it contains. *)
Record SA2Geo : Type := mkSA2Geo {
  geo_SA22018__1 : string;
  geometry : Q -> Q -> bool
}.

(** [filtered_df]: the areas joined with their listings.  Of the columns of
    the join, those that a later stage reads. *)
Module Joined.
Record row (B : Type) : Type := mk {
  SA22018__1 : string;
  price : value;
  bedrooms : B
}.
Arguments mk {B} _ _ _.
Arguments SA22018__1 {B} _.
Arguments price {B} _.
Arguments bedrooms {B} _.
End Joined.

(** [dataframe.fillna(value = {"bedrooms": 1})]. *)
Definition fillna_bedrooms (l : Csv.row) : Csv.row :=
  match Csv.bedrooms l with
  | BedNaN => Csv.mk (Csv.latitude l) (Csv.longitude l) (Csv.room_type l) (Csv.price l) (BedNum 1)
  | _ => l
  end.

(** [city_sa2.sjoin(dataframe, how = "left", predicate = "contains")]: every
    area with each listing whose point it contains; an area that contains
    none keeps one row, with NaN in the listing's columns. *)
Definition sjoin_left (city_sa2 : list SA2Geo) (dataframe : list Csv.row)
    : list (Joined.row bed) :=
  flat_map (fun a =>
    match List.filter (fun l => geometry a (Csv.longitude l) (Csv.latitude l)) dataframe with
    | [] => [Joined.mk (geo_SA22018__1 a) NaN BedNaN]
    | inside => map (fun l => Joined.mk (geo_SA22018__1 a) (Csv.price l) (Csv.bedrooms l)) inside
    end) city_sa2.

(** [filtered_df["price"].str]: pandas gives the accessor for a column of
    texts and refuses it, with [AttributeError], for a column of numbers.
    A column with a text cell has it; so has a column without any value
    when its dtype is [object], which [pd.read_csv] gives a column with a
    text cell and every column of a file without rows.  [file_column] is
    the column as read from the file, [column] the one of the join. *)
Definition is_text (v : value) : bool :=
  match v with
  | Str _ => true
  | _ => false
  end.

Definition is_missing (v : value) : bool :=
  match v with
  | NaN => true
  | _ => false
  end.

Definition object_dtype (file_column : list value) : bool :=
  match file_column with
  | [] => true
  | _ => existsb is_text file_column
  end.

Definition str_accessor (file_column column : list value) : result unit :=
  if existsb is_text column then Ok tt
  else if forallb is_missing column && object_dtype file_column then Ok tt
  else Raise AttributeError.

(** One cell of [.str.replace(",", "").str.replace("$", "").astype(float)
    .multiply(NIGHTS_IN_WEEK)]; the string methods leave NaN where the cell
    is not a [str], [astype] reads each text as [float] does and raises
    [ValueError] on a text that is no number, and the product is a
    [float64]. *)
Definition weekly_price (v : value) : result value :=
  match v with
  | Str s =>
      match parse_float (str_replace "$" "" (str_replace "," "" s)) with
      | Some x => to_float <$> py_mul x (Num NIGHTS_IN_WEEK)
      | None => Raise ValueError
      end
  | _ => Ok NaN
  end.

(** One cell of [filtered_df.loc[filtered_df["bedrooms"] > 7, "bedrooms"] =
    "8 or more"]. *)
Definition cap_bedrooms (b : bed) : result bed :=
  match b with
  | BedNum n => Ok (if 7 <? n then BedStr "8 or more" else b)
  | BedNaN => Ok b
  | BedStr _ => Raise TypeError
  end.

(** One cell of [.astype(str).str.replace(".0", "")]. *)
Definition bedrooms_str (b : bed) : string :=
  str_replace ".0" ""
    match b with
    | BedNum n => str_of_float_Z n
    | BedNaN => "nan"
    | BedStr s => s
    end.

Definition airbnb_import (airbnb_file : list Csv.row) (city_sa2 : list SA2Geo)
    : result (list (Joined.row string)) :=
  let dataframe :=
    List.filter (fun l => String.eqb (Csv.room_type l) "Entire home/apt") airbnb_file in
  let dataframe := map fillna_bedrooms dataframe in
  let filtered_df := sjoin_left city_sa2 dataframe in
  _ ← str_accessor (map Csv.price airbnb_file) (map Joined.price filtered_df);
  filtered_df ← rmapM (fun r =>
      p ← weekly_price (Joined.price r);
      Ok (Joined.mk (Joined.SA22018__1 r) p (Joined.bedrooms r))) filtered_df;
  filtered_df ← rmapM (fun r =>
      b ← cap_bedrooms (Joined.bedrooms r);
      Ok (Joined.mk (Joined.SA22018__1 r) (Joined.price r) b)) filtered_df;
  Ok (map (fun r =>
      Joined.mk (Joined.SA22018__1 r) (Joined.price r) (bedrooms_str (Joined.bedrooms r)))
    filtered_df).

(** ** The rental table ([dotstat_import]'s result)

    Column labels, and one row of counts per area: the index label and the
    cells under the columns, in column order. *)

Record RentalDf : Type := mkRentalDf {
  columns : list string;
  rows : list (string * list Z)
}.

(** [rental_df.index]. *)
Definition index (df : RentalDf) : list string := map fst (rows df).

(** ** Listing counts ([airbnb_count]) *)

Definition count_key (k : key) (keys : list key) : Z :=
  Z.of_nat (length (List.filter (key_eqb k) keys)).

(** [.groupby(["SA22018__1", "bedrooms"], as_index = False).size()]: one
    row per distinct key, in key order, with the number of rows under it. *)
Definition groupby_size (keys : list key) : list (Row value) :=
  map (fun k => mkRow (fst k) (snd k) (Num (inject_Z (count_key k keys))))
    (sort_by key_leb (unique_keys keys)).

Definition Qsum (l : list Q) : Q := foldr Qplus 0%Q l.

Definition num_or_zero (v : value) : Q :=
  match v with
  | Num q => q
  | _ => 0%Q
  end.

(** [df.groupby("SA22018__1", as_index = False).sum("size")] followed by
    [total_counts["bedrooms"] = "total"]: per area, the sum of the numeric
    column (NaN counts as nothing). *)
Definition total_counts (df : list (Row value)) : list (Row value) :=
  map (fun a =>
      mkRow a "total"
        (Num (Qsum (map (fun r => num_or_zero (cols r))
                      (List.filter (fun r => String.eqb (SA22018__1 r) a) df)))))
    (sort_by String.leb (unique (map SA22018__1 df))).

Definition airbnb_count (city_airbnb_df : list (Joined.row string))
    (rental_df : RentalDf) : list (Row value) :=
  let airbnb_count_df :=
    groupby_size (map (fun r => (Joined.SA22018__1 r, Joined.bedrooms r)) city_airbnb_df) in
  let airbnb_count_df := airbnb_count_df ++ total_counts airbnb_count_df in
  let unique_sa2s := unique (index rental_df) in
  let unique_bedrooms := BEDROOMS_ORDER in
  sort_values
    (map_cols (fillna NA_REPLACEMENT)
       (merge_right NaN airbnb_count_df (all_combinations unique_sa2s unique_bedrooms))).

(** ** Listing median prices ([airbnb_price]) *)

(** The cells that a median counts: the numbers and the infinities. *)
Definition numbers (l : list value) : list value :=
  List.filter (fun v => match v with Num _ | Inf _ => true | _ => false end) l.

(** [x <= y] on numbers and infinities. *)
Definition value_leb (x y : value) : bool :=
  match x, y with
  | Num a, Num b => Qle_bool a b
  | Inf s, Inf t => implb t s
  | Inf s, Num _ => s
  | Num _, Inf t => negb t
  | _, _ => true
  end.

(** [(x + y) / 2] on numbers and infinities. *)
Definition mean (x y : value) : value :=
  match x, y with
  | Num a, Num b => Num ((a + b) / 2)
  | Inf s, Inf t => if Bool.eqb s t then Inf s else NaN
  | Inf s, _ | _, Inf s => Inf s
  | _, _ => NaN
  end.

(** The median that pandas takes of a numeric column: NaN cells are
    skipped, an even number of values gives the mean of the middle two, and
    no value at all gives NaN. *)
Definition median (l : list value) : value :=
  let xs := sort_by value_leb (numbers l) in
  let n := length xs in
  match n with
  | O => NaN
  | _ =>
      if Nat.odd n then nth (n / 2) xs NaN
      else mean (nth (n / 2 - 1) xs NaN) (nth (n / 2) xs NaN)
  end.

(** [.groupby(["SA22018__1", "bedrooms"], as_index = False).median("price")]. *)
Definition groupby_median (df : list (Joined.row string)) : list (Row value) :=
  map (fun k =>
      mkRow (fst k) (snd k)
        (median (map Joined.price
           (List.filter (fun r => key_eqb (Joined.SA22018__1 r, Joined.bedrooms r) k) df))))
    (sort_by key_leb
       (unique_keys (map (fun r => (Joined.SA22018__1 r, Joined.bedrooms r)) df))).

(** [.groupby("SA22018__1", as_index = False).median("price")] followed by
    [total_median["bedrooms"] = "total"]. *)
Definition total_median (df : list (Joined.row string)) : list (Row value) :=
  map (fun a =>
      mkRow a "total"
        (median (map Joined.price
           (List.filter (fun r => String.eqb (Joined.SA22018__1 r) a) df))))
    (sort_by String.leb (unique (map Joined.SA22018__1 df))).

Definition airbnb_price (city_airbnb_df : list (Joined.row string))
    (rental_df : RentalDf) : list (Row value) :=
  let airbnb_price_df := groupby_median city_airbnb_df in
  let airbnb_price_df := airbnb_price_df ++ total_median city_airbnb_df in
  let unique_sa2s := unique (index rental_df) in
  let unique_bedrooms := BEDROOMS_ORDER in
  sort_values
    (map_cols (fillna NA_REPLACEMENT)
       (merge_right NaN airbnb_price_df (all_combinations unique_sa2s unique_bedrooms))).

(** ** Column selection on the rental table *)

(** The entries of [l] at the positions where [mask] holds. *)
Fixpoint select {A : Type} (mask : list bool) (l : list A) : list A :=
  match mask, l with
  | b :: mask', x :: l' => if b then x :: select mask' l' else select mask' l'
  | _, _ => []
  end.

(** [df.filter(like = sub)]: the columns whose label contains [sub]. *)
Definition filter_like (sub : string) (df : RentalDf) : RentalDf :=
  let mask := map (contains sub) (columns df) in
  mkRentalDf (select mask (columns df))
    (map (fun r => (fst r, select mask (snd r))) (rows df)).

(** [l[lo:hi]] for [0 <= lo <= hi]. *)
Definition slice {A : Type} (lo hi : nat) (l : list A) : list A :=
  take (hi - lo) (drop lo l).

(** [df.iloc[0:, lo:hi]]. *)
Definition iloc_cols (lo hi : nat) (df : RentalDf) : RentalDf :=
  mkRentalDf (slice lo hi (columns df))
    (map (fun r => (fst r, slice lo hi (snd r))) (rows df)).

(** [l[i]] for a Python index, which may count from the end. *)
Definition py_index {A : Type} (l : list A) (i : Z) : result A :=
  let j := if i <? 0 then i + Z.of_nat (length l) else i in
  if j <? 0 then Raise IndexError
  else match l !! Z.to_nat j with
       | Some x => Ok x
       | None => Raise IndexError
       end.

(** ** Rental counts ([rental_count]) *)

Definition cell_at (j : nat) (cells : list Z) : value :=
  match cells !! j with
  | Some z => Num (inject_Z z)
  | None => NaN
  end.

(** [.reset_index().melt(id_vars = ["Weekly rent paid"], ...)]: column by
    column, the rows in index order. *)
Definition melt (df : RentalDf) : list (Row value) :=
  flat_map (fun jc : nat * string =>
      map (fun r : string * list Z => mkRow (fst r) (snd jc) (cell_at (fst jc) (snd r)))
        (rows df))
    (imap (fun j c => (j, c)) (columns df)).

Definition rental_count (rental_df : RentalDf) : list (Row value) :=
  let rental_count_df :=
    sort_values (melt (filter_like ": Total households stated" rental_df)) in
  map (fun r =>
      mkRow (SA22018__1 r)
        (str_replace "Total households stated - number of" "total"
           (sub_matches re_bedrooms_total "" O (bedrooms r)))
        (cols r))
    rental_count_df.

(** ** The ratio in binary64 *)

(** [x + y] with a [float] among the two (the sum of two [int] of at most
    53 binary digits is the same). *)
Definition float_add (x y : value) : result value := to_float <$> py_add x y.

(** [x / y]: the nearest [float64] to the quotient (for two [int] as for a
    [float]). *)
Definition float_div (x y : value) : result value := to_float <$> py_div x y.

(** [x * y] with a [float] [y]: the [float] of [x] times [y], rounded. *)
Definition float_mul (x y : value) : result value :=
  to_float <$> py_mul (to_float x) (to_float y).

(** Either [if] chain of [add_ratios] in the arithmetic of the machine, on
    the listing cell [a] and the rental cell [b] of a row: the comparisons
    are exact, every quotient and product is a [float64]. *)
Definition ratio_float64 (a b : value) : result value :=
  if py_eq a b then Ok (Num 0)
  else
    gt ← py_gt a b;
    if (gt : bool) then
      if py_eq b (Num 0) then
        d ← float_add b (Num 1); f ← float_div (Num (-1 # 1)) d; float_mul a f
      else f ← float_div (Num (-1 # 1)) b; float_mul a f
    else
      if py_eq a (Num 0) then
        d ← float_add a (Num 1); f ← float_div (Num 1) d; float_mul b f
      else f ← float_div (Num 1) a; float_mul b f.

(** [-x]. *)
Definition value_opp (v : value) : value :=
  match v with
  | Num q => Num (- q)
  | Inf s => Inf (negb s)
  | _ => v
  end.

(** A number or an infinity that is at least [c]. *)
Definition at_least (c : Q) (v : value) : Prop :=
  match v with
  | Num q => (c <= q)%Q
  | Inf s => s = false
  | _ => False
  end.

(** A number or an infinity above zero, below zero. *)
Definition is_positive (v : value) : Prop :=
  match v with
  | Num q => (0 < q)%Q
  | Inf s => s = false
  | _ => False
  end.

Definition is_negative (v : value) : Prop := is_positive (value_opp v).

(** The positive numbers from the least positive [float64] to the top of
    its range: every positive [float64] and every positive [int64]. *)
Definition float_range (q : Q) : Prop :=
  (1 # 2 ^ 1074 <= q)%Q /\ (q <= inject_Z (2 ^ 1024))%Q.

(** ** Weighted-median bucket selector ([assign_rental_price])

    The cells of the rental table are [int64]: [row.sum()] and
    [cumulative_sum += row[i]] add modulo [2 ^ 64], and the running sum is
    compared with [median_position], a [float64], after its conversion to
    [float64]. *)

(** The sum of a list of integers, without wrap-around. *)
Definition sum_Z (row : list Z) : Z := foldr Z.add 0 row.

(** The [int64] that is [z] modulo [2 ^ 64]. *)
Definition wrap64 (z : Z) : Z := (z + 2 ^ 63) mod 2 ^ 64 - 2 ^ 63.

Definition int64_add (x y : Z) : Z := wrap64 (x + y).

(** [row.sum()]. *)
Definition int64_sum (row : list Z) : Z := fold_left int64_add row 0.

(** The [float64] of an [int64]. *)
Definition float_of_int64 (z : Z) : Q := nearest64 (inject_Z z).

(** Where the inner [while] loop ends. *)
Inductive walk_end : Type :=
  | Stopped (i : nat) (cumulative_sum : Z)
  | PastEnd.

(** [while cumulative_sum < median_position: cumulative_sum += row[i]; i += 1]
    entered with [rest = row[i:]]: [row[i]] is the head of [rest], and on an
    empty [rest] the index [i] is [len(row)], where [row[i]] raises. *)
Fixpoint walk (median_position : Q) (rest : list Z) (i : nat) (cumulative_sum : Z)
    : walk_end :=
  if Qltb (float_of_int64 cumulative_sum) median_position then
    match rest with
    | [] => PastEnd
    | c :: rest' => walk median_position rest' (S i) (int64_add cumulative_sum c)
    end
  else Stopped i cumulative_sum.

(** The body of the [for] loop for one row of [col_subset]: the position
    [i - 1] of the column whose label goes into [new_row], or nothing when
    the [if cumulative_sum != 0] is not taken. *)
Definition select_bucket (row : list Z) : result (option Z) :=
  let total_weight := int64_sum row in
  let median_position := (float_of_int64 total_weight * 0.5)%Q in
  match walk median_position row O 0 with
  | PastEnd => Raise IndexError
  | Stopped i cumulative_sum =>
      if negb (cumulative_sum =? 0) then Ok (Some (Z.of_nat i - 1)) else Ok None
  end.

(** The [bedrooms] cell of [new_row]. *)
Definition bedrooms_of_label (label : string) : string :=
  str_replace "Total households stated - number of" "total"
    (sub_matches re_bedrooms_any "" O label).

(** The [price_str] cell of [new_row]. *)
Definition price_str_of_label (label : string) : string :=
  under_100 (drop_to_dollar label).

(** The [for] loop over one block of eight columns. *)
Definition assign_block (col_subset : RentalDf) : result (list (Row value)) :=
  new_rows ← rmapM (fun r : string * list Z =>
      sel ← select_bucket (snd r);
      match sel with
      | Some j =>
          label ← py_index (columns col_subset) j;
          Ok [mkRow (fst r) (bedrooms_of_label label) (Str (price_str_of_label label))]
      | None => Ok []
      end) (rows col_subset);
  Ok (concat new_rows).

(** The outer [while max_col <= len(...)] loop runs once for each whole
    block of eight priced columns: [min_col = 8 * k], [max_col = 8 * k + 8]. *)
Definition assign_rental_price (rental_df : RentalDf) : result (list (Row value)) :=
  let priced := filter_like "$" rental_df in
  blocks ← rmapM (fun k : nat =>
      assign_block (iloc_cols (8 * k) (8 * k + 8) priced))
    (seq 0 (length (columns priced) / 8));
  Ok (concat blocks).

(** ** Completion of the rental prices ([fill_rental_price]) *)

Record RentalPrice : Type := mkRentalPrice {
  price_str : value;
  price_basic : value;
  price_average : value
}.

Definition basic_price_dict : gmap string Q :=
  list_to_map
    [("0", 0.0); ("Under $100", 1.0); ("$100 - $149", 1.5); ("$150 - $199", 2.0);
     ("$200 - $299", 3.0); ("$300 - $399", 4.0); ("$400 - $499", 5.0);
     ("$500  - $599", 6.0); ("$600 and over", 7.0)]%Q.

Definition average_price_dict : gmap string Q :=
  list_to_map
    [("0", 0.0); ("Under $100", 49.5); ("$100 - $149", 124.5);
     ("$150 - $199", 174.5); ("$200 - $299", 249.5); ("$300 - $399", 349.5);
     ("$400 - $499", 449.5); ("$500  - $599", 549.5); ("$600 and over", 800.0)]%Q.

(** One cell of [Series.replace(d)]: a cell equal to a key of [d] becomes
    the key's value, any other cell stays. *)
Definition series_replace (d : gmap string Q) (v : value) : value :=
  match v with
  | Str s => match d !! s with
             | Some q => Num q
             | None => v
             end
  | _ => v
  end.

(** [incomplete_rental_price["bedrooms"]] raises [KeyError] on the empty
    frame that [assign_rental_price] returns when it made no row. *)
Definition fill_rental_price (rental_df : RentalDf)
    (incomplete_rental_price : list (Row value)) : result (list (Row RentalPrice)) :=
  match incomplete_rental_price with
  | [] => Raise KeyError
  | _ =>
      let unique_sa2s := unique (index rental_df) in
      let unique_bedrooms := unique (map bedrooms incomplete_rental_price) in
      let rental_price_df :=
        sort_values
          (map_cols (fillna (Str "0"))
             (merge_right NaN incomplete_rental_price
                (all_combinations unique_sa2s unique_bedrooms))) in
      Ok (map_cols (fun p =>
            mkRentalPrice p (series_replace basic_price_dict p)
              (series_replace average_price_dict p))
          rental_price_df)
  end.

(** ** Aggregator ([df_aggregate]) *)

(** The cell that [left.join(right[c])] puts in the row of index label [i]:
    every frame has the index 0, 1, 2, ... here, so the label is a position. *)
Definition joined_cell {A : Type} (f : A -> value) (right : list (Row A)) (i : nat) : value :=
  match right !! i with
  | Some r => f (cols r)
  | None => NaN
  end.

Definition df_aggregate (city_rental_count city_airbnb_count : list (Row value))
    (city_rental_price : list (Row RentalPrice)) (city_airbnb_price : list (Row value))
    : list Agg.row :=
  imap (fun i r =>
      Agg.mk (SA22018__1 r) (bedrooms r) (cols r)
        (joined_cell id city_airbnb_count i)
        (joined_cell price_str city_rental_price i)
        (joined_cell price_basic city_rental_price i)
        (joined_cell price_average city_rental_price i)
        (joined_cell id city_airbnb_price i))
    city_rental_count.

(** ** Ratio calculator ([add_ratios])

    [add_ratios] writes into the frame it is handed, so frames live in a
    store and the function takes references. *)

(** The aggregate frame as an object: [df_aggregate]'s rows, and the two
    columns that [add_ratios] creates in it ([None] while absent). *)
Record AggFrame : Type := mkAggFrame {
  agg_rows : list Agg.row;
  count_ratio_col : option (list value);
  price_ratio_col : option (list value)
}.

(** One row of the frame [add_ratios] returns. *)
Record ComparisonRow : Type := mkComparisonRow {
  cmp_area : SA2Geo;
  cmp_row : Agg.row;
  cmp_count_ratio : value;
  cmp_price_ratio : value
}.

Inductive obj : Type :=
  | ObjAgg (f : AggFrame)
  | ObjGeo (g : list SA2Geo)
  | ObjComparison (c : list ComparisonRow)
  | ObjTable (t : list (Row value))
  | ObjPrices (t : list (Row RentalPrice)).

Abbreviation store := (gmap nat obj).

(** Computations that read and write the store and may raise; the store
    outlives an exception. *)
Definition M (A : Type) : Type := store -> result A * store.

#[global] Instance M_ret : MRet M := fun A a σ => (Ok a, σ).
#[global] Instance M_bind : MBind M := fun A B k m σ =>
  match m σ with
  | (Ok a, σ') => k a σ'
  | (Raise e, σ') => (Raise e, σ')
  end.

Definition lift {A : Type} (r : result A) : M A := fun σ => (r, σ).

Definition read_agg (r : nat) : M AggFrame := fun σ =>
  match σ !! r with
  | Some (ObjAgg f) => (Ok f, σ)
  | _ => (Raise TypeError, σ)
  end.

Definition read_geo (r : nat) : M (list SA2Geo) := fun σ =>
  match σ !! r with
  | Some (ObjGeo g) => (Ok g, σ)
  | _ => (Raise TypeError, σ)
  end.

Definition read_comparison (r : nat) : M (list ComparisonRow) := fun σ =>
  match σ !! r with
  | Some (ObjComparison c) => (Ok c, σ)
  | _ => (Raise TypeError, σ)
  end.



Definition update_agg (r : nat) (f : AggFrame -> AggFrame) : M unit := fun σ =>
  match σ !! r with
  | Some (ObjAgg df) => (Ok tt, <[r := ObjAgg (f df)]> σ)
  | _ => (Raise TypeError, σ)
  end.

Definition alloc (o : obj) : M nat := fun σ =>
  let r := fresh (dom σ) in (Ok r, <[r := o]> σ).

(** [df.loc[index, c] = v] on the column [c]: a column that is not there
    yet is created, with NaN in the other rows. *)
Definition loc_set (n index : nat) (v : value) (col : option (list value))
    : option (list value) :=
  Some (<[index := v]> (default (replicate n NaN) col)).

Definition set_count_ratio (index : nat) (v : value) (df : AggFrame) : AggFrame :=
  mkAggFrame (agg_rows df)
    (loc_set (length (agg_rows df)) index v (count_ratio_col df))
    (price_ratio_col df).

Definition set_price_ratio (index : nat) (v : value) (df : AggFrame) : AggFrame :=
  mkAggFrame (agg_rows df)
    (count_ratio_col df)
    (loc_set (length (agg_rows df)) index v (price_ratio_col df)).


(** [for index, row in l: body index row]. *)
Fixpoint for_each {A : Type} (l : list A) (body : A -> M unit) : M unit :=
  match l with
  | [] => mret tt
  | a :: l' => _ ← body a; for_each l' body
  end.

Definition ratio_cell (col : option (list value)) (i : nat) : value :=
  default NaN (col ≫= (fun c => c !! i)).

(** [city_sa2.merge(aggregate_df, left_on = ["SA22018__1"], right_on =
    ["SA2"]).set_index("SA2")]: an inner join, in the order of the areas. *)
Definition merge_geo (city_sa2 : list SA2Geo) (df : AggFrame) : list ComparisonRow :=
  flat_map (fun a =>
      omap (fun ir : nat * Agg.row =>
          if String.eqb (geo_SA22018__1 a) (Agg.SA2 (snd ir)) then
            Some (mkComparisonRow a (snd ir)
                    (ratio_cell (count_ratio_col df) (fst ir))
                    (ratio_cell (price_ratio_col df) (fst ir)))
          else None)
        (imap (fun i r => (i, r)) (agg_rows df)))
    city_sa2.

(** The body of the [for] loop of [add_ratios] on the frame at [r], for the
    index label and the row that [iterrows] yields. *)
Definition ratio_step (r : nat) (ir : nat * Agg.row) : M unit :=
  cr ← lift (count_ratio (snd ir));
  _ ← update_agg r (set_count_ratio (fst ir) cr);
  pr ← lift (price_ratio (snd ir));
  update_agg r (set_price_ratio (fst ir) pr).

(** [aggregate_df] and [city_sa2] are references; [iterrows] walks the rows
    as they were when the loop began. *)
Definition add_ratios (aggregate_df city_sa2 : nat) : M nat :=
  df ← read_agg aggregate_df;
  _ ← for_each (imap (fun index row => (index, row)) (agg_rows df))
        (ratio_step aggregate_df);
  df ← read_agg aggregate_df;
  geo ← read_geo city_sa2;
  alloc (ObjComparison (merge_geo geo df)).

(** ** The run of [main]

    From the three inputs to the frame handed to the map functions; the
    aggregate frame and the areas are put in the store for [add_ratios]. *)

Definition aggregate (rental_df : RentalDf) (airbnb_file : list Csv.row)
    (city_sa2 : list SA2Geo) : result (list Agg.row) :=
  city_airbnb_df ← airbnb_import airbnb_file city_sa2;
  let city_rental_count := rental_count rental_df in
  let city_airbnb_count := airbnb_count city_airbnb_df rental_df in
  incomplete ← assign_rental_price rental_df;
  city_rental_price ← fill_rental_price rental_df incomplete;
  let city_airbnb_price := airbnb_price city_airbnb_df rental_df in
  Ok (df_aggregate city_rental_count city_airbnb_count city_rental_price city_airbnb_price).

Definition main (rental_df : RentalDf) (airbnb_file : list Csv.row)
    (city_sa2 : list SA2Geo) : M (list ComparisonRow) :=
  agg ← lift (aggregate rental_df airbnb_file city_sa2);
  sa2_ref ← alloc (ObjGeo city_sa2);
  agg_ref ← alloc (ObjAgg (mkAggFrame agg None None));
  city_agg_df ← add_ratios agg_ref sa2_ref;
  read_comparison city_agg_df.

(** ** Example inputs *)

(** The eight price bands and the total, as the columns of one category. *)
Definition BANDS : list string :=
  ["Under $100"; "$100 - $149"; "$150 - $199"; "$200 - $299"; "$300 - $399";
   "$400 - $499"; "$500  - $599"; "$600 and over"; "Total households stated"].

(** The 81 column labels that [dotstat_import] builds. *)
Definition rental_columns : list string :=
  flat_map (fun c => map (fun b => c ++ ": " ++ b)%string BANDS) CATEGORIES.

(** One category's nine cells: [n] households, all in the band of position [band]. *)
Definition block (band : nat) (n : Z) : list Z :=
  <[band := n]> (replicate 8 0) ++ [n].

Definition empty_block : list Z := replicate 9 0.

(** Areas A and B; A has five one-bedroom rentals (at $300 - $399 a week),
    B has none. *)
Definition scenario_rental : RentalDf :=
  mkRentalDf rental_columns
    [("A", block 4 5 ++ concat (replicate 7 empty_block) ++ block 4 5);
     ("B", concat (replicate 9 empty_block))].

(** A is the strip of longitudes from 0 to 1, B the strip from 1 to 2. *)
Definition scenario_sa2 : list SA2Geo :=
  [mkSA2Geo "A" (fun lon lat => Qle_bool 0 lon && Qltb lon 1);
   mkSA2Geo "B" (fun lon lat => Qle_bool 1 lon && Qltb lon 2)].

(** Three one-bedroom listings, all in A. *)
Definition scenario_listings : list Csv.row :=
  [Csv.mk 0 0.2 "Entire home/apt" (Str "$100.00") (BedNum 1);
   Csv.mk 0 0.5 "Entire home/apt" (Str "$150.00") (BedNum 1);
   Csv.mk 0 0.7 "Entire home/apt" (Str "$1,234.00") BedNaN]%Q.

(** The key and count columns of the frame [add_ratios] returns, with the
    count ratio. *)
Definition count_cells (c : ComparisonRow) : string * string * value * value * value :=
  (Agg.SA2 (cmp_row c), Agg.Bedrooms (cmp_row c), Agg.rental_count (cmp_row c),
   Agg.Airbnb_count (cmp_row c), cmp_count_ratio c).

(** A store with the areas at reference 0 and, at reference 1, an aggregate
    frame of one row that has no ratio column yet. *)
Definition example_frame : AggFrame :=
  mkAggFrame
    [Agg.mk "A" "1" (Num 5) (Num 3) (Str "Under $100") (Num 1.0) (Num 49.5) (Num 700)]
    None None.

Definition example_store : store :=
  <[1%nat := ObjAgg example_frame]> (<[0%nat := ObjGeo scenario_sa2]> ∅).

(** The policy on the cells of a row, NaN where a ratio raises. *)
Definition count_ratio_value (row : Agg.row) : value :=
  match count_ratio row with
  | Ok v => v
  | Raise _ => NaN
  end.

Definition price_ratio_value (row : Agg.row) : value :=
  match price_ratio row with
  | Ok v => v
  | Raise _ => NaN
  end.

(** A row with numbers in the four columns that the ratios read. *)
Definition numeric (row : Agg.row) : Prop :=
  exists a b c d : Q,
    Agg.Airbnb_count row = Num a /\ Agg.rental_count row = Num b /\
    Agg.Airbnb_price row = Num c /\ Agg.rental_price_average row = Num d.

(** A row with [a] on the listing side and [b] on the rental side, for the
    counts and for the prices. *)
Definition pair_row (a b : Q) : Agg.row :=
  Agg.mk "A" "1" (Num b) (Num a) (Str "0") (Num 0.0) (Num b) (Num a).

(** What [airbnb_import] returns on the example. *)
Definition scenario_airbnb_df : list (Joined.row string) :=
  [Joined.mk "A" (Num 700) "1"; Joined.mk "A" (Num 1050) "1";
   Joined.mk "A" (Num 8638) "1"; Joined.mk "B" NaN "nan"].

(** Either [if] chain of [add_ratios], on the cell [a] of the listing side
    and the cell [b] of the rental side. *)
Definition ratio_cells (a b : value) : result value :=
  if py_eq a b then Ok (Num 0)
  else
    gt ← py_gt a b;
    if (gt : bool) then
      if py_eq b (Num 0) then
        d ← py_add b (Num 1); f ← py_div (Num (-1 # 1)) d; py_mul a f
      else f ← py_div (Num (-1 # 1)) b; py_mul a f
    else
      if py_eq a (Num 0) then
        d ← py_add a (Num 1); f ← py_div (Num 1) d; py_mul b f
      else f ← py_div (Num 1) a; py_mul b f.

Definition is_str (v : value) : Prop :=
  match v with
  | Str _ => True
  | _ => False
  end.

(** A row one of whose ratios raises. *)
Definition raising (row : Agg.row) : Prop :=
  (exists e, count_ratio row = Raise e) \/ (exists e, price_ratio row = Raise e).

(** A store like [example_store] whose frame holds, in the rental price
    columns, a label that the price tables do not map. *)
Definition text_frame : AggFrame :=
  mkAggFrame
    [Agg.mk "A" "1" (Num 5) (Num 3) (Str "$500 - $599") (Str "$500 - $599")
       (Str "$500 - $599") (Num 700)]
    None None.

Definition text_store : store :=
  <[1%nat := ObjAgg text_frame]> (<[0%nat := ObjGeo scenario_sa2]> ∅).

(** The key of a row of [city_airbnb_df]. *)
Definition listing_key (r : Joined.row string) : key :=
  (Joined.SA22018__1 r, Joined.bedrooms r).

(** The rows that the left join makes for one area. *)
Definition join_block (a : SA2Geo) (dataframe : list Csv.row) : list (Joined.row bed) :=
  match List.filter (fun l => geometry a (Csv.longitude l) (Csv.latitude l)) dataframe with
  | [] => [Joined.mk (geo_SA22018__1 a) NaN BedNaN]
  | inside => map (fun l => Joined.mk (geo_SA22018__1 a) (Csv.price l) (Csv.bedrooms l)) inside
  end.

(** ** The rental table import ([dotstat_import])

    What [pd.read_excel(...).drop("Unnamed: 1", axis = 1).drop("Area", axis = 0)]
    hands to the rest of the function: the column labels as pandas reads
    them (a repeated header gets the suffix [.1], [.2], ...), and one row
    for each index label.  A cell of an NZ.Stat sheet is a whole number, or
    the text [..] that stands for a confidential value. *)

Inductive cell : Type :=
  | Count (z : Z)
  | Confidential.

Record Sheet : Type := mkSheet {
  sheet_columns : list string;
  sheet_rows : list (string * list cell)
}.

Definition COLS_PER_CATEGORY : nat := 9.

(** [s[n:]]. *)
Fixpoint drop_chars (n : nat) (s : string) : string :=
  match n, s with
  | S n', String _ s' => drop_chars n' s'
  | _, _ => s
  end.

(** [s.removesuffix(suffix)]. *)
Definition removesuffix (suffix s : string) : string :=
  let n := (String.length s - String.length suffix)%nat in
  if negb (String.eqb suffix "") && (String.length suffix <=? String.length s)%nat &&
     String.eqb (drop_chars n s) suffix
  then substring 0 n s else s.

(** The two assignments to [new_column_name]; the guard of the outer loop
    keeps [suffix_num] inside [CATEGORIES]. *)
Definition new_column_name (suffix_num : nat) (column : string) : string :=
  let new_column_name := removesuffix ("." ++ str_of_Z (Z.of_nat suffix_num)) column in
  nth suffix_num CATEGORIES "" ++ ": " ++ new_column_name.

(** [dataframe.rename(columns = {column: new}, inplace = True)]: every
    column that carries the label [column] gets the label [new]. *)
Definition rename (column new : string) (columns : list string) : list string :=
  map (fun c => if String.eqb c column then new else c) columns.

(** The variables of the renaming loops. *)
Record Loop : Type := mkLoop {
  loop_columns : list string;
  suffix_num : nat;
  col_within_category : nat;
  col_num : nat
}.

(** The body of the [for] loop. *)
Definition rename_step (st : Loop) (column : string) : Loop :=
  mkLoop (rename column (new_column_name (suffix_num st) column) (loop_columns st))
    (suffix_num st) (S (col_within_category st)) (S (col_num st)).

(** [for column in dataframe.columns[col_num:col_num + COLS_PER_CATEGORY]]:
    the slice is taken once, before the first renaming. *)
Definition rename_for (st : Loop) : Loop :=
  fold_left rename_step
    (slice (col_num st) (col_num st + COLS_PER_CATEGORY) (loop_columns st)) st.

(** [while col_within_category < COLS_PER_CATEGORY]; [None] when the fuel
    runs out before the loop ends. *)
Fixpoint inner_while (fuel : nat) (st : Loop) : option Loop :=
  match fuel with
  | O => None
  | S fuel' =>
      if (col_within_category st <? COLS_PER_CATEGORY)%nat
      then inner_while fuel' (rename_for st)
      else Some st
  end.

(** [while suffix_num < len(CATEGORIES)]. *)
Fixpoint outer_while (fuel : nat) (st : Loop) : option Loop :=
  match fuel with
  | O => None
  | S fuel' =>
      if (suffix_num st <? length CATEGORIES)%nat then
        match inner_while fuel' st with
        | Some st' =>
            outer_while fuel'
              (mkLoop (loop_columns st') (S (suffix_num st')) O (col_num st'))
        | None => None
        end
      else Some st
  end.

(** [dataframe.replace(to_replace = "..", value = NA_REPLACEMENT)] on one
    cell. *)
Definition replace_confidential (c : cell) : Z :=
  match c with
  | Count z => z
  | Confidential => 0
  end.

Definition dotstat_import (fuel : nat) (sheet : Sheet) : option RentalDf :=
  match outer_while fuel (mkLoop (sheet_columns sheet) O O O) with
  | Some st =>
      let dataframe :=
        map (fun r => (fst r, map replace_confidential (snd r))) (sheet_rows sheet) in
      let dataframe := map (fun r => (drop_chars 2 (fst r), snd r)) dataframe in
      Some (mkRentalDf (loop_columns st) (tail dataframe))
  | None => None
  end.

(** The columns after the first [j] of them have been renamed, nine to a
    category. *)
Definition renamed (j : nat) (columns : list string) : list string :=
  imap (fun i c => if (i <? j)%nat then new_column_name (i / COLS_PER_CATEGORY) c else c)
    columns.

(** The labels of a sheet of nine categories by nine bands, as pandas
    reads the repeated header. *)
Definition sheet_labels : list string :=
  flat_map (fun k =>
      map (fun b => if (k =? 0)%nat then b else (b ++ "." ++ str_of_Z (Z.of_nat k))%string)
        BANDS)
    (seq 0 9).

Definition example_sheet : Sheet :=
  mkSheet sheet_labels
    [("Total", replicate 81 Confidential);
     ("  A", replicate 80 (Count 2) ++ [Confidential])].

(** A list in the order of [leb]: every entry is below all later ones. *)
Fixpoint sorted_by {A : Type} (leb : A -> A -> bool) (l : list A) : Prop :=
  match l with
  | [] => True
  | x :: l' => Forall (fun y => leb x y = true) l' /\ sorted_by leb l'
  end.

(** The two replacements that [rental_count] makes in a column label. *)
Definition count_category (label : string) : string :=
  str_replace "Total households stated - number of" "total"
    (sub_matches re_bedrooms_total "" O label).

(** The labels of the nine count columns that [dotstat_import] builds. *)
Definition count_labels : list string :=
  map (fun category => category ++ ": Total households stated")%string CATEGORIES.

(** What one row of a block adds to the result of [assign_rental_price]:
    one row when a bucket is selected, none otherwise. *)
Definition selected_rows (labels : list string) (r : string * list Z) : list (Row value) :=
  match select_bucket (snd r) with
  | Ok (Some j) =>
      match labels !! Z.to_nat j with
      | Some label =>
          [mkRow (fst r) (bedrooms_of_label label) (Str (price_str_of_label label))]
      | None => []
      end
  | _ => []
  end.

(** Areas A and B without a household in any column. *)
Definition empty_rental : RentalDf :=
  mkRentalDf rental_columns [("A", replicate 81 0); ("B", replicate 81 0)].

(** A frame in which every row has one cell under every column. *)
Definition rectangular (df : RentalDf) : Prop :=
  Forall (fun r => length (snd r) = length (columns df)) (rows df).

(** * Properties *)

(** ** Comparisons on rationals *)

Lemma Qltb_true (x y : Q) : Qltb x y = true <-> (x < y)%Q.
Proof.
  unfold Qltb. rewrite negb_true_iff, <- not_true_iff_false, Qle_bool_iff.
  split; [apply Qnot_le_lt | apply Qlt_not_le].
Qed.

Lemma Qltb_false (x y : Q) : Qltb x y = false <-> (y <= x)%Q.
Proof.
  unfold Qltb. rewrite negb_false_iff. apply Qle_bool_iff.
Qed.

Lemma Qeq_bool_false (x y : Q) : Qeq_bool x y = false <-> ~ (x == y)%Q.
Proof.
  rewrite <- not_true_iff_false, Qeq_bool_iff. tauto.
Qed.

Lemma Qeq_bool_succ (x : Q) : Qeq_bool x 0 = true -> Qeq_bool (x + 1) 0 = false.
Proof.
  intros H. apply Qeq_bool_iff in H. apply Qeq_bool_false.
  rewrite H. discriminate.
Qed.

(** ** The ratio policy *)

(** The shape of either [if] chain of [add_ratios] on two numbers. *)
Lemma ratio_chain (a b : Q) :
  (if py_eq (Num a) (Num b) then Ok (Num 0)
   else
     gt ← py_gt (Num a) (Num b);
     if (gt : bool) then
       if py_eq (Num b) (Num 0) then
         d ← py_add (Num b) (Num 1); f ← py_div (Num (-1 # 1)) d; py_mul (Num a) f
       else f ← py_div (Num (-1 # 1)) (Num b); py_mul (Num a) f
     else
       if py_eq (Num a) (Num 0) then
         d ← py_add (Num a) (Num 1); f ← py_div (Num 1) d; py_mul (Num b) f
       else f ← py_div (Num 1) (Num a); py_mul (Num b) f)
  = Ok (Num (ratio_policy a b)).
Proof.
  unfold ratio_policy; cbn [py_eq py_gt py_add py_div py_mul mbind result_bind].
  destruct (Qeq_bool a b); [reflexivity |].
  destruct (Qltb b a).
  - destruct (Qeq_bool b 0) eqn:Hb; cbn [py_add py_div py_mul mbind result_bind].
    + rewrite (Qeq_bool_succ _ Hb). reflexivity.
    + reflexivity.
  - destruct (Qeq_bool a 0) eqn:Ha; cbn [py_add py_div py_mul mbind result_bind].
    + rewrite (Qeq_bool_succ _ Ha). reflexivity.
    + reflexivity.
Qed.

Lemma count_ratio_policy (row : Agg.row) (a b : Q) :
  Agg.Airbnb_count row = Num a -> Agg.rental_count row = Num b ->
  count_ratio row = Ok (Num (ratio_policy a b)).
Proof.
  intros Ha Hb. unfold count_ratio. rewrite Ha, Hb. apply ratio_chain.
Qed.

Lemma price_ratio_policy (row : Agg.row) (a b : Q) :
  Agg.Airbnb_price row = Num a -> Agg.rental_price_average row = Num b ->
  price_ratio row = Ok (Num (ratio_policy a b)).
Proof.
  intros Ha Hb. unfold price_ratio. rewrite Ha, Hb. apply ratio_chain.
Qed.

(** The policy on two different numbers, neither of them zero. *)
Lemma ratio_policy_above (a b : Q) :
  (b < a)%Q -> ~ (b == 0)%Q -> ratio_policy a b = (a * ((-1 # 1) / b))%Q.
Proof.
  intros Hlt Hb. unfold ratio_policy.
  assert (Qeq_bool a b = false) as ->.
  { apply Qeq_bool_false. intros E. rewrite E in Hlt. exact (Qlt_irrefl _ Hlt). }
  assert (Qltb b a = true) as -> by (apply Qltb_true; exact Hlt).
  assert (Qeq_bool b 0 = false) as -> by (apply Qeq_bool_false; exact Hb).
  reflexivity.
Qed.

Lemma ratio_policy_below (a b : Q) :
  (a < b)%Q -> ~ (a == 0)%Q -> ratio_policy a b = (b * (1 / a))%Q.
Proof.
  intros Hlt Ha. unfold ratio_policy.
  assert (Qeq_bool a b = false) as ->.
  { apply Qeq_bool_false. intros E. rewrite E in Hlt. exact (Qlt_irrefl _ Hlt). }
  assert (Qltb b a = false) as -> by (apply Qltb_false, Qlt_le_weak; exact Hlt).
  assert (Qeq_bool a 0 = false) as -> by (apply Qeq_bool_false; exact Ha).
  reflexivity.
Qed.

(** Negation passes through the quotient and the product without any
    reduction of the fraction: the two sides are the same numerator over
    the same denominator. *)
Lemma Qmult_minus_inv (a b : Q) :
  (a * ((-1 # 1) / b))%Q = (- (a * (1 / b)))%Q.
Proof.
  destruct a as [na da], b as [nb db].
  unfold Qdiv, Qinv, Qmult, Qopp; cbn [Qnum Qden].
  destruct nb; cbn [Qnum Qden]; f_equal; lia.
Qed.

Lemma ratio_policy_swap (a b : Q) :
  ~ (a == 0)%Q -> ~ (b == 0)%Q -> ~ (a == b)%Q ->
  ratio_policy a b = (- ratio_policy b a)%Q.
Proof.
  intros Ha Hb Hab.
  destruct (Q_dec a b) as [[Hlt | Hgt] | Heq]; [| | contradiction].
  - rewrite (ratio_policy_below a b Hlt Ha), (ratio_policy_above b a Hlt Ha).
    rewrite Qmult_minus_inv.
    destruct (b * (1 / a))%Q as [n d]. unfold Qopp; cbn [Qnum Qden].
    f_equal. lia.
  - rewrite (ratio_policy_above a b Hgt Hb), (ratio_policy_below b a Hgt Hb).
    apply Qmult_minus_inv.
Qed.

(** ** The weighted-median walk *)

Lemma sum_Z_app (l1 l2 : list Z) : sum_Z (l1 ++ l2) = sum_Z l1 + sum_Z l2.
Proof.
  induction l1 as [| x l1 IH]; cbn; [reflexivity |].
  fold (sum_Z (l1 ++ l2)) (sum_Z l1). lia.
Qed.

Lemma sum_Z_cons (x : Z) (l : list Z) : sum_Z (x :: l) = x + sum_Z l.
Proof. reflexivity. Qed.

Lemma sum_Z_nil : sum_Z [] = 0.
Proof. reflexivity. Qed.

Lemma sum_Z_nonneg (l : list Z) : Forall (fun c => 0 <= c) l -> 0 <= sum_Z l.
Proof.
  induction 1 as [| x l Hx _ IH]; [reflexivity |].
  rewrite sum_Z_cons. cbn beta in Hx. lia.
Qed.

(** *** [int64] sums *)

Lemma wrap64_range (z : Z) : - 2 ^ 63 <= wrap64 z < 2 ^ 63.
Proof. unfold wrap64. pose proof (Z.mod_pos_bound (z + 2 ^ 63) (2 ^ 64)). lia. Qed.

Lemma wrap64_small (z : Z) : - 2 ^ 63 <= z < 2 ^ 63 -> wrap64 z = z.
Proof. intros H. unfold wrap64. rewrite Z.mod_small; lia. Qed.

Lemma wrap64_add_l (x y : Z) : wrap64 (wrap64 x + y) = wrap64 (x + y).
Proof.
  unfold wrap64. f_equal.
  replace ((x + 2 ^ 63) mod 2 ^ 64 - 2 ^ 63 + y + 2 ^ 63)
    with ((x + 2 ^ 63) mod 2 ^ 64 + y) by lia.
  rewrite Z.add_mod_idemp_l by lia. f_equal. lia.
Qed.

(** The running sum, started at an [int64]: the exact sum modulo [2 ^ 64]. *)
Lemma int64_sum_from (row : list Z) (c : Z) :
  fold_left int64_add row (wrap64 c) = wrap64 (c + sum_Z row).
Proof.
  revert c. induction row as [| x row IH]; intros c; cbn [fold_left].
  - now rewrite sum_Z_nil, Z.add_0_r.
  - unfold int64_add at 2. rewrite wrap64_add_l, IH, sum_Z_cons. f_equal. lia.
Qed.

Lemma int64_sum_wrap (row : list Z) : int64_sum row = wrap64 (sum_Z row).
Proof. exact (int64_sum_from row 0). Qed.

Lemma sum_Z_take_le (row : list Z) (k : nat) :
  Forall (fun c => 0 <= c) row -> 0 <= sum_Z (take k row) <= sum_Z row.
Proof.
  intros H. revert k. induction H as [| x row Hx _ IH]; intros [| k]; cbn [take];
    rewrite ?sum_Z_nil, ?sum_Z_cons; try lia.
  - pose proof (IH O) as H0. rewrite take_0, sum_Z_nil in H0. cbn beta in Hx. lia.
  - specialize (IH k). cbn beta in Hx. lia.
Qed.

(** Counts that are not negative and whose sum is an [int64]: no running
    sum wraps around. *)
Lemma int64_sum_exact (row : list Z) (k : nat) :
  Forall (fun c => 0 <= c) row -> sum_Z row < 2 ^ 63 ->
  int64_sum (take k row) = sum_Z (take k row).
Proof.
  intros Hrow Hsum. rewrite int64_sum_wrap. apply wrap64_small.
  pose proof (sum_Z_take_le row k Hrow). lia.
Qed.

(** *** Rounding *)

(** [nearest64] and the binary64 of the Standard Library give the same
    number: on quotients that are not [float64] (a third, a tenth, a
    seventh), on integers of more than 53 binary digits, halfway cases
    among them, and at the bottom of the range, where the numbers have
    fewer digits. *)
Lemma nearest64_SpecFloat :
  forallb agrees_on_quotient
    [(1, 10); (1, 3); (2, 3); (7, 10); (1, 7); (22, 7); (-1, 3); (-7, 10);
     (123456789, 1000); (5, 9); (1, 9007199254740991); (9007199254740991, 3);
     (123400, 100); (1, 349); (699, 2)] = true /\
  forallb agrees_on_scaled
    [(0, 0); (1, 0); (-1, 0); (5, 0); (2 ^ 53, 0); (2 ^ 53 + 1, 0); (2 ^ 53 + 2, 0);
     (2 ^ 53 + 3, 0); (- (2 ^ 53 + 1), 0); (2 ^ 62, 0); (2 ^ 62 + 2 ^ 9, 0);
     (2 ^ 62 + 2 ^ 9 + 1, 0); (2 ^ 63 - 1, 0); (- 2 ^ 63, 0); (2 ^ 63 - 513, 0);
     (2 ^ 63 - 512, 0); (2 ^ 63 - 511, 0); (123456789012345678, 0);
     (1, -1074); (1, -1075); (3, -1075); (1, -1076); (5, -1075); (7, -1075);
     (2 ^ 53 - 1, -1075); (2 ^ 53 + 1, -1074); (2 ^ 53 - 1, 970); (3, 500); (5, -600)]
    = true.
Proof. split; vm_compute; reflexivity. Qed.

(** *** The [float64] of an [int64] *)

Lemma div_half_even_ge (x y : Z) : x / y <= div_half_even x y.
Proof.
  unfold div_half_even. destruct (2 * (x mod y) ?= y); [destruct (Z.even _) | |]; lia.
Qed.

Lemma floor_log2_int (n : Z) : 0 < n -> floor_log2 n 1 = Z.log2 n.
Proof.
  intros Hn. unfold floor_log2. change (Z.log2 1) with 0. rewrite Z.sub_0_r.
  pose proof (Z.log2_nonneg n) as Hl. pose proof (Z.log2_spec n Hn) as [Hlo _].
  rewrite (proj2 (Z.leb_le 0 _) Hl), Z.mul_1_l. now rewrite (proj2 (Z.leb_le _ _) Hlo).
Qed.

Lemma scale_pos (m e : Z) : 0 < m -> (0 < scale m e)%Q.
Proof.
  intros Hm. unfold scale. destruct (0 <=? e) eqn:E.
  - apply Z.leb_le in E. unfold Qlt, inject_Z; cbn [Qnum Qden].
    pose proof (Z.pow_pos_nonneg 2 e). nia.
  - unfold Qlt; cbn [Qnum Qden]. lia.
Qed.

Lemma nearest_pos_int (n : Z) :
  0 < n -> 0 < fst (nearest_pos n 1).
Proof.
  intros Hn. unfold nearest_pos. rewrite (floor_log2_int n Hn).
  pose proof (Z.log2_nonneg n) as Hl. pose proof (Z.log2_spec n Hn) as [Hlo _].
  rewrite Z.max_l by lia. cbn [fst].
  destruct (0 <=? Z.log2 n - 52) eqn:E.
  - apply Z.leb_le in E. rewrite Z.mul_1_l.
    pose proof (div_half_even_ge n (2 ^ (Z.log2 n - 52))) as Hge.
    assert (2 ^ 52 <= n / 2 ^ (Z.log2 n - 52)); [| lia].
    apply Z.div_le_lower_bound; [apply Z.pow_pos_nonneg; lia |].
    rewrite <- Z.pow_add_r by lia. now replace (Z.log2 n - 52 + 52) with (Z.log2 n) by lia.
  - apply Z.leb_gt in E.
    pose proof (div_half_even_ge (n * 2 ^ (- (Z.log2 n - 52))) 1) as Hge.
    rewrite Z.div_1_r in Hge.
    pose proof (Z.pow_pos_nonneg 2 (- (Z.log2 n - 52))). nia.
Qed.

Lemma nearest64_opp (q : Q) : nearest64 (- q) = (- nearest64 q)%Q.
Proof.
  destruct q as [[| n | n] d]; [reflexivity | |].
  - change (- (Z.pos n # d))%Q with (Z.neg n # d). unfold nearest64; cbn [Qnum Qden].
    now destruct (nearest_pos (Z.pos n) (Z.pos d)).
  - change (- (Z.neg n # d))%Q with (Z.pos n # d). unfold nearest64; cbn [Qnum Qden].
    destruct (nearest_pos (Z.pos n) (Z.pos d)) as [m e].
    destruct (scale m e) as [x y]. unfold Qopp; cbn [Qnum Qden].
    now rewrite Z.opp_involutive.
Qed.

Lemma float_of_int64_0 : float_of_int64 0 = 0%Q.
Proof. reflexivity. Qed.

Lemma float_of_int64_opp (z : Z) : float_of_int64 (- z) = (- float_of_int64 z)%Q.
Proof.
  unfold float_of_int64. rewrite <- nearest64_opp. reflexivity.
Qed.

Lemma float_of_int64_pos (z : Z) : 0 < z -> (0 < float_of_int64 z)%Q.
Proof.
  intros Hz. destruct z as [| n | n]; try lia.
  unfold float_of_int64, nearest64, inject_Z; cbn [Qnum Qden].
  pose proof (nearest_pos_int (Z.pos n) Hz) as Hm.
  destruct (nearest_pos (Z.pos n) 1) as [m e]. now apply scale_pos.
Qed.

Lemma float_of_int64_neg (z : Z) : z < 0 -> (float_of_int64 z < 0)%Q.
Proof.
  intros Hz. replace z with (- - z) by lia. rewrite float_of_int64_opp.
  pose proof (float_of_int64_pos (- z) ltac:(lia)) as H.
  unfold Qlt, Qopp in *; cbn [Qnum Qden] in *. lia.
Qed.

Lemma float_of_int64_nonpos (z : Z) : z <= 0 -> (float_of_int64 z <= 0)%Q.
Proof.
  intros Hz. destruct (Z.eq_dec z 0) as [-> | Hne]; [now rewrite float_of_int64_0 |].
  apply Qlt_le_weak, float_of_int64_neg. lia.
Qed.

(** An integer of at most 53 binary digits is its own [float64]. *)
Lemma float_of_int64_exact (z : Z) :
  - 2 ^ 53 <= z <= 2 ^ 53 -> (float_of_int64 z == inject_Z z)%Q.
Proof.
  assert (forall n, 0 < n <= 2 ^ 53 -> (float_of_int64 n == inject_Z n)%Q) as Hpos.
  { intros n [Hn Hle].
    destruct (Z.eq_dec n (2 ^ 53)) as [-> | Hne]; [reflexivity |].
    destruct n as [| p | p]; try lia.
    unfold float_of_int64, nearest64, inject_Z; cbn [Qnum Qden].
    unfold nearest_pos. rewrite (floor_log2_int (Z.pos p) Hn).
    pose proof (Z.log2_nonneg (Z.pos p)) as Hl.
    assert (Z.log2 (Z.pos p) < 53) as Hlt by (apply Z.log2_lt_pow2; lia).
    rewrite Z.max_l by lia.
    unfold div_half_even, scale.
    destruct (0 <=? Z.log2 (Z.pos p) - 52) eqn:E.
    - apply Z.leb_le in E. replace (Z.log2 (Z.pos p) - 52) with 0 by lia.
      change (1 * 2 ^ 0) with 1. rewrite Z.mod_1_r, Z.div_1_r.
      change (2 * 0 ?= 1) with Lt. cbv iota.
      unfold Qeq, inject_Z; cbn [Qnum Qden]. change (2 ^ 0) with 1. lia.
    - apply Z.leb_gt in E. rewrite Z.mod_1_r, Z.div_1_r.
      change (2 * 0 ?= 1) with Lt. cbv iota.
      unfold Qeq; cbn [Qnum Qden]. rewrite Pos2Z.inj_pow, Z2Pos.id by lia. lia. }
  intros [Hlo Hhi]. destruct (Z_dec z 0) as [[Hneg | Hgt] | ->].
  - replace z with (- - z) by lia. rewrite float_of_int64_opp, (Hpos (- z)) by lia.
    unfold Qeq, Qopp, inject_Z; cbn [Qnum Qden]. lia.
  - apply Hpos. lia.
  - reflexivity.
Qed.

(** *** The walk *)

Lemma half_not_below (x : Q) : (0 < x)%Q -> ~ (x < x * 0.5)%Q.
Proof.
  destruct x as [n d]. unfold Qlt, Qmult; cbn [Qnum Qden]. intros H. nia.
Qed.

Lemma half_nonpos (x : Q) : (x <= 0)%Q -> ~ (0 < x * 0.5)%Q.
Proof.
  destruct x as [n d]. unfold Qlt, Qle, Qmult; cbn [Qnum Qden]. intros H. nia.
Qed.

Lemma half_pos (x : Q) : (0 < x)%Q -> (0 < x * 0.5)%Q.
Proof.
  destruct x as [n d]. unfold Qlt, Qmult; cbn [Qnum Qden]. intros H. nia.
Qed.

(** The walk from position [i] with running sum [c], when the running sum
    over the whole row reaches the target: it stops after [k] more buckets,
    inside the row, at the first running sum that is not below the target. *)
Lemma walk_stops (m : Q) (rest : list Z) :
  forall (i : nat) (c : Z),
    ~ (float_of_int64 (fold_left int64_add rest c) < m)%Q ->
    exists k : nat,
      walk m rest i c = Stopped (i + k) (fold_left int64_add (take k rest) c) /\
      (k <= length rest)%nat /\
      ~ (float_of_int64 (fold_left int64_add (take k rest) c) < m)%Q /\
      forall j : nat, (j < k)%nat ->
        (float_of_int64 (fold_left int64_add (take j rest) c) < m)%Q.
Proof.
  induction rest as [| x rest IH]; intros i c Hend.
  - exists O. cbn [walk take fold_left length] in *.
    destruct (Qltb (float_of_int64 c) m) eqn:E.
    + apply Qltb_true in E. contradiction.
    + rewrite Nat.add_0_r. repeat split; [lia | exact Hend | intros j Hj; lia].
  - cbn [walk]. destruct (Qltb (float_of_int64 c) m) eqn:E.
    + destruct (IH (S i) (int64_add c x)) as (k & Hw & Hk & Hge & Hlt); [exact Hend |].
      exists (S k). cbn [take length fold_left].
      rewrite Hw. replace (S i + k)%nat with (i + S k)%nat by lia.
      repeat split; [lia | exact Hge |].
      intros [| j] Hj.
      * cbn [take fold_left]. now apply Qltb_true.
      * cbn [take fold_left]. apply Hlt. lia.
    + exists O. cbn [take fold_left]. rewrite Nat.add_0_r.
      repeat split; [lia | | intros j Hj; lia].
      apply Qltb_false in E. now apply Qle_not_lt.
Qed.

(** The walk over a whole row never leaves it, whatever the counts. *)
Lemma walk_row (row : list Z) :
  exists k : nat,
    walk (float_of_int64 (int64_sum row) * 0.5) row O 0 =
      Stopped k (int64_sum (take k row)) /\
    (k <= length row)%nat /\
    ~ (float_of_int64 (int64_sum (take k row)) < float_of_int64 (int64_sum row) * 0.5)%Q /\
    forall j : nat, (j < k)%nat ->
      (float_of_int64 (int64_sum (take j row)) < float_of_int64 (int64_sum row) * 0.5)%Q.
Proof.
  destruct (Z_lt_le_dec 0 (int64_sum row)) as [Hpos | Hle].
  - apply (walk_stops _ row O 0).
    apply half_not_below, float_of_int64_pos, Hpos.
  - exists O. pose proof (half_nonpos _ (float_of_int64_nonpos _ Hle)) as Hm.
    rewrite take_0. change (int64_sum []) with 0.
    assert (Qltb (float_of_int64 0) (float_of_int64 (int64_sum row) * 0.5) = false) as E.
    { apply not_true_iff_false. intros E. apply Qltb_true in E. now apply Hm. }
    repeat split; [| lia | exact Hm | intros j Hj; lia].
    destruct row; cbn [walk]; now rewrite E.
Qed.

(** A total that is not positive: the loop body is never entered. *)
Lemma select_bucket_zero (row : list Z) :
  int64_sum row <= 0 ->
  walk (float_of_int64 (int64_sum row) * 0.5) row O 0 = Stopped O 0 /\
  select_bucket row = Ok None.
Proof.
  intros Hle. pose proof (half_nonpos _ (float_of_int64_nonpos _ Hle)) as Hm.
  assert (walk (float_of_int64 (int64_sum row) * 0.5) row O 0 = Stopped O 0) as Hw.
  { assert (Qltb (float_of_int64 0) (float_of_int64 (int64_sum row) * 0.5) = false) as E
      by (apply not_true_iff_false; intros E; apply Qltb_true in E; now apply Hm).
    destruct row; cbn [walk]; now rewrite E. }
  split; [exact Hw |]. unfold select_bucket. now rewrite Hw.
Qed.

Lemma select_bucket_positive (row : list Z) :
  0 < int64_sum row ->
  exists k : nat,
    walk (float_of_int64 (int64_sum row) * 0.5) row O 0 =
      Stopped (S k) (int64_sum (take (S k) row)) /\
    select_bucket row = Ok (Some (Z.of_nat k)) /\
    (k < length row)%nat /\
    (float_of_int64 (int64_sum row) * 0.5 <=
       float_of_int64 (int64_sum (take (S k) row)))%Q /\
    forall j : nat, (j < S k)%nat ->
      (float_of_int64 (int64_sum (take j row)) < float_of_int64 (int64_sum row) * 0.5)%Q.
Proof.
  intros Hpos. destruct (walk_row row) as (k & Hw & Hk & Hge & Hlt).
  pose proof (half_pos _ (float_of_int64_pos _ Hpos)) as Hm.
  destruct k as [| k].
  { exfalso. apply Hge. rewrite take_0. exact Hm. }
  exists k. split; [exact Hw |]. split; [| split; [lia | split]].
  - unfold select_bucket. rewrite Hw.
    assert (int64_sum (take (S k) row) <> 0) as Hne.
    { intros E. apply Hge. rewrite E. exact Hm. }
    apply Z.eqb_neq in Hne. rewrite Hne. cbn [negb]. do 2 f_equal. lia.
  - apply Qnot_lt_le. exact Hge.
  - exact Hlt.
Qed.

(** ** The ratio in binary64 *)

Lemma floor_log2_lower (n d : Z) :
  0 < n -> 0 < d ->
  (0 <= floor_log2 n d -> d * 2 ^ floor_log2 n d <= n) /\
  (floor_log2 n d < 0 -> d <= n * 2 ^ (- floor_log2 n d)).
Proof.
  intros Hn Hd. unfold floor_log2.
  pose proof (Z.log2_spec n Hn) as [Hn1 Hn2].
  pose proof (Z.log2_spec d Hd) as [Hd1 Hd2].
  pose proof (Z.log2_nonneg n) as Hln. pose proof (Z.log2_nonneg d) as Hld.
  set (l := Z.log2 n - Z.log2 d) in *.
  destruct (0 <=? l) eqn:El.
  - apply Z.leb_le in El. destruct (d * 2 ^ l <=? n) eqn:E.
    + apply Z.leb_le in E. split; [auto | lia].
    + apply Z.leb_gt in E. split; intros H.
      * (* d * 2^(l-1) <= n *)
        assert (d * 2 ^ (l - 1) < 2 ^ Z.succ (Z.log2 d) * 2 ^ (l - 1)) as H1.
        { apply Z.mul_lt_mono_pos_r; [apply Z.pow_pos_nonneg; lia | exact Hd2]. }
        rewrite <- Z.pow_add_r in H1 by lia.
        replace (Z.succ (Z.log2 d) + (l - 1)) with (Z.log2 n) in H1 by lia. lia.
      * assert (l = 0) as Hl0 by lia. rewrite Hl0 in *. change (- (0 - 1)) with 1.
        assert (Z.log2 d = Z.log2 n) as Hdn by lia.
        rewrite Z.pow_succ_r, Hdn in Hd2 by lia. change (2 ^ 1) with 2. lia.
  - apply Z.leb_gt in El. destruct (d <=? n * 2 ^ (- l)) eqn:E.
    + apply Z.leb_le in E. split; [lia | auto].
    + split; intros H; [lia |].
      assert (2 ^ Z.log2 n * 2 ^ (- (l - 1)) <= n * 2 ^ (- (l - 1))) as H1.
      { apply Z.mul_le_mono_nonneg_r; [apply Z.pow_nonneg; lia | exact Hn1]. }
      rewrite <- Z.pow_add_r in H1 by lia.
      replace (Z.log2 n + - (l - 1)) with (Z.succ (Z.log2 d)) in H1 by lia. lia.
Qed.

(** At least half of a quotient that is at least 1 is in its integer part. *)
Lemma div_half_even_half (x y : Z) :
  0 < y -> y <= x -> x <= 2 * y * div_half_even x y.
Proof.
  intros Hy Hxy. pose proof (div_half_even_ge x y) as Hge.
  pose proof (Z.div_mod x y ltac:(lia)) as Hdm.
  pose proof (Z.mod_pos_bound x y Hy) as Hr.
  assert (1 <= x / y) as H1 by (apply Z.div_le_lower_bound; lia).
  nia.
Qed.

(** Rounding loses at most half of a positive number that is not below the
    least positive [float64]. *)
Lemma nearest64_half (q : Q) :
  (1 # 2 ^ 1074 <= q)%Q -> (q * (1 # 2) <= nearest64 q)%Q.
Proof.
  intros Hq. destruct q as [[| n | n] d].
  - unfold Qle in Hq; cbn [Qnum Qden] in Hq. lia.
  - unfold nearest64; cbn [Qnum Qden]. unfold nearest_pos.
    destruct (floor_log2_lower (Z.pos n) (Z.pos d) ltac:(lia) ltac:(lia)) as [Hlo1 Hlo2].
    set (fl := floor_log2 (Z.pos n) (Z.pos d)) in *.
    set (e := Z.max (fl - 52) (-1074)).
    assert (Z.pos d <= Z.pos n * 2 ^ 1074) as Hsub.
    { unfold Qle in Hq; cbn [Qnum Qden] in Hq. rewrite Pos2Z.inj_pow in Hq. lia. }
    destruct (0 <=? e) eqn:E.
    + apply Z.leb_le in E. unfold scale. rewrite (proj2 (Z.leb_le 0 e) E).
      assert (e = fl - 52) as He by lia.
      assert (0 < 2 ^ e) as Hpe by (apply Z.pow_pos_nonneg; lia).
      assert (Z.pos d * 2 ^ e <= Z.pos n) as Hge.
      { specialize (Hlo1 ltac:(lia)).
        assert (2 ^ e <= 2 ^ fl) by (apply Z.pow_le_mono_r; lia). nia. }
      pose proof (div_half_even_half (Z.pos n) (Z.pos d * 2 ^ e) ltac:(lia) Hge) as Hh.
      unfold Qle, Qmult, inject_Z; cbn [Qnum Qden]. nia.
    + apply Z.leb_gt in E. unfold scale. rewrite (proj2 (Z.leb_gt 0 e) E).
      assert (0 < 2 ^ (- e)) as Hpe by (apply Z.pow_pos_nonneg; lia).
      assert (Z.pos d <= Z.pos n * 2 ^ (- e)) as Hge.
      { destruct (Z.max_spec (fl - 52) (-1074)) as [[Hlt Hm] | [Hle Hm]]; fold e in Hm.
        - rewrite Hm. exact Hsub.
        - destruct (Z_lt_le_dec fl 0) as [Hneg | Hpos].
          + specialize (Hlo2 Hneg). rewrite Hm.
            replace (- (fl - 52)) with (- fl + 52) by lia.
            rewrite Z.pow_add_r by lia. nia.
          + specialize (Hlo1 Hpos). rewrite Hm.
            assert (0 < 2 ^ fl) by (apply Z.pow_pos_nonneg; lia).
            assert (2 ^ fl * 2 ^ (- (fl - 52)) = 2 ^ 52) as Hp.
            { rewrite <- Z.pow_add_r by lia. f_equal. lia. }
            nia. }
      pose proof (div_half_even_half (Z.pos n * 2 ^ (- e)) (Z.pos d) ltac:(lia) Hge) as Hh.
      unfold Qle, Qmult; cbn [Qnum Qden].
      rewrite Pos2Z.inj_pow, Z2Pos.id by lia. nia.
  - unfold Qle in Hq; cbn [Qnum Qden] in Hq. lia.
Qed.

Lemma Qle_bool_opp_l (t : Z) (x : Q) :
  Qle_bool (inject_Z t) (- x) = Qle_bool x (inject_Z (- t)).
Proof.
  destruct x as [n d]. unfold Qle_bool, Qopp, inject_Z; cbn [Qnum Qden].
  destruct (Z.leb_spec (t * Z.pos d) (- n * 1)), (Z.leb_spec (n * 1) (- t * Z.pos d));
    try reflexivity; lia.
Qed.

Lemma Qle_bool_opp_r (t : Z) (x : Q) :
  Qle_bool (- x) (inject_Z (- t)) = Qle_bool (inject_Z t) x.
Proof.
  destruct x as [n d]. unfold Qle_bool, Qopp, inject_Z; cbn [Qnum Qden].
  destruct (Z.leb_spec (- n * 1) (- t * Z.pos d)), (Z.leb_spec (t * Z.pos d) (n * 1));
    try reflexivity; lia.
Qed.

(** Rounding commutes with negation: the [float64] numbers are symmetric
    about zero, and so is the rule for a result halfway between two. *)
Lemma round64_opp (q : Q) : round64 (- q) = value_opp (round64 q).
Proof.
  unfold round64. rewrite nearest64_opp. cbv zeta.
  rewrite Qle_bool_opp_l, Qle_bool_opp_r.
  destruct (Qle_bool (inject_Z (2 ^ 1024)) (nearest64 q)) eqn:E1,
           (Qle_bool (nearest64 q) (inject_Z (- 2 ^ 1024))) eqn:E2; cbn [value_opp negb].
  - apply Qle_bool_iff in E1, E2. pose proof (Qle_trans _ _ _ E1 E2) as H.
    unfold Qle, inject_Z in H; cbn [Qnum Qden] in H.
    pose proof (Z.pow_pos_nonneg 2 1024). lia.
  - reflexivity.
  - reflexivity.
  - now rewrite Qred_opp.
Qed.

Lemma to_float_opp (v : value) : to_float (value_opp v) = value_opp (to_float v).
Proof. destruct v; cbn [to_float value_opp]; [apply round64_opp | reflexivity ..]. Qed.

Lemma Qmult_opp_r_eq (x y : Q) : (x * - y)%Q = (- (x * y))%Q.
Proof.
  destruct x as [a b], y as [c d]. unfold Qmult, Qopp; cbn [Qnum Qden]. f_equal. lia.
Qed.

Lemma Qeq_bool_opp_0 (y : Q) : Qeq_bool (- y) 0 = Qeq_bool y 0.
Proof.
  destruct y as [n d]. unfold Qeq_bool, Qopp; cbn [Qnum Qden].
  destruct (Z.eqb_spec (- n * 1) (0 * Z.pos d)), (Z.eqb_spec (n * 1) (0 * Z.pos d));
    try reflexivity; lia.
Qed.

Lemma Qltb_opp_0 (y : Q) : Qeq_bool y 0 = false -> Qltb (- y) 0 = negb (Qltb y 0).
Proof.
  destruct y as [n d]. unfold Qltb, Qeq_bool, Qle_bool, Qopp; cbn [Qnum Qden].
  intros H. apply Z.eqb_neq in H.
  destruct (Z.leb_spec (0 * Z.pos d) (- n * 1)) as [H1 | H1],
           (Z.leb_spec (0 * Z.pos d) (n * 1)) as [H2 | H2];
    cbn [negb]; try reflexivity; exfalso;
    rewrite ?Z.mul_1_r, ?Z.mul_0_l in *; lia.
Qed.

Lemma py_mul_opp_r (u w : value) : py_mul u (value_opp w) = value_opp <$> py_mul u w.
Proof.
  destruct u as [x | | s | i], w as [y | | t | j];
    cbn [py_mul value_opp fmap result_fmap]; try reflexivity.
  - now rewrite Qmult_opp_r_eq.
  - destruct (Qeq_bool x 0); [reflexivity |]. cbn [value_opp].
    now destruct j, (Qltb x 0).
  - rewrite Qeq_bool_opp_0. destruct (Qeq_bool y 0) eqn:E; [reflexivity |].
    rewrite (Qltb_opp_0 y E). cbn [value_opp]. now destruct i, (Qltb y 0).
  - now destruct i, j.
Qed.

Lemma fmap_fmap_result {A B C : Type} (f : A -> B) (g : B -> C) (m : result A) :
  g <$> (f <$> m) = (fun a => g (f a)) <$> m.
Proof. now destruct m. Qed.

Lemma float_mul_opp_r (a f : value) :
  float_mul a (value_opp f) = value_opp <$> float_mul a f.
Proof.
  unfold float_mul. rewrite to_float_opp, py_mul_opp_r, !fmap_fmap_result.
  destruct (py_mul (to_float a) (to_float f)) as [v |]; cbn [fmap result_fmap];
    [now rewrite to_float_opp | reflexivity].
Qed.

Lemma float_div_opp_l (d : value) :
  float_div (Num (-1 # 1)) d = value_opp <$> float_div (Num 1) d.
Proof.
  unfold float_div. destruct d as [b | | s | j]; cbn [py_div fmap result_fmap];
    try reflexivity.
  destruct (Qeq_bool b 0); cbn [fmap result_fmap to_float]; [reflexivity |].
  rewrite <- round64_opp. do 2 f_equal.
  destruct b as [n d]. unfold Qdiv, Qinv, Qmult, Qopp; cbn [Qnum Qden].
  destruct n; cbn [Qnum Qden]; f_equal; lia.
Qed.

Lemma value_opp_involutive (v : value) : value_opp (value_opp v) = v.
Proof.
  destruct v as [[n d] | | s | i]; cbn [value_opp]; try reflexivity.
  - unfold Qopp; cbn [Qnum Qden]. now rewrite Z.opp_involutive.
  - now rewrite negb_involutive.
Qed.

(** The chain on two different numbers, neither of them zero. *)
Lemma ratio_float64_above (a b : Q) :
  (b < a)%Q -> ~ (b == 0)%Q ->
  ratio_float64 (Num a) (Num b) = (f ← float_div (Num (-1 # 1)) (Num b); float_mul (Num a) f).
Proof.
  intros Hlt Hb. unfold ratio_float64. cbn [py_eq py_gt mbind result_bind].
  assert (Qeq_bool a b = false) as ->.
  { apply Qeq_bool_false. intros E. rewrite E in Hlt. exact (Qlt_irrefl _ Hlt). }
  assert (Qltb b a = true) as -> by (apply Qltb_true; exact Hlt).
  assert (Qeq_bool b 0 = false) as -> by (apply Qeq_bool_false; exact Hb).
  reflexivity.
Qed.

Lemma ratio_float64_below (a b : Q) :
  (a < b)%Q -> ~ (a == 0)%Q ->
  ratio_float64 (Num a) (Num b) = (f ← float_div (Num 1) (Num a); float_mul (Num b) f).
Proof.
  intros Hlt Ha. unfold ratio_float64. cbn [py_eq py_gt mbind result_bind].
  assert (Qeq_bool a b = false) as ->.
  { apply Qeq_bool_false. intros E. rewrite E in Hlt. exact (Qlt_irrefl _ Hlt). }
  assert (Qltb b a = false) as -> by (apply Qltb_false, Qlt_le_weak; exact Hlt).
  assert (Qeq_bool a 0 = false) as -> by (apply Qeq_bool_false; exact Ha).
  reflexivity.
Qed.

Lemma round64_not_str (q : Q) : ~ is_str (round64 q).
Proof. unfold round64. cbv zeta. repeat destruct (Qle_bool _ _); exact id. Qed.

Lemma to_float_not_str (v : value) : ~ is_str v -> ~ is_str (to_float v).
Proof. destruct v; cbn [to_float]; [intros _; apply round64_not_str | auto ..]. Qed.

Lemma py_mul_returns (u w : value) :
  ~ is_str u -> ~ is_str w -> exists v, py_mul u w = Ok v /\ ~ is_str v.
Proof.
  destruct u as [x | | s | i], w as [y | | t | j]; cbn [is_str py_mul]; intros Hu Hw;
    try tauto; eexists; (split; [reflexivity |]); try exact id.
  - destruct (Qeq_bool x 0); exact id.
  - destruct (Qeq_bool y 0); exact id.
Qed.

Lemma float_mul_returns (u w : value) :
  ~ is_str u -> ~ is_str w -> exists v, float_mul u w = Ok v /\ ~ is_str v.
Proof.
  intros Hu Hw. unfold float_mul.
  destruct (py_mul_returns (to_float u) (to_float w)) as (v & -> & Hv);
    [now apply to_float_not_str .. |].
  exists (to_float v). split; [reflexivity | now apply to_float_not_str].
Qed.

(** The quotient and the product of the chain on a number and a non-zero
    number raise nothing. *)
Lemma float_chain_returns (c a b : Q) :
  ~ (b == 0)%Q ->
  exists v, (f ← float_div (Num c) (Num b); float_mul (Num a) f) = Ok v.
Proof.
  intros Hb. unfold float_div. cbn [py_div].
  rewrite (proj2 (Qeq_bool_false _ _) Hb). cbn [fmap result_fmap mbind result_bind to_float].
  destruct (float_mul_returns (Num a) (round64 (c / b)) id (round64_not_str _)) as (v & Hv & _).
  eauto.
Qed.

Lemma ratio_float64_swap (a b : Q) :
  ~ (a == 0)%Q -> ~ (b == 0)%Q -> ~ (a == b)%Q ->
  exists v : value,
    ratio_float64 (Num a) (Num b) = Ok v /\
    ratio_float64 (Num b) (Num a) = Ok (value_opp v).
Proof.
  intros Ha Hb Hab.
  destruct (Q_dec a b) as [[Hlt | Hgt] | Heq]; [| | contradiction].
  - rewrite (ratio_float64_below a b Hlt Ha), (ratio_float64_above b a Hlt Ha).
    destruct (float_chain_returns 1 b a Ha) as (v & Hv). exists v. split; [exact Hv |].
    rewrite float_div_opp_l.
    destruct (float_div (Num 1) (Num a)) as [f |]; cbn [fmap result_fmap mbind result_bind] in *;
      [| discriminate].
    rewrite float_mul_opp_r, Hv. reflexivity.
  - rewrite (ratio_float64_above a b Hgt Hb), (ratio_float64_below b a Hgt Hb).
    destruct (float_chain_returns 1 a b Hb) as (w & Hw). exists (value_opp w).
    rewrite value_opp_involutive. split; [| exact Hw].
    rewrite float_div_opp_l.
    destruct (float_div (Num 1) (Num b)) as [f |]; cbn [fmap result_fmap mbind result_bind] in *;
      [| discriminate].
    rewrite float_mul_opp_r, Hw. reflexivity.
Qed.

Lemma at_least_positive (c : Q) (v : value) : (0 < c)%Q -> at_least c v -> is_positive v.
Proof.
  destruct v; cbn [at_least is_positive]; try tauto.
  intros Hc Hq. exact (Qlt_le_trans _ _ _ Hc Hq).
Qed.

Lemma least_float_pos : (0 < 1 # 2 ^ 1074)%Q.
Proof. reflexivity. Qed.

Lemma round64_at_least (q c : Q) :
  (1 # 2 ^ 1074 <= q)%Q -> (c <= q * (1 # 2))%Q -> at_least c (round64 q).
Proof.
  intros Hq Hc. pose proof (nearest64_half q Hq) as Hh.
  assert (0 < nearest64 q)%Q as Hpos.
  { apply (Qlt_le_trans _ (q * (1 # 2))); [| exact Hh].
    apply Qmult_lt_0_compat; [| reflexivity].
    exact (Qlt_le_trans _ _ _ least_float_pos Hq). }
  unfold round64. cbv zeta.
  destruct (Qle_bool (inject_Z (2 ^ 1024)) (nearest64 q)); [reflexivity |].
  destruct (Qle_bool (nearest64 q) (inject_Z (- 2 ^ 1024))) eqn:E.
  - apply Qle_bool_iff in E. exfalso.
    apply (Qlt_irrefl 0). apply (Qlt_le_trans _ _ _ Hpos). apply (Qle_trans _ _ _ E).
    unfold Qle, inject_Z; cbn [Qnum Qden]. pose proof (Z.pow_pos_nonneg 2 1024). lia.
  - cbn [at_least]. rewrite Qred_correct. exact (Qle_trans _ _ _ Hc Hh).
Qed.

Lemma to_float_at_least (c : Q) (v : value) :
  (1 # 2 ^ 1074 <= c)%Q -> at_least c v -> at_least (c * (1 # 2)) (to_float v).
Proof.
  intros Hc. destruct v as [q | | s | i]; cbn [at_least to_float]; try tauto.
  intros Hq. apply round64_at_least; [exact (Qle_trans _ _ _ Hc Hq) |].
  apply Qmult_le_compat_r; [exact Hq | discriminate].
Qed.

Lemma py_mul_at_least (c1 c2 : Q) (u w : value) :
  (0 < c1)%Q -> (0 < c2)%Q -> at_least c1 u -> at_least c2 w ->
  exists v, py_mul u w = Ok v /\ at_least (c1 * c2) v.
Proof.
  intros H1 H2.
  assert (forall c y, (0 < c)%Q -> (c <= y)%Q -> Qeq_bool y 0 = false /\ Qltb y 0 = false) as Hy.
  { intros c y Hc Hcy. pose proof (Qlt_le_trans _ _ _ Hc Hcy) as Hpos. split.
    - apply Qeq_bool_false. intros E. rewrite E in Hpos. exact (Qlt_irrefl _ Hpos).
    - apply Qltb_false. now apply Qlt_le_weak. }
  destruct u as [x | | s | i], w as [y | | t | j]; cbn [at_least py_mul]; try tauto;
    intros Hu Hw.
  - eexists. split; [reflexivity |]. cbn [at_least].
    apply (Qle_trans _ (x * c2)).
    + apply Qmult_le_compat_r; [exact Hu | now apply Qlt_le_weak].
    + rewrite !(Qmult_comm x). apply Qmult_le_compat_r; [exact Hw |].
      apply Qlt_le_weak. exact (Qlt_le_trans _ _ _ H1 Hu).
  - subst j. destruct (Hy c1 x H1 Hu) as [-> ->]. eexists. split; reflexivity.
  - subst i. destruct (Hy c2 y H2 Hw) as [-> ->]. eexists. split; reflexivity.
  - subst i j. eexists. split; reflexivity.
Qed.

Lemma float_mul_at_least (c1 c2 : Q) (u w : value) :
  (1 # 2 ^ 1074 <= c1)%Q -> (1 # 2 ^ 1074 <= c2)%Q ->
  (1 # 2 ^ 1074 <= c1 * (1 # 2) * (c2 * (1 # 2)))%Q ->
  at_least c1 u -> at_least c2 w ->
  exists v, float_mul u w = Ok v /\ at_least (c1 * (1 # 2) * (c2 * (1 # 2)) * (1 # 2)) v.
Proof.
  intros H1 H2 H12 Hu Hw. unfold float_mul.
  assert (forall c, (1 # 2 ^ 1074 <= c)%Q -> (0 < c * (1 # 2))%Q) as Hhalf.
  { intros c Hc. apply Qmult_lt_0_compat; [| reflexivity].
    exact (Qlt_le_trans _ _ _ least_float_pos Hc). }
  destruct (py_mul_at_least _ _ _ _ (Hhalf _ H1) (Hhalf _ H2)
              (to_float_at_least _ _ H1 Hu) (to_float_at_least _ _ H2 Hw)) as (v & -> & Hv).
  cbn [fmap result_fmap]. eexists. split; [reflexivity |].
  now apply to_float_at_least.
Qed.

(** The chain with the divisor below the other number, both in the range
    of [float64]: the result is above zero. *)
Lemma float_chain_positive (a b : Q) :
  float_range a -> float_range b -> (b < a)%Q ->
  exists v, (f ← float_div (Num 1) (Num b); float_mul (Num a) f) = Ok v /\ is_positive v.
Proof.
  intros [Ha1 Ha2] [Hb1 Hb2] Hlt.
  assert (0 < b)%Q as Hb0 by exact (Qlt_le_trans _ _ _ least_float_pos Hb1).
  assert (~ (b == 0)%Q) as Hbne by (intros E; rewrite E in Hb0; exact (Qlt_irrefl _ Hb0)).
  unfold float_div. cbn [py_div]. rewrite (proj2 (Qeq_bool_false _ _) Hbne).
  cbn [fmap result_fmap mbind result_bind to_float].
  (* 1 / b is at least 2 ^ -1024 *)
  assert (1 # 2 ^ 1024 <= 1 / b)%Q as Hinv.
  { apply Qle_shift_div_l; [exact Hb0 |].
    apply (Qle_trans _ ((1 # 2 ^ 1024) * inject_Z (2 ^ 1024))).
    - rewrite !(Qmult_comm (1 # 2 ^ 1024)). apply Qmult_le_compat_r; [exact Hb2 | discriminate].
    - vm_compute. discriminate. }
  assert (1 # 2 ^ 1074 <= 1 / b)%Q as Hinv'.
  { apply (Qle_trans _ (1 # 2 ^ 1024)); [| exact Hinv].
    vm_compute. discriminate. }
  pose proof (round64_at_least (1 / b) (1 / b * (1 # 2)) Hinv' (Qle_refl _)) as Hf.
  assert (1 # 2 ^ 1074 <= 1 / b * (1 # 2))%Q as Hc2.
  { apply (Qle_trans _ ((1 # 2 ^ 1024) * (1 # 2))).
    - vm_compute. discriminate.
    - apply Qmult_le_compat_r; [exact Hinv | discriminate]. }
  assert ((1 # 8) <= a * (1 # 2) * (1 / b * (1 # 2) * (1 # 2)))%Q as Hprod.
  { assert (1 <= a * (1 / b))%Q as H1.
    { unfold Qdiv. rewrite Qmult_1_l. apply Qle_shift_div_l; [exact Hb0 |].
      rewrite Qmult_1_l. now apply Qlt_le_weak. }
    assert (a * (1 # 2) * (1 / b * (1 # 2) * (1 # 2)) == a * (1 / b) * (1 # 8))%Q as ->
      by ring.
    apply (Qle_trans _ (1 * (1 # 8))); [discriminate |].
    apply Qmult_le_compat_r; [exact H1 | discriminate]. }
  destruct (float_mul_at_least a (1 / b * (1 # 2)) (Num a) (round64 (1 / b)) Ha1 Hc2)
    as (v & Hv & Hge).
  - apply (Qle_trans _ (1 # 8)); [| exact Hprod].
    vm_compute. discriminate.
  - cbn [at_least]. apply Qle_refl.
  - exact Hf.
  - exists v. split; [exact Hv |].
    apply (at_least_positive (a * (1 # 2) * (1 / b * (1 # 2) * (1 # 2)) * (1 # 2))%Q);
      [| exact Hge].
    apply Qmult_lt_0_compat; [| reflexivity].
    apply (Qlt_le_trans _ (1 # 8)); [reflexivity | exact Hprod].
Qed.

Lemma Qinv_nonzero (b : Q) : ~ (b == 0)%Q -> ~ (/ b == 0)%Q.
Proof.
  intros Hb E. apply Hb. rewrite <- (Qinv_involutive b), E. reflexivity.
Qed.

Lemma ratio_policy_nonzero (a b : Q) :
  ~ (a == 0)%Q -> ~ (b == 0)%Q -> ~ (a == b)%Q -> ~ (ratio_policy a b == 0)%Q.
Proof.
  intros Ha Hb Hab.
  assert (forall x y c : Q, ~ (x == 0)%Q -> ~ (y == 0)%Q -> ~ (c == 0)%Q ->
            ~ (x * (c / y) == 0)%Q) as Hnz.
  { intros x y c Hx Hy Hc E. apply Qmult_integral in E as [E | E]; [contradiction |].
    unfold Qdiv in E. apply Qmult_integral in E as [E | E]; [contradiction |].
    now apply (Qinv_nonzero y). }
  destruct (Q_dec a b) as [[Hlt | Hgt] | Heq]; [| | contradiction].
  - rewrite (ratio_policy_below a b Hlt Ha). apply Hnz; [exact Hb | exact Ha | discriminate].
  - rewrite (ratio_policy_above a b Hgt Hb). apply Hnz; [exact Ha | exact Hb | discriminate].
Qed.

Lemma Qopp_sign (x : Q) :
  ~ (x == 0)%Q -> ((x < 0 /\ 0 < - x) \/ (0 < x /\ - x < 0))%Q.
Proof.
  destruct x as [n d]. unfold Qeq, Qlt, Qopp; cbn [Qnum Qden]. lia.
Qed.

(** C5. For two numbers, neither zero and not equal, the ratio of the
    swapped pair is the negation of the ratio of the pair, for the count
    ratio and for the price ratio alike: the ratio is a number [x] that is
    not zero and the swapped one is [- x], of the opposite sign and the
    same magnitude.  This holds in exact arithmetic, and it holds exactly
    in the arithmetic of the machine, where each quotient and product is
    rounded to the nearest [float64] (or is an infinity): rounding commutes
    with negation, so the two results are the same [float64] up to the
    sign.  For two numbers in the range of the positive [float64] the
    rounded ratio is not zero either: it is below zero when the listing
    value is the larger one and above zero when the rental value is. *)
Theorem ratio_antisymmetric (r r' : Agg.row) (a b : Q) :
  ~ (a == 0)%Q -> ~ (b == 0)%Q -> ~ (a == b)%Q ->
  (Agg.Airbnb_count r = Num a -> Agg.rental_count r = Num b ->
   Agg.Airbnb_count r' = Num b -> Agg.rental_count r' = Num a ->
   exists x : Q,
     count_ratio r = Ok (Num x) /\ count_ratio r' = Ok (Num (- x)) /\
     ~ (x == 0)%Q /\ ((x < 0 /\ 0 < - x) \/ (0 < x /\ - x < 0))%Q) /\
  (Agg.Airbnb_price r = Num a -> Agg.rental_price_average r = Num b ->
   Agg.Airbnb_price r' = Num b -> Agg.rental_price_average r' = Num a ->
   exists x : Q,
     price_ratio r = Ok (Num x) /\ price_ratio r' = Ok (Num (- x)) /\
     ~ (x == 0)%Q /\ ((x < 0 /\ 0 < - x) \/ (0 < x /\ - x < 0))%Q) /\
  (exists v : value,
     ratio_float64 (Num a) (Num b) = Ok v /\
     ratio_float64 (Num b) (Num a) = Ok (value_opp v) /\
     ~ is_str v /\
     (float_range a -> float_range b ->
      ((b < a)%Q -> is_negative v /\ is_positive (value_opp v)) /\
      ((a < b)%Q -> is_positive v /\ is_negative (value_opp v)))).
Proof.
  intros Ha Hb Hab.
  assert (Hba : ~ (b == a)%Q) by (intros E; apply Hab; now symmetry).
  split; [| split].
  - intros H1 H2 H3 H4. exists (ratio_policy a b).
    rewrite (count_ratio_policy r a b H1 H2), (count_ratio_policy r' b a H3 H4).
    rewrite (ratio_policy_swap b a Hb Ha Hba).
    pose proof (ratio_policy_nonzero a b Ha Hb Hab) as Hx.
    auto using Qopp_sign.
  - intros H1 H2 H3 H4. exists (ratio_policy a b).
    rewrite (price_ratio_policy r a b H1 H2), (price_ratio_policy r' b a H3 H4).
    rewrite (ratio_policy_swap b a Hb Ha Hba).
    pose proof (ratio_policy_nonzero a b Ha Hb Hab) as Hx.
    auto using Qopp_sign.
  - destruct (ratio_float64_swap a b Ha Hb Hab) as (v & Hv & Hv').
    exists v. split; [exact Hv |]. split; [exact Hv' |]. split.
    + destruct (Q_dec a b) as [[Hlt | Hgt] | Heq]; [| | contradiction].
      * rewrite (ratio_float64_below a b Hlt Ha) in Hv. unfold float_div in Hv.
        cbn [py_div] in Hv. rewrite (proj2 (Qeq_bool_false _ _) Ha) in Hv.
        cbn [fmap result_fmap mbind result_bind to_float] in Hv.
        destruct (float_mul_returns (Num b) (round64 (1 / a)) id (round64_not_str _))
          as (w & Hw & Hns).
        rewrite Hw in Hv. now injection Hv as <-.
      * rewrite (ratio_float64_above a b Hgt Hb) in Hv. unfold float_div in Hv.
        cbn [py_div] in Hv. rewrite (proj2 (Qeq_bool_false _ _) Hb) in Hv.
        cbn [fmap result_fmap mbind result_bind to_float] in Hv.
        destruct (float_mul_returns (Num a) (round64 ((-1 # 1) / b)) id (round64_not_str _))
          as (w & Hw & Hns).
        rewrite Hw in Hv. now injection Hv as <-.
    + intros Ra Rb. split; intros Hlt.
      * destruct (float_chain_positive a b Ra Rb Hlt) as (w & Hw & Hpos).
        rewrite (ratio_float64_below b a Hlt Hb) in Hv'. rewrite Hw in Hv'.
        injection Hv' as Hw'. unfold is_negative. rewrite <- Hw'. auto.
      * destruct (float_chain_positive b a Rb Ra Hlt) as (w & Hw & Hpos).
        rewrite (ratio_float64_below a b Hlt Ha) in Hv. rewrite Hw in Hv.
        injection Hv as <-. unfold is_negative. rewrite value_opp_involutive. auto.
Qed.

(** ** Lists, keys and the pandas operations *)

Lemma key_eqb_eq (k1 k2 : key) : key_eqb k1 k2 = true <-> k1 = k2.
Proof.
  destruct k1 as [a1 b1], k2 as [a2 b2]. unfold key_eqb; cbn [fst snd].
  rewrite andb_true_iff, !String.eqb_eq. split; [intros [-> ->] | intros [= -> ->]]; auto.
Qed.

Lemma key_eqb_refl (k : key) : key_eqb k k = true.
Proof. now apply key_eqb_eq. Qed.

Lemma insert_by_perm {A : Type} (leb : A -> A -> bool) (x : A) (l : list A) :
  Permutation (insert_by leb x l) (x :: l).
Proof.
  induction l as [| y l IH]; cbn [insert_by]; [reflexivity |].
  destruct (leb x y); [reflexivity |].
  rewrite IH. apply perm_swap.
Qed.

Lemma sort_by_perm {A : Type} (leb : A -> A -> bool) (l : list A) :
  Permutation (sort_by leb l) l.
Proof.
  induction l as [| x l IH]; cbn; [reflexivity |].
  fold (sort_by leb l). rewrite insert_by_perm. now constructor.
Qed.

Lemma sort_by_In {A : Type} (leb : A -> A -> bool) (l : list A) (x : A) :
  In x (sort_by leb l) <-> In x l.
Proof.
  split; apply Permutation_in; [| symmetry]; apply sort_by_perm.
Qed.

Lemma sort_by_length {A : Type} (leb : A -> A -> bool) (l : list A) :
  length (sort_by leb l) = length l.
Proof. apply Permutation_length, sort_by_perm. Qed.

Lemma unique_In (l : list string) (x : string) : In x (unique l) <-> In x l.
Proof.
  induction l as [| y l IH]; cbn [unique In]; [tauto |].
  rewrite filter_In, IH, negb_true_iff, String.eqb_neq.
  destruct (String.eqb_spec y x); tauto.
Qed.

Lemma all_combinations_In (sa2s beds : list string) (a b : string) :
  In (a, b) (all_combinations sa2s beds) <-> In a sa2s /\ In b beds.
Proof.
  unfold all_combinations. rewrite in_flat_map. split.
  - intros (x & Hx & Hin). apply in_map_iff in Hin as (y & [= -> ->] & Hy). auto.
  - intros [Ha Hb]. exists a. split; [exact Ha |]. apply in_map_iff. eauto.
Qed.

Lemma all_combinations_length (sa2s beds : list string) :
  length (all_combinations sa2s beds) = (length sa2s * length beds)%nat.
Proof.
  induction sa2s as [| a sa2s IH]; [reflexivity |].
  unfold all_combinations in *. cbn [flat_map].
  rewrite length_app, length_map. cbn [length Nat.mul]. f_equal. exact IH.
Qed.

Lemma filter_none {A : Type} (f : A -> bool) (l : list A) :
  (forall x, In x l -> f x = false) -> List.filter f l = [].
Proof.
  induction l as [| x l IH]; intros H; cbn [List.filter]; [reflexivity |].
  rewrite (H x (or_introl eq_refl)). apply IH. intros y Hy. apply H. now right.
Qed.

(** A key of the right-hand frame that the left-hand frame lacks comes out
    of the merge once, with NaN in the other columns. *)
Lemma merge_right_missing {A : Type} (nan : A) (left : list (Row A)) (right : list key)
    (k : key) :
  In k right -> (forall r, In r left -> key_of r <> k) ->
  In (mkRow (fst k) (snd k) nan) (merge_right nan left right).
Proof.
  intros Hk Hnone. unfold merge_right. apply in_flat_map. exists k. split; [exact Hk |].
  rewrite filter_none; [now left |].
  intros r Hr. apply not_true_iff_false. rewrite key_eqb_eq. now apply Hnone.
Qed.

Lemma map_cols_In {A B : Type} (f : A -> B) (df : list (Row A)) (r : Row A) :
  In r df -> In (mkRow (SA22018__1 r) (bedrooms r) (f (cols r))) (map_cols f df).
Proof.
  intros H. unfold map_cols. apply in_map_iff. eauto.
Qed.

(** A key with no row in the partial rental-price table, whose area is in
    the rental index and whose category occurs in the partial table, gets
    the no-data row from [fill_rental_price]. *)
Lemma fill_rental_price_default (rental_df : RentalDf) (incomplete filled : _) (a b : string) :
  fill_rental_price rental_df incomplete = Ok filled ->
  In a (index rental_df) -> In b (map bedrooms incomplete) ->
  (forall r, In r incomplete -> key_of r <> (a, b)) ->
  In (mkRow a b (mkRentalPrice (Str "0") (Num 0.0) (Num 0.0))) filled.
Proof.
  intros Hfill Ha Hb Hnone. unfold fill_rental_price in Hfill.
  destruct incomplete as [| r0 incomplete]; [discriminate |].
  injection Hfill as <-.
  set (inc := r0 :: incomplete) in *.
  change (mkRow a b (mkRentalPrice (Str "0") (Num 0.0) (Num 0.0)))
    with (mkRow (SA22018__1 (mkRow a b (Str "0"))) (bedrooms (mkRow a b (Str "0")))
            ((fun p => mkRentalPrice p (series_replace basic_price_dict p)
                         (series_replace average_price_dict p))
               (cols (mkRow a b (Str "0"))))).
  apply map_cols_In. apply sort_by_In.
  change (mkRow a b (Str "0"))
    with (mkRow (SA22018__1 (mkRow a b NaN)) (bedrooms (mkRow a b NaN))
            (fillna (Str "0") (cols (mkRow a b NaN)))).
  apply map_cols_In.
  apply (merge_right_missing NaN inc _ (a, b)); [| exact Hnone].
  apply all_combinations_In. split; [now apply unique_In |].
  apply (unique_In (map bedrooms inc)). exact Hb.
Qed.

Lemma py_index_in_range {A : Type} (l : list A) (j : nat) :
  (j < length l)%nat -> exists x, l !! j = Some x /\ py_index l (Z.of_nat j) = Ok x.
Proof.
  intros Hj. destruct (lookup_lt_is_Some_2 l j Hj) as [x Hx].
  exists x. split; [exact Hx |]. unfold py_index.
  assert ((Z.of_nat j <? 0) = false) as E by (apply Z.ltb_ge; lia).
  rewrite E. cbv zeta. rewrite E, Nat2Z.id, Hx. reflexivity.
Qed.

Lemma slice_length {A : Type} (lo hi : nat) (l : list A) :
  (length (slice lo hi l) <= hi - lo)%nat.
Proof. unfold slice. rewrite length_take. lia. Qed.

(** What the [for] loop of [assign_rental_price] does with a frame of one
    row. *)
Lemma assign_block_single (cols : list string) (a : string) (row : list Z) :
  assign_block (mkRentalDf cols [(a, row)]) =
    sel ← select_bucket row;
    match sel with
    | Some j =>
        label ← py_index cols j;
        Ok [mkRow a (bedrooms_of_label label) (Str (price_str_of_label label))]
    | None => Ok []
    end.
Proof.
  unfold assign_block; cbn [rows columns rmapM fst snd].
  destruct (select_bucket row) as [[j |] | e]; cbn; [| reflexivity | reflexivity].
  destruct (py_index cols j); reflexivity.
Qed.

(** C2, on the code.  A key whose buckets hold no household has a zero
    total: the selector selects nothing and raises nothing.  The completion
    step does not always give such a key the no-data row.  In the table of
    the areas A and B where only the categories "1" and "total" of A have
    households, the block of "2 bedrooms" is all zero for A and for B, and
    the completed table has no row for "2"; in the table where every count
    is zero, no key is selected at all and the completion step raises
    [KeyError]. *)
Theorem zero_weight_key_unfilled :
  rows (iloc_cols 8 16 (filter_like "$" scenario_rental)) =
    [("A", replicate 8 0); ("B", replicate 8 0)] /\
  int64_sum (replicate 8 0) = 0 /\
  select_bucket (replicate 8 0) = Ok None /\
  assign_rental_price scenario_rental =
    Ok [mkRow "A" "1" (Str "$300 - $399"); mkRow "A" "total" (Str "$300 - $399")] /\
  (map key_of <$>
     (incomplete ← assign_rental_price scenario_rental;
      fill_rental_price scenario_rental incomplete)) =
    Ok [("A", "1"); ("A", "total"); ("B", "1"); ("B", "total")] /\
  In "2" BEDROOMS_ORDER /\
  assign_rental_price empty_rental = Ok [] /\
  (incomplete ← assign_rental_price empty_rental;
   fill_rental_price empty_rental incomplete) = Raise KeyError.
Proof. repeat split; vm_compute; try reflexivity. right. left. reflexivity. Qed.

(** C10. For every row of a block of eight columns whose counts are not
    negative, the walk ends inside the row and the selector raises nothing.
    With a positive total the index stops at some [i] from 1 to the length
    of the row, which is at most 8, and [i - 1] is a position of the
    block's labels; with a zero total the loop body is never entered.  The
    total is the one the code computes, an [int64]: when the counts add up
    to less than [2 ^ 63] it is their sum, zero or positive; a total that
    wrapped around to a negative number enters the loop no more than a zero
    total does. *)
Theorem walk_in_bounds (df : RentalDf) (k : nat) (a : string) (row : list Z) :
  In (a, row) (rows (iloc_cols (8 * k) (8 * k + 8) df)) ->
  Forall (fun c => 0 <= c) row ->
  (length row <= 8)%nat /\
  (exists sel : option Z, select_bucket row = Ok sel) /\
  (0 < int64_sum row ->
     exists (i : nat) (c : Z),
       walk (float_of_int64 (int64_sum row) * 0.5) row O 0 = Stopped i c /\
       (1 <= i <= length row)%nat /\
       select_bucket row = Ok (Some (Z.of_nat i - 1)) /\
       forall cols : list string, length cols = length row ->
         exists label, py_index cols (Z.of_nat i - 1) = Ok label) /\
  (int64_sum row <= 0 ->
     walk (float_of_int64 (int64_sum row) * 0.5) row O 0 = Stopped O 0 /\
     select_bucket row = Ok None) /\
  (sum_Z row < 2 ^ 63 -> int64_sum row = sum_Z row /\ 0 <= sum_Z row).
Proof.
  intros Hin Hnonneg.
  assert (0 < int64_sum row ->
          exists (i : nat) (c : Z),
            walk (float_of_int64 (int64_sum row) * 0.5) row O 0 = Stopped i c /\
            (1 <= i <= length row)%nat /\
            select_bucket row = Ok (Some (Z.of_nat i - 1)) /\
            forall cols : list string, length cols = length row ->
              exists label, py_index cols (Z.of_nat i - 1) = Ok label) as Hpos.
  { intros Hpos.
    destruct (select_bucket_positive row Hpos) as (j & Hw & Hsel & Hj & _).
    exists (S j), (int64_sum (take (S j) row)).
    replace (Z.of_nat (S j) - 1) with (Z.of_nat j) by lia.
    repeat split; [exact Hw | lia | lia | exact Hsel |].
    intros cols Hlen.
    destruct (py_index_in_range cols j) as (label & _ & Hidx); [lia |]. eauto. }
  split; [| split; [| split; [exact Hpos | split; [apply select_bucket_zero |]]]].
  - unfold iloc_cols in Hin; cbn [rows] in Hin.
    apply in_map_iff in Hin as (r & [= _ <-] & _).
    eapply Nat.le_trans; [exact (slice_length (8 * k) (8 * k + 8) (snd r)) | lia].
  - destruct (Z_lt_le_dec 0 (int64_sum row)) as [H | H].
    + destruct (Hpos H) as (i & _ & _ & _ & Hsel & _). eauto.
    + destruct (select_bucket_zero row H) as [_ Hsel]. eauto.
  - intros Hsum. pose proof (sum_Z_nonneg row Hnonneg) as H0.
    pose proof (int64_sum_exact row (length row) Hnonneg Hsum) as E.
    rewrite firstn_all in E. split; [exact E | exact H0].
Qed.

(** ** The listing table normaliser *)

Lemma rmapM_Forall2 {A B : Type} (f : A -> result B) (l : list A) (l' : list B) :
  rmapM f l = Ok l' -> Forall2 (fun x y => f x = Ok y) l l'.
Proof.
  revert l'. induction l as [| x l IH]; intros l' H; cbn [rmapM] in H.
  - injection H as <-. constructor.
  - destruct (f x) as [y | e] eqn:Hx; cbn in H; [| discriminate].
    destruct (rmapM f l) as [ys | e] eqn:Hl; cbn in H; [| discriminate].
    injection H as <-. constructor; [exact Hx | now apply IH].
Qed.

Lemma rmapM_ok {A B : Type} (f : A -> result B) (l : list A) :
  Forall (fun x => exists y, f x = Ok y) l -> exists l', rmapM f l = Ok l'.
Proof.
  induction 1 as [| x l [y Hy] _ [l' IH]]; [now exists [] |].
  exists (y :: l'). cbn [rmapM]. now rewrite Hy, IH.
Qed.

Lemma rmapM_ok_with {A B : Type} (f : A -> result B) (P : B -> Prop) (l : list A) :
  Forall (fun x => exists y, f x = Ok y /\ P y) l ->
  exists l', rmapM f l = Ok l' /\ Forall P l' /\ length l' = length l.
Proof.
  induction 1 as [| x l (y & Hy & HP) _ (l' & IH & HPs & Hlen)];
    [exists []; repeat split; constructor |].
  exists (y :: l'). cbn [rmapM]. rewrite Hy, IH.
  repeat split; [now constructor | cbn [length]; now rewrite Hlen].
Qed.

Lemma Forall2_In_l {A B : Type} (R : A -> B -> Prop) (l : list A) (l' : list B) (x : A) :
  Forall2 R l l' -> In x l -> exists y, In y l' /\ R x y.
Proof.
  induction 1 as [| a b l l' Hab _ IH]; intros Hin; [destruct Hin |].
  destruct Hin as [-> | Hin].
  - exists b. split; [now left | exact Hab].
  - destruct (IH Hin) as (y & Hy & HR). exists y. split; [now right | exact HR].
Qed.

(** A listing inside an area is a row of the join under that area. *)
Lemma sjoin_left_In (city_sa2 : list SA2Geo) (dataframe : list Csv.row)
    (a : SA2Geo) (l : Csv.row) :
  In a city_sa2 -> In l dataframe ->
  geometry a (Csv.longitude l) (Csv.latitude l) = true ->
  In (Joined.mk (geo_SA22018__1 a) (Csv.price l) (Csv.bedrooms l))
     (sjoin_left city_sa2 dataframe).
Proof.
  intros Ha Hl Hin. unfold sjoin_left. apply in_flat_map. exists a. split; [exact Ha |].
  assert (In l (List.filter
                  (fun l => geometry a (Csv.longitude l) (Csv.latitude l)) dataframe)) as Hf.
  { apply filter_In. auto. }
  destruct (List.filter _ dataframe) as [| l0 ls] eqn:E; [destruct Hf |].
  apply in_map_iff. exists l. auto.
Qed.

(** What [airbnb_import] makes of one entire-home listing that lies in an
    area: a row under that area, with the weekly price and the bedroom
    category of the listing. *)
Lemma airbnb_import_listing (airbnb_file : list Csv.row) (city_sa2 : list SA2Geo)
    (out : list (Joined.row string)) (l : Csv.row) (a : SA2Geo) :
  airbnb_import airbnb_file city_sa2 = Ok out ->
  In l airbnb_file -> Csv.room_type l = "Entire home/apt" ->
  In a city_sa2 -> geometry a (Csv.longitude l) (Csv.latitude l) = true ->
  exists (r : Joined.row string) (b : bed),
    In r out /\
    Joined.SA22018__1 r = geo_SA22018__1 a /\
    weekly_price (Csv.price l) = Ok (Joined.price r) /\
    cap_bedrooms (Csv.bedrooms (fillna_bedrooms l)) = Ok b /\
    Joined.bedrooms r = bedrooms_str b.
Proof.
  intros Himp Hl Htype Ha Hin. unfold airbnb_import in Himp.
  set (joined := sjoin_left _ _) in Himp.
  destruct (str_accessor _ _) as [[] |] eqn:Eacc; cbn in Himp; [| discriminate].
  destruct (rmapM _ joined) as [priced |] eqn:E1; cbn in Himp; [| discriminate].
  destruct (rmapM _ priced) as [capped |] eqn:E2; cbn in Himp; [| discriminate].
  injection Himp as <-.
  apply rmapM_Forall2 in E1, E2.
  assert (In (Joined.mk (geo_SA22018__1 a) (Csv.price l) (Csv.bedrooms (fillna_bedrooms l)))
            joined) as Hj.
  { replace (Csv.price l) with (Csv.price (fillna_bedrooms l))
      by (unfold fillna_bedrooms; destruct (Csv.bedrooms l); reflexivity).
    apply sjoin_left_In; [exact Ha | |].
    - apply in_map. apply filter_In. split; [exact Hl |]. rewrite Htype. reflexivity.
    - unfold fillna_bedrooms; destruct (Csv.bedrooms l); exact Hin. }
  destruct (Forall2_In_l _ _ _ _ E1 Hj) as (p & Hp & Hprice).
  cbn [Joined.price Joined.SA22018__1 Joined.bedrooms] in Hprice.
  destruct (weekly_price (Csv.price l)) as [w |] eqn:Hw; cbn in Hprice; [| discriminate].
  injection Hprice as <-.
  destruct (Forall2_In_l _ _ _ _ E2 Hp) as (c & Hc & Hcap).
  cbn [Joined.price Joined.SA22018__1 Joined.bedrooms] in Hcap.
  destruct (cap_bedrooms (Csv.bedrooms (fillna_bedrooms l))) as [b |] eqn:Hb;
    cbn in Hcap; [| discriminate].
  injection Hcap as <-.
  eexists _, b. split; [apply in_map; exact Hc |].
  cbn [Joined.price Joined.SA22018__1 Joined.bedrooms]. auto.
Qed.

Lemma bedrooms_str_small (n : Z) :
  1 <= n <= 7 -> bedrooms_str (BedNum n) = str_of_Z n.
Proof.
  intros H.
  assert (n = 1 \/ n = 2 \/ n = 3 \/ n = 4 \/ n = 5 \/ n = 6 \/ n = 7) as Hn by lia.
  repeat (destruct Hn as [-> | Hn]; [reflexivity |]). subst n. reflexivity.
Qed.

(** C7. For every entire-home listing that lies in an area, the row that
    [airbnb_import] makes of it has the category "1" when the listing has no
    bedroom count, the category "8 or more" when its count is greater than 7
    (12 for one), and its own count as category when that is from 1 to 7. *)
Theorem bedroom_categories (airbnb_file : list Csv.row) (city_sa2 : list SA2Geo)
    (out : list (Joined.row string)) (l : Csv.row) (a : SA2Geo) :
  airbnb_import airbnb_file city_sa2 = Ok out ->
  In l airbnb_file -> Csv.room_type l = "Entire home/apt" ->
  In a city_sa2 -> geometry a (Csv.longitude l) (Csv.latitude l) = true ->
  exists r : Joined.row string,
    In r out /\ Joined.SA22018__1 r = geo_SA22018__1 a /\
    (Csv.bedrooms l = BedNaN -> Joined.bedrooms r = "1") /\
    (forall n, Csv.bedrooms l = BedNum n -> 7 < n -> Joined.bedrooms r = "8 or more") /\
    (Csv.bedrooms l = BedNum 12 -> Joined.bedrooms r = "8 or more") /\
    (forall n, Csv.bedrooms l = BedNum n -> 1 <= n <= 7 -> Joined.bedrooms r = str_of_Z n).
Proof.
  intros Himp Hl Htype Ha Hin.
  destruct (airbnb_import_listing _ _ _ l a Himp Hl Htype Ha Hin)
    as (r & b & Hr & Hsa2 & _ & Hcap & Hbed).
  exists r. split; [exact Hr |]. split; [exact Hsa2 |].
  unfold fillna_bedrooms in Hcap. rewrite Hbed.
  assert (forall n, Csv.bedrooms l = BedNum n -> 7 < n -> bedrooms_str b = "8 or more") as Hbig.
  { intros n E Hn. rewrite E in Hcap. cbv beta iota in Hcap.
    rewrite E in Hcap. cbn [cap_bedrooms] in Hcap.
    apply Z.ltb_lt in Hn. rewrite Hn in Hcap. injection Hcap as <-. reflexivity. }
  repeat split.
  - intros E. rewrite E in Hcap. cbn in Hcap. injection Hcap as <-. reflexivity.
  - exact Hbig.
  - intros E. apply (Hbig 12 E). lia.
  - intros n E Hn. rewrite E in Hcap. cbv beta iota in Hcap.
    rewrite E in Hcap. cbn [cap_bedrooms] in Hcap.
    assert ((7 <? n) = false) as Hle by (apply Z.ltb_ge; lia).
    rewrite Hle in Hcap. injection Hcap as <-. now apply bedrooms_str_small.
Qed.

Lemma str_replace_char (c : ascii) (s : string) :
  str_replace (String c EmptyString) "" s = without c s.
Proof.
  unfold str_replace. induction s as [| d s IH]; [reflexivity |].
  cbn [sub_matches without]. unfold literal at 1. cbn [strip_prefix].
  destruct (Ascii.eqb c d); cbn [String.length]; [exact IH | now rewrite IH].
Qed.

Lemma digit_of_char (d : nat) : (d < 10)%nat -> digit_of (digit_char d) = Some (Z.of_nat d).
Proof.
  intros H. do 10 (destruct d as [| d]; [reflexivity |]). lia.
Qed.

Lemma digit_char_clean (d : nat) : (d < 10)%nat -> clean (digit_char d) = true.
Proof.
  intros H. do 10 (destruct d as [| d]; [reflexivity |]). lia.
Qed.

Lemma digit_char_plain (d : nat) (s : string) :
  (d < 10)%nat -> read_sign (String (digit_char d) s) = (false, String (digit_char d) s).
Proof.
  intros H. do 10 (destruct d as [| d]; [reflexivity |]). lia.
Qed.

Lemma all_chars_app (P : ascii -> bool) (s t : string) :
  all_chars P (s ++ t) = all_chars P s && all_chars P t.
Proof.
  induction s as [| c s IH]; [reflexivity |].
  change (String c s ++ t)%string with (String c (s ++ t)).
  cbn [all_chars]. now rewrite IH, andb_assoc.
Qed.

Lemma digits_text_clean (ds : list nat) :
  Forall (fun d => (d < 10)%nat) ds -> all_chars clean (digits_text ds) = true.
Proof.
  induction 1 as [| d ds Hd _ IH]; [reflexivity |].
  cbn [digits_text foldr all_chars]. fold (digits_text ds).
  now rewrite (digit_char_clean d Hd), IH.
Qed.

Lemma drop_underscores_clean (s : string) :
  forall prev : ascii,
    Ascii.eqb prev "_" = false -> all_chars clean s = true ->
    drop_underscores prev s = Some s.
Proof.
  induction s as [| c s IH]; intros prev Hprev Hs; cbn [drop_underscores].
  - now rewrite Hprev.
  - cbn [all_chars] in Hs. apply andb_prop in Hs as [Hc Hs].
    unfold clean in Hc. apply andb_prop in Hc as [Hu _].
    apply negb_true_iff in Hu. rewrite Hu, Hprev. cbn [andb].
    now rewrite (IH c Hu Hs).
Qed.

Lemma lstrip_clean (c : ascii) (s : string) :
  clean c = true -> lstrip (String c s) = String c s.
Proof.
  unfold clean. intros H. apply andb_prop in H as [_ H]. apply negb_true_iff in H.
  cbn [lstrip]. now rewrite H.
Qed.

Lemma rstrip_clean (s : string) : all_chars clean s = true -> rstrip s = s.
Proof.
  induction s as [| c s IH]; [reflexivity |]. cbn [all_chars rstrip]. intros H.
  apply andb_prop in H as [Hc Hs]. rewrite (IH Hs).
  unfold clean in Hc. apply andb_prop in Hc as [_ Hc]. apply negb_true_iff in Hc.
  rewrite Hc. now destruct s.
Qed.

(** Reading the digits of [ds] in front of a text that does not begin with
    a digit. *)
Lemma read_digits_text (ds : list nat) (rest : string) :
  Forall (fun d => (d < 10)%nat) ds ->
  match rest with
  | String c _ => digit_of c = None
  | EmptyString => True
  end ->
  forall (acc : Z) (n : nat),
    read_digits acc n (digits_text ds ++ rest) =
      (fold_left (fun acc d => 10 * acc + Z.of_nat d) ds acc, (n + length ds)%nat, rest).
Proof.
  intros Hds Hrest. induction Hds as [| d ds Hd _ IH]; intros acc n.
  - cbn [digits_text foldr fold_left length]. change (EmptyString ++ rest)%string with rest.
    rewrite Nat.add_0_r. destruct rest as [| c rest]; [reflexivity |].
    cbn [read_digits]. now rewrite Hrest.
  - cbn [digits_text foldr]. fold (digits_text ds).
    change (String (digit_char d) (digits_text ds) ++ rest)%string
      with (String (digit_char d) (digits_text ds ++ rest)).
    cbn [read_digits]. rewrite (digit_of_char d Hd), IH. cbn [fold_left length].
    do 2 f_equal. lia.
Qed.

(** [float] on the text of an amount: the nearest [float64] to the amount. *)
Lemma parse_float_amount (ip fp : list nat) :
  Forall (fun d => (d < 10)%nat) ip -> Forall (fun d => (d < 10)%nat) fp -> ip <> [] ->
  parse_float (amount_text ip fp) = Some (round64 (amount ip fp)).
Proof.
  intros Hip Hfp Hne. unfold parse_float, amount_text.
  assert (all_chars clean (digits_text ip ++ String "." (digits_text fp)) = true) as Hclean.
  { rewrite all_chars_app. cbn [all_chars].
    now rewrite (digits_text_clean ip Hip), (digits_text_clean fp Hfp). }
  rewrite (drop_underscores_clean _ "000" eq_refl Hclean). cbn [mbind option_bind].
  destruct ip as [| d ip]; [contradiction |].
  assert (Hd : (d < 10)%nat) by now inversion Hip.
  cbn [digits_text foldr] in *. fold (digits_text ip) in *.
  change (String (digit_char d) (digits_text ip) ++ String "." (digits_text fp))%string
    with (String (digit_char d) (digits_text ip ++ String "." (digits_text fp))) in *.
  rewrite (lstrip_clean _ _ (digit_char_clean d Hd)), (rstrip_clean _ Hclean).
  rewrite (digit_char_plain d _ Hd).
  unfold read_decimal.
  change (String (digit_char d) (digits_text ip ++ String "." (digits_text fp)))
    with (digits_text (d :: ip) ++ String "." (digits_text fp))%string.
  rewrite (read_digits_text (d :: ip) (String "." (digits_text fp)) Hip eq_refl 0 O).
  pose proof (read_digits_text fp EmptyString Hfp I) as Hread.
  assert (forall s, (s ++ "")%string = s) as Hnil
    by (induction s as [| c s IHs];
        [reflexivity
        | change (String c s ++ "")%string with (String c (s ++ "")); now rewrite IHs]).
  specialize (Hread (fold_left (fun acc d => 10 * acc + Z.of_nat d) (d :: ip) 0) O).
  rewrite Hnil in Hread. rewrite Hread.
  cbn [Nat.add length read_exponent]. unfold amount.
  unfold digits_value. rewrite fold_left_app, Z.sub_0_l. reflexivity.
Qed.

Lemma Qred_inject_Z (z : Z) : Qred (inject_Z z) = inject_Z z.
Proof.
  unfold Qred, inject_Z.
  pose proof (Z.ggcd_gcd z 1) as Hg. pose proof (Z.ggcd_correct_divisors z 1) as Hd.
  destruct (Z.ggcd z 1) as [g [aa bb]]. cbn [fst snd] in *.
  rewrite Z.gcd_1_r in Hg. subst g. destruct Hd as [H1 H2].
  assert (aa = z) as -> by lia. assert (bb = 1) as -> by lia. reflexivity.
Qed.

(** A whole number of at most 53 binary digits is its own [float64]. *)
Lemma round64_int (z : Z) : - 2 ^ 53 <= z <= 2 ^ 53 -> round64 (inject_Z z) = Num (inject_Z z).
Proof.
  intros Hz. pose proof (float_of_int64_exact z Hz) as Hx. unfold float_of_int64 in Hx.
  unfold round64. cbv zeta.
  assert (Qle_bool (inject_Z (2 ^ 1024)) (nearest64 (inject_Z z)) = false) as ->.
  { destruct (Qle_bool _ _) eqn:E; [| reflexivity]. apply Qle_bool_iff in E.
    rewrite Hx in E. unfold Qle, inject_Z in E; cbn [Qnum Qden] in E.
    assert (2 ^ 53 < 2 ^ 1024) by (apply Z.pow_lt_mono_r; lia). lia. }
  assert (Qle_bool (nearest64 (inject_Z z)) (inject_Z (- 2 ^ 1024)) = false) as ->.
  { destruct (Qle_bool _ _) eqn:E; [| reflexivity]. apply Qle_bool_iff in E.
    rewrite Hx in E. unfold Qle, inject_Z in E; cbn [Qnum Qden] in E.
    assert (2 ^ 53 < 2 ^ 1024) by (apply Z.pow_lt_mono_r; lia). lia. }
  f_equal. rewrite (Qred_complete _ _ Hx). apply Qred_inject_Z.
Qed.

Lemma decimal_whole (n k : Z) : 0 <= k -> decimal (n * 10 ^ k) (- k) = inject_Z n.
Proof.
  intros Hk. unfold decimal. destruct (0 <=? - k) eqn:E.
  - apply Z.leb_le in E. assert (k = 0) as -> by lia.
    change (- 0) with 0. change (10 ^ 0) with 1. now rewrite !Z.mul_1_r.
  - rewrite Z.opp_involutive.
    transitivity (Qred (inject_Z n)); [| apply Qred_inject_Z]. apply Qred_complete.
    assert (0 < 10 ^ k) by (apply Z.pow_pos_nonneg; lia).
    unfold Qeq, inject_Z; cbn [Qnum Qden]. rewrite Z2Pos.id by lia. lia.
Qed.

Lemma digits_value_zeros (ip fp : list nat) :
  Forall (fun d => d = O) fp ->
  digits_value (ip ++ fp) = digits_value ip * 10 ^ Z.of_nat (length fp).
Proof.
  intros Hfp. unfold digits_value. rewrite fold_left_app.
  generalize (fold_left (fun acc d => 10 * acc + Z.of_nat d) ip 0) as n.
  induction Hfp as [| d fp -> _ IH]; intros n.
  - cbn [fold_left length]. change (10 ^ Z.of_nat 0) with 1. lia.
  - cbn [fold_left length]. rewrite IH, Nat2Z.inj_succ, Z.pow_succ_r by lia.
    change (Z.of_nat 0) with 0. lia.
Qed.

Lemma weekly_price_text (s : string) :
  weekly_price (Str s) =
    match parse_float (without "$" (without "," s)) with
    | Some x => to_float <$> py_mul x (Num 7)
    | None => Raise ValueError
    end.
Proof.
  unfold weekly_price. now rewrite !str_replace_char.
Qed.

Lemma round64_times7 (q : Q) : to_float <$> py_mul (round64 q) (Num 7) = Ok (times7 (round64 q)).
Proof.
  pose proof (round64_not_str q) as Hns.
  destruct (round64 q) as [x | | t | i]; cbn [is_str] in Hns; [| | tauto |]; try reflexivity.
  now destruct i.
Qed.

(** The weekly price of a cell that is the text of an amount. *)
Lemma weekly_price_amount (s : string) (ip fp : list nat) :
  Forall (fun d => (d < 10)%nat) ip -> Forall (fun d => (d < 10)%nat) fp -> ip <> [] ->
  without "$" (without "," s) = amount_text ip fp ->
  weekly_price (Str s) = Ok (times7 (round64 (amount ip fp))).
Proof.
  intros Hip Hfp Hne Hs.
  now rewrite weekly_price_text, Hs, (parse_float_amount ip fp Hip Hfp Hne), round64_times7.
Qed.

Lemma digits_value_nonneg (ds : list nat) : 0 <= digits_value ds.
Proof.
  unfold digits_value. assert (forall acc, 0 <= acc ->
    0 <= fold_left (fun acc d => 10 * acc + Z.of_nat d) ds acc) as H.
  { induction ds as [| d ds IH]; intros acc Hacc; [exact Hacc |].
    cbn [fold_left]. apply IH. lia. }
  apply H. lia.
Qed.

(** A whole amount whose weekly price has at most 53 binary digits: the
    conversion is exact. *)
Lemma weekly_price_whole (s : string) (ip fp : list nat) :
  Forall (fun d => (d < 10)%nat) ip -> Forall (fun d => d = O) fp -> ip <> [] ->
  without "$" (without "," s) = amount_text ip fp ->
  7 * digits_value ip <= 2 ^ 53 ->
  weekly_price (Str s) = Ok (Num (inject_Z (7 * digits_value ip))).
Proof.
  intros Hip Hfp Hne Hs Hsmall.
  assert (Forall (fun d => (d < 10)%nat) fp) as Hfp'
    by (eapply Forall_impl; [exact Hfp | intros d ->; lia]).
  rewrite (weekly_price_amount s ip fp Hip Hfp' Hne Hs). unfold amount.
  rewrite (digits_value_zeros ip fp Hfp), decimal_whole by lia.
  pose proof (digits_value_nonneg ip) as Hpos.
  rewrite round64_int by lia. cbn [times7].
  replace (inject_Z (digits_value ip) * 7)%Q with (inject_Z (7 * digits_value ip)).
  - now rewrite round64_int by lia.
  - unfold Qmult, inject_Z; cbn [Qnum Qden]. f_equal. lia.
Qed.

(** The cells of a row of the join: those of a listing of the frame, or
    the fill of an area without listings. *)
Lemma sjoin_left_cells (city_sa2 : list SA2Geo) (dataframe : list Csv.row)
    (r : Joined.row bed) :
  In r (sjoin_left city_sa2 dataframe) ->
  (Joined.price r = NaN /\ Joined.bedrooms r = BedNaN) \/
  exists l, In l dataframe /\ Joined.price r = Csv.price l /\
            Joined.bedrooms r = Csv.bedrooms l.
Proof.
  unfold sjoin_left. intros Hr. apply in_flat_map in Hr as (a & _ & Hr).
  destruct (List.filter _ dataframe) as [| l0 ls] eqn:E.
  - destruct Hr as [<- | []]. left. split; reflexivity.
  - apply in_map_iff in Hr as (l & <- & Hl). right. exists l.
    rewrite <- E in Hl. apply filter_In in Hl as [Hl _]. repeat split. exact Hl.
Qed.

(** The cells of a row of the join of [airbnb_import]: those of an
    entire-home listing of the file, a missing bedroom count filled. *)
Lemma joined_cells (airbnb_file : list Csv.row) (city_sa2 : list SA2Geo)
    (r : Joined.row bed) :
  In r (sjoin_left city_sa2
          (map fillna_bedrooms
             (List.filter (fun l => String.eqb (Csv.room_type l) "Entire home/apt")
                airbnb_file))) ->
  (Joined.price r = NaN /\ Joined.bedrooms r = BedNaN) \/
  exists l, In l airbnb_file /\ Csv.room_type l = "Entire home/apt" /\
            Joined.price r = Csv.price l /\
            Joined.bedrooms r = Csv.bedrooms (fillna_bedrooms l).
Proof.
  intros Hr. apply sjoin_left_cells in Hr as [Hr | (l & Hl & Hp & Hb)]; [now left |].
  right. apply in_map_iff in Hl as (l0 & <- & Hl0).
  apply filter_In in Hl0 as [Hl0 Htype]. apply String.eqb_eq in Htype.
  exists l0. repeat split; try assumption.
  rewrite Hp. unfold fillna_bedrooms. now destruct (Csv.bedrooms l0).
Qed.

Lemma price_cell_weekly (v : value) :
  price_cell v -> exists w, weekly_price v = Ok w.
Proof.
  intros [-> | (s & ip & fp & -> & Hip & Hfp & Hne & Hs)]; [now exists NaN |].
  eexists. now apply (weekly_price_amount s ip fp).
Qed.

Lemma price_cell_text (v : value) : price_cell v -> is_text v = false -> v = NaN.
Proof.
  intros [-> | (s & ip & fp & -> & _)]; [reflexivity | discriminate].
Qed.

(** A file whose price column is of texts, each cell of an entire-home
    listing missing or an amount, and without text among the bedroom counts
    of these listings: [airbnb_import] returns. *)
Lemma airbnb_import_returns (airbnb_file : list Csv.row) (city_sa2 : list SA2Geo) :
  Forall (fun l => Csv.room_type l = "Entire home/apt" ->
                   price_cell (Csv.price l) /\ bed_number (Csv.bedrooms l)) airbnb_file ->
  Exists (fun l => is_text (Csv.price l) = true) airbnb_file ->
  exists out, airbnb_import airbnb_file city_sa2 = Ok out.
Proof.
  intros Hcells Htext. unfold airbnb_import.
  set (joined := sjoin_left _ _).
  assert (forall r, In r joined ->
            price_cell (Joined.price r) /\ bed_number (Joined.bedrooms r)) as Hjoined.
  { intros r Hr. apply joined_cells in Hr as [[-> ->] | (l & Hl & Htype & -> & ->)].
    - split; [now left | exact I].
    - rewrite List.Forall_forall in Hcells. destruct (Hcells l Hl Htype) as [Hp Hb].
      split; [exact Hp |]. unfold fillna_bedrooms.
      destruct (Csv.bedrooms l) eqn:Eb; cbn [Csv.bedrooms bed_number] in *;
        rewrite ?Eb; cbn [bed_number]; tauto. }
  assert (str_accessor (map Csv.price airbnb_file) (map Joined.price joined) = Ok tt) as ->.
  { unfold str_accessor. destruct (existsb is_text (map Joined.price joined)) eqn:E;
      [reflexivity |].
    assert (forallb is_missing (map Joined.price joined) = true) as ->.
    { apply forallb_forall. intros v Hv. apply in_map_iff in Hv as (r & <- & Hr).
      destruct (Hjoined r Hr) as [Hp _].
      rewrite (price_cell_text _ Hp); [reflexivity |].
      destruct (is_text (Joined.price r)) eqn:Et; [| reflexivity].
      assert (existsb is_text (map Joined.price joined) = true) as Hex.
      { apply existsb_exists. exists (Joined.price r). split; [| exact Et].
        apply in_map_iff. eauto. }
      rewrite Hex in E. discriminate. }
    assert (object_dtype (map Csv.price airbnb_file) = true) as ->; [| reflexivity].
    apply List.Exists_exists in Htext as (l & Hl & Hlt).
    assert (existsb is_text (map Csv.price airbnb_file) = true) as Hex.
    { apply existsb_exists. exists (Csv.price l). split; [| exact Hlt].
      apply in_map_iff. eauto. }
    unfold object_dtype. destruct (map Csv.price airbnb_file); [reflexivity | exact Hex]. }
  cbn [mbind result_bind].
  destruct (rmapM_ok_with
              (fun r => p ← weekly_price (Joined.price r);
                        Ok (Joined.mk (Joined.SA22018__1 r) p (Joined.bedrooms r)))
              (fun r => bed_number (Joined.bedrooms r)) joined) as (priced & -> & Hbeds & _).
  { apply List.Forall_forall. intros r Hr. destruct (Hjoined r Hr) as [Hp Hb].
    destruct (price_cell_weekly _ Hp) as (w & ->). cbn [mbind result_bind].
    eexists. split; [reflexivity | exact Hb]. }
  cbn [mbind result_bind].
  destruct (rmapM_ok
              (fun r => b ← cap_bedrooms (Joined.bedrooms r);
                        Ok (Joined.mk (Joined.SA22018__1 r) (Joined.price r) b))
              priced) as (capped & ->).
  { eapply Forall_impl; [exact Hbeds |]. intros r Hb. cbn beta in Hb.
    destruct (Joined.bedrooms r); [| | contradiction]; cbn [cap_bedrooms mbind result_bind];
      eauto. }
  cbn [mbind result_bind]. eauto.
Qed.

(** A file with rows and no text in its price column: the column is of
    numbers, and [airbnb_import] raises [AttributeError] at [.str]. *)
Lemma airbnb_import_numeric (airbnb_file : list Csv.row) (city_sa2 : list SA2Geo) :
  airbnb_file <> [] ->
  Forall (fun l => is_text (Csv.price l) = false) airbnb_file ->
  airbnb_import airbnb_file city_sa2 = Raise AttributeError.
Proof.
  intros Hne Hnum. unfold airbnb_import.
  set (joined := sjoin_left _ _).
  assert (existsb is_text (map Csv.price airbnb_file) = false) as Hfile.
  { destruct (existsb _ _) eqn:E; [| reflexivity].
    apply existsb_exists in E as (v & Hv & Ht). apply in_map_iff in Hv as (l & <- & Hl).
    rewrite List.Forall_forall in Hnum. rewrite (Hnum l Hl) in Ht. discriminate. }
  assert (existsb is_text (map Joined.price joined) = false) as Hjoin.
  { destruct (existsb is_text (map Joined.price joined)) eqn:E; [| reflexivity].
    apply existsb_exists in E as (v & Hv & Ht). apply in_map_iff in Hv as (r & <- & Hr).
    apply joined_cells in Hr as [[Hp _] | (l & Hl & _ & Hp & _)]; rewrite Hp in Ht;
      [discriminate |].
    rewrite List.Forall_forall in Hnum. rewrite (Hnum l Hl) in Ht. discriminate. }
  unfold str_accessor. rewrite Hjoin.
  assert (object_dtype (map Csv.price airbnb_file) = false) as ->.
  { unfold object_dtype. destruct airbnb_file; [contradiction | exact Hfile]. }
  rewrite andb_false_r. reflexivity.
Qed.

(** C8. The price text of a listing is read without its commas and dollar
    signs, as [float] reads it, and multiplied by 7.  For a text that
    without these characters is the digits of an amount with a decimal
    point, the result is the nearest [float64] to the amount, times 7 as a
    [float64]; when the amount is whole and seven times it has at most 53
    binary digits the result is exactly seven times the amount: the text
    "$1,234.00" gives 8638.  A text that is no number raises [ValueError],
    a missing cell stays missing.  [airbnb_import] returns on a file whose
    price column holds texts, the cells of the entire-home listings being
    missing or amounts, and then the row of every such listing that lies
    in an area has this weekly price; on a file with rows whose price
    column holds no text the column is numeric and [AttributeError] is
    raised. *)
Theorem weekly_price_conversion :
  (forall (s : string) (ip fp : list nat),
      Forall (fun d => (d < 10)%nat) ip -> Forall (fun d => (d < 10)%nat) fp -> ip <> [] ->
      without "$" (without "," s) = amount_text ip fp ->
      weekly_price (Str s) = Ok (times7 (round64 (amount ip fp)))) /\
  (forall (s : string) (ip fp : list nat),
      Forall (fun d => (d < 10)%nat) ip -> Forall (fun d => d = O) fp -> ip <> [] ->
      without "$" (without "," s) = amount_text ip fp ->
      7 * digits_value ip <= 2 ^ 53 ->
      weekly_price (Str s) = Ok (Num (inject_Z (7 * digits_value ip)))) /\
  (forall (airbnb_file : list Csv.row) (city_sa2 : list SA2Geo),
      Forall (fun l => Csv.room_type l = "Entire home/apt" ->
                       price_cell (Csv.price l) /\ bed_number (Csv.bedrooms l))
        airbnb_file ->
      Exists (fun l => is_text (Csv.price l) = true) airbnb_file ->
      exists out : list (Joined.row string),
        airbnb_import airbnb_file city_sa2 = Ok out /\
        forall (l : Csv.row) (a : SA2Geo) (s : string) (ip fp : list nat),
          In l airbnb_file -> Csv.room_type l = "Entire home/apt" ->
          In a city_sa2 -> geometry a (Csv.longitude l) (Csv.latitude l) = true ->
          Csv.price l = Str s ->
          Forall (fun d => (d < 10)%nat) ip -> Forall (fun d => (d < 10)%nat) fp ->
          ip <> [] -> without "$" (without "," s) = amount_text ip fp ->
          exists r : Joined.row string,
            In r out /\ Joined.SA22018__1 r = geo_SA22018__1 a /\
            Joined.price r = times7 (round64 (amount ip fp))) /\
  (forall (airbnb_file : list Csv.row) (city_sa2 : list SA2Geo),
      airbnb_file <> [] ->
      Forall (fun l => is_text (Csv.price l) = false) airbnb_file ->
      airbnb_import airbnb_file city_sa2 = Raise AttributeError) /\
  amount [1; 2; 3; 4]%nat [0; 0]%nat = 1234%Q /\
  weekly_price (Str "$1,234.00") = Ok (Num 8638) /\
  weekly_price (Str "$1e3") = Ok (Num 7000) /\
  weekly_price (Str " $100.00") = Ok (Num 700) /\
  weekly_price (Str "$0.10") = Ok (Num (6305039478318695 # 9007199254740992)) /\
  weekly_price (Str "$1e999") = Ok (Inf false) /\
  weekly_price (Str "$abc") = Raise ValueError /\
  weekly_price (Str "") = Raise ValueError /\
  weekly_price NaN = Ok NaN.
Proof.
  split; [exact weekly_price_amount |].
  split; [exact weekly_price_whole |].
  split.
  { intros file sa2 Hcells Htext.
    destruct (airbnb_import_returns file sa2 Hcells Htext) as (out & Himp).
    exists out. split; [exact Himp |].
    intros l a s ip fp Hl Htype Ha Hin Hs Hip Hfp Hne Htxt.
    destruct (airbnb_import_listing _ _ _ l a Himp Hl Htype Ha Hin)
      as (r & b & Hr & Hsa2 & Hw & _).
    rewrite Hs, (weekly_price_amount s ip fp Hip Hfp Hne Htxt) in Hw.
    injection Hw as Hw. exists r. auto. }
  split; [exact airbnb_import_numeric |].
  repeat split; vm_compute; reflexivity.
Qed.

(** ** The price tables *)



(** ** The store under [add_ratios] *)

Lemma update_agg_at (r : nat) (g : AggFrame -> AggFrame) (σ : store) (f : AggFrame) :
  σ !! r = Some (ObjAgg f) -> update_agg r g σ = (Ok tt, <[r := ObjAgg (g f)]> σ).
Proof. intros H. unfold update_agg. now rewrite H. Qed.



(** [add_ratios] as the loop followed by the join. *)
Lemma add_ratios_unfold (aggregate_df city_sa2 : nat) :
  add_ratios aggregate_df city_sa2 =
    (df ← read_agg aggregate_df;
     _ ← for_each (imap (fun index row => (index, row)) (agg_rows df)) (ratio_step aggregate_df);
     df ← read_agg aggregate_df;
     geo ← read_geo city_sa2;
     alloc (ObjComparison (merge_geo geo df))).
Proof. reflexivity. Qed.


(** *** The columns that the loop writes *)

Lemma loc_set_next (v : value) (done : list value) (m : nat) :
  loc_set (length done + S m) (length done) v
    (match done with
     | [] => None
     | _ => Some (done ++ replicate (S m) NaN)
     end)
  = Some ((done ++ [v]) ++ replicate m NaN).
Proof.
  unfold loc_set. f_equal. destruct done as [| d done].
  - reflexivity.
  - change (default _ (Some ?l)) with l.
    rewrite insert_app_r_alt by lia. rewrite Nat.sub_diag, <- app_assoc. reflexivity.
Qed.

Lemma started_snoc {A : Type} (c : A -> value) (done : list A) (row : A) (m : nat) :
  match done ++ [row] with
  | [] => None
  | _ => Some (map c (done ++ [row]) ++ replicate m NaN)
  end = Some ((map c done ++ [c row]) ++ replicate m NaN).
Proof.
  rewrite map_app. destruct done; reflexivity.
Qed.

(** The loop over the rows still to do, on a frame whose ratio columns are
    filled for the rows done: when no ratio raises, it ends with both
    columns filled for every row. *)
Lemma for_each_columns (r : nat) (c p : Agg.row -> value) (rest : list Agg.row) :
  forall (done : list Agg.row) (σ : store),
    Forall (fun row => count_ratio row = Ok (c row) /\ price_ratio row = Ok (p row)) rest ->
    σ !! r = Some (ObjAgg (mkAggFrame (done ++ rest)
               (match done with
                | [] => None
                | _ => Some (map c done ++ replicate (length rest) NaN)
                end)
               (match done with
                | [] => None
                | _ => Some (map p done ++ replicate (length rest) NaN)
                end))) ->
    for_each (imap (fun i row => (length done + i, row)%nat) rest) (ratio_step r) σ =
      (Ok tt,
       <[r := ObjAgg (mkAggFrame (done ++ rest)
                 (match done ++ rest with
                  | [] => None
                  | _ => Some (map c (done ++ rest))
                  end)
                 (match done ++ rest with
                  | [] => None
                  | _ => Some (map p (done ++ rest))
                  end))]> σ).
Proof.
  induction rest as [| row rest IH]; intros done σ Hok Hr.
  - cbn [imap for_each]. unfold mret, M_ret. rewrite app_nil_r in *.
    cbn [length replicate] in Hr. rewrite insert_id; [reflexivity |].
    rewrite Hr. destruct done; [reflexivity |]. now rewrite !app_nil_r.
  - apply Forall_cons in Hok as [[Hc Hp] Hok].
    rewrite imap_cons. cbn [for_each]. unfold mbind at 1, M_bind at 1.
    unfold ratio_step at 1. cbn [fst snd]. rewrite Hc, Hp.
    unfold mbind, M_bind, lift.
    rewrite (update_agg_at _ _ _ _ Hr).
    rewrite (update_agg_at r _ _ _ (lookup_insert_eq _ _ _)).
    rewrite insert_insert_eq.
    unfold set_price_ratio, set_count_ratio;
      cbn [agg_rows count_ratio_col price_ratio_col].
    rewrite Nat.add_0_r, length_app. cbn [length].
    pose proof (loc_set_next (c row) (map c done) (length rest)) as Ec.
    pose proof (loc_set_next (p row) (map p done) (length rest)) as Ep.
    rewrite !length_map in Ec, Ep.
    assert (forall (q : Agg.row -> value),
              match done with
              | [] => None
              | _ => Some (map q done ++ replicate (S (length rest)) NaN)
              end =
              match map q done with
              | [] => None
              | _ => Some (map q done ++ replicate (S (length rest)) NaN)
              end) as Hshape by (intros q; destruct done; reflexivity).
    rewrite (Hshape c), (Hshape p), Ec, Ep.
    specialize (IH (done ++ [row]) (<[r := ObjAgg (mkAggFrame (done ++ row :: rest)
        (Some ((map c done ++ [c row]) ++ replicate (length rest) NaN))
        (Some ((map p done ++ [p row]) ++ replicate (length rest) NaN)))]> σ) Hok).
    rewrite !started_snoc, <- !app_assoc in IH. cbn [app] in IH.
    rewrite lookup_insert_eq, insert_insert_eq in IH.
    rewrite <- (IH eq_refl).
    f_equal.
    + apply imap_ext. intros i x _. cbn. f_equal.
      rewrite length_app. cbn [length]. lia.
    + now rewrite <- !app_assoc.
Qed.

(** When no ratio raises, [add_ratios] leaves the frame it was handed with
    its rows and with the two ratio columns, computed row by row. *)
Lemma add_ratios_columns (σ : store) (aggregate_df city_sa2 : nat)
    (rws : list Agg.row) (g : list SA2Geo) (c p : Agg.row -> value) :
  σ !! aggregate_df = Some (ObjAgg (mkAggFrame rws None None)) ->
  σ !! city_sa2 = Some (ObjGeo g) ->
  Forall (fun row => count_ratio row = Ok (c row) /\ price_ratio row = Ok (p row)) rws ->
  rws <> [] ->
  exists out : nat,
    fst (add_ratios aggregate_df city_sa2 σ) = Ok out /\
    snd (add_ratios aggregate_df city_sa2 σ) !! aggregate_df =
      Some (ObjAgg (mkAggFrame rws (Some (map c rws)) (Some (map p rws)))).
Proof.
  intros Hagg Hgeo Hok Hne.
  assert (city_sa2 <> aggregate_df) as Hdiff by (intros ->; congruence).
  pose proof (for_each_columns aggregate_df c p rws [] σ Hok Hagg) as Hloop.
  cbn [length Nat.add app] in Hloop.
  destruct rws as [| row rws]; [contradiction |].
  set (f' := mkAggFrame (row :: rws) (Some (map c (row :: rws))) (Some (map p (row :: rws)))) in *.
  set (σ1 := <[aggregate_df := ObjAgg f']> σ) in *.
  assert (add_ratios aggregate_df city_sa2 σ =
            (Ok (fresh (dom σ1)),
             <[fresh (dom σ1) := ObjComparison (merge_geo g f')]> σ1)) as ->.
  { rewrite add_ratios_unfold. unfold mbind, M_bind.
    unfold read_agg at 1. rewrite Hagg. cbn [agg_rows]. rewrite Hloop.
    unfold read_agg, read_geo, alloc.
    assert (σ1 !! aggregate_df = Some (ObjAgg f')) as -> by apply lookup_insert_eq.
    assert (σ1 !! city_sa2 = Some (ObjGeo g)) as ->
      by (unfold σ1; rewrite lookup_insert_ne by congruence; exact Hgeo).
    reflexivity. }
  cbn [fst snd]. eexists. split; [reflexivity |].
  rewrite lookup_insert_ne; [apply lookup_insert_eq |].
  intros E. pose proof (is_fresh (dom σ1)) as Hfresh.
  rewrite E in Hfresh. apply Hfresh, elem_of_dom.
  unfold σ1. rewrite lookup_insert_eq. eauto.
Qed.







(** C1. For every row of the aggregate table the count ratio is the
    piecewise policy applied to the listing count and the rental count, and
    the price ratio is the same policy applied to the listing price and the
    rental average price; [add_ratios] stores these values, row by row, in
    the columns [count_ratio] and [price_ratio] of the table; the policy
    gives 0 at (0, 0), -5 at (5, 0) and 5 at (0, 5). *)
Theorem add_ratios_policy :
  (forall (row : Agg.row) (a b : Q),
      Agg.Airbnb_count row = Num a -> Agg.rental_count row = Num b ->
      count_ratio row = Ok (Num (ratio_policy a b))) /\
  (forall (row : Agg.row) (a b : Q),
      Agg.Airbnb_price row = Num a -> Agg.rental_price_average row = Num b ->
      price_ratio row = Ok (Num (ratio_policy a b))) /\
  (forall (σ : store) (aggregate_df city_sa2 : nat) (rws : list Agg.row) (g : list SA2Geo),
      σ !! aggregate_df = Some (ObjAgg (mkAggFrame rws None None)) ->
      σ !! city_sa2 = Some (ObjGeo g) ->
      Forall numeric rws -> rws <> [] ->
      exists (out : nat) (cr pr : list value),
        fst (add_ratios aggregate_df city_sa2 σ) = Ok out /\
        snd (add_ratios aggregate_df city_sa2 σ) !! aggregate_df =
          Some (ObjAgg (mkAggFrame rws (Some cr) (Some pr))) /\
        forall (i : nat) (row : Agg.row) (a b c d : Q),
          rws !! i = Some row ->
          Agg.Airbnb_count row = Num a -> Agg.rental_count row = Num b ->
          Agg.Airbnb_price row = Num c -> Agg.rental_price_average row = Num d ->
          cr !! i = Some (Num (ratio_policy a b)) /\
          pr !! i = Some (Num (ratio_policy c d))) /\
  (forall a b : Q,
      ratio_policy a b =
        if Qeq_bool a b then 0%Q
        else if Qltb b a then
          (if Qeq_bool b 0 then a * ((-1 # 1) / (b + 1)) else a * ((-1 # 1) / b))%Q
        else
          (if Qeq_bool a 0 then b * (1 / (a + 1)) else b * (1 / a))%Q) /\
  ratio_policy 0 0 = 0%Q /\ ratio_policy 5 0 = (-5 # 1)%Q /\ ratio_policy 0 5 = 5%Q.
Proof.
  split; [exact count_ratio_policy |].
  split; [exact price_ratio_policy |].
  split.
  { intros σ agg sa2 rws g Hagg Hgeo Hnum Hne.
    destruct (add_ratios_columns σ agg sa2 rws g count_ratio_value price_ratio_value
                Hagg Hgeo) as (out & Hout & Hframe); [| exact Hne |].
    { eapply Forall_impl; [exact Hnum |]. intros row (a & b & c & d & Ha & Hb & Hc & Hd).
      unfold count_ratio_value, price_ratio_value.
      now rewrite (count_ratio_policy row a b Ha Hb), (price_ratio_policy row c d Hc Hd). }
    exists out, (map count_ratio_value rws), (map price_ratio_value rws).
    split; [exact Hout |]. split; [exact Hframe |].
    intros i row a b c d Hi Ha Hb Hc Hd.
    rewrite !list_lookup_fmap, Hi. cbn [fmap option_fmap option_map].
    unfold count_ratio_value, price_ratio_value.
    now rewrite (count_ratio_policy row a b Ha Hb), (price_ratio_policy row c d Hc Hd). }
  split; [reflexivity |].
  repeat split; vm_compute; reflexivity.
Qed.

(** ** The run on the example *)

(** C4, on the code. The scenario in the script's own enumeration of nine
    categories: areas A and B, five one-bedroom rentals and three
    one-bedroom listings in A, nothing in B.  The table has 18 rows (2
    areas by 9 categories); at (B, "total") the rental count is 0, the
    listing count is 1 (the row that the left join keeps for an area without
    listings is counted), and the count ratio is -1. *)
Theorem scenario_count_ratios :
  (map count_cells <$> fst (main scenario_rental scenario_listings scenario_sa2 ∅)) =
    Ok [("A", "1", Num 5, Num 3, Num (5 # 3));
        ("A", "2", Num 0, Num 0, Num 0);
        ("A", "3", Num 0, Num 0, Num 0);
        ("A", "4", Num 0, Num 0, Num 0);
        ("A", "5", Num 0, Num 0, Num 0);
        ("A", "6", Num 0, Num 0, Num 0);
        ("A", "7", Num 0, Num 0, Num 0);
        ("A", "8 or more", Num 0, Num 0, Num 0);
        ("A", "total", Num 5, Num 3, Num (5 # 3));
        ("B", "1", Num 0, Num 0, Num 0);
        ("B", "2", Num 0, Num 0, Num 0);
        ("B", "3", Num 0, Num 0, Num 0);
        ("B", "4", Num 0, Num 0, Num 0);
        ("B", "5", Num 0, Num 0, Num 0);
        ("B", "6", Num 0, Num 0, Num 0);
        ("B", "7", Num 0, Num 0, Num 0);
        ("B", "8 or more", Num 0, Num 0, Num 0);
        ("B", "total", Num 0, Num 1, Num (-1 # 1))].
Proof. vm_compute. reflexivity. Qed.

(** C3, on the code. On the same rental table, where only the categories
    "1" and "total" have a household in a price band, the completed
    rental-price table has the four keys of those two categories, not the
    18 keys of the two areas by the nine canonical categories that the
    rental counts and the listing counts have. *)
Theorem scenario_rental_price_keys :
  (map key_of <$>
     (incomplete ← assign_rental_price scenario_rental;
      fill_rental_price scenario_rental incomplete)) =
    Ok [("A", "1"); ("A", "total"); ("B", "1"); ("B", "total")] /\
  length (all_combinations (unique (index scenario_rental)) BEDROOMS_ORDER) = 18%nat /\
  map key_of (rental_count scenario_rental) =
    all_combinations (unique (index scenario_rental)) BEDROOMS_ORDER /\
  ((fun city_airbnb_df => map key_of (airbnb_count city_airbnb_df scenario_rental)) <$>
     airbnb_import scenario_listings scenario_sa2) =
    Ok (all_combinations (unique (index scenario_rental)) BEDROOMS_ORDER).
Proof. repeat split; vm_compute; reflexivity. Qed.

(** ** The keys of the completed tables *)

Lemma insert_by_map {A B : Type} (f : A -> B) (leb : B -> B -> bool) (x : A) (l : list A) :
  map f (insert_by (fun a b => leb (f a) (f b)) x l) = insert_by leb (f x) (map f l).
Proof.
  induction l as [| y l IH]; cbn [insert_by map]; [reflexivity |].
  destruct (leb (f x) (f y)); cbn [map]; [reflexivity | now rewrite IH].
Qed.

Lemma sort_by_map {A B : Type} (f : A -> B) (leb : B -> B -> bool) (l : list A) :
  map f (sort_by (fun a b => leb (f a) (f b)) l) = sort_by leb (map f l).
Proof.
  induction l as [| x l IH]; [reflexivity |].
  cbn [sort_by foldr map]. fold (sort_by (fun a b => leb (f a) (f b)) l).
  fold (sort_by leb (map f l)). now rewrite insert_by_map, IH.
Qed.

Lemma sort_values_keys {A : Type} (df : list (Row A)) :
  map key_of (sort_values df) = sort_by key_leb (map key_of df).
Proof. apply (sort_by_map key_of key_leb). Qed.

Lemma map_cols_keys {A B : Type} (f : A -> B) (df : list (Row A)) :
  map key_of (map_cols f df) = map key_of df.
Proof.
  unfold map_cols. rewrite map_map. apply map_ext. reflexivity.
Qed.

(** In a frame without a repeated key, a key has no row or one row. *)
Lemma filter_key_unique {A : Type} (left : list (Row A)) (k : key) :
  NoDup (map key_of left) ->
  List.filter (fun r => key_eqb (key_of r) k) left = [] \/
  exists r, List.filter (fun r => key_eqb (key_of r) k) left = [r] /\ key_of r = k.
Proof.
  induction left as [| r left IH]; intros Hnd; [now left |].
  cbn [map] in Hnd. apply NoDup_cons in Hnd as [Hnotin Hnd].
  cbn [List.filter]. destruct (key_eqb (key_of r) k) eqn:E; [| now apply IH].
  apply key_eqb_eq in E. right. exists r. split; [| exact E].
  f_equal. apply filter_none. intros r' Hr'. apply not_true_iff_false.
  rewrite key_eqb_eq. intros E'. apply Hnotin. rewrite E, <- E'.
  apply list_elem_of_In, in_map, Hr'.
Qed.

(** The right merge with a frame without a repeated key has the keys of
    the right-hand frame, once each and in its order. *)
Lemma merge_right_keys {A : Type} (nan : A) (left : list (Row A)) (right : list key) :
  NoDup (map key_of left) -> map key_of (merge_right nan left right) = right.
Proof.
  intros Hnd. unfold merge_right.
  induction right as [| k right IH]; [reflexivity |].
  cbn [flat_map]. rewrite map_app, IH. clear IH.
  destruct (filter_key_unique left k Hnd) as [-> | (r & -> & Hr)].
  - destruct k. reflexivity.
  - cbn [map app]. now rewrite Hr.
Qed.

Lemma unique_keys_In (l : list key) (x : key) : In x (unique_keys l) <-> In x l.
Proof.
  induction l as [| y l IH]; cbn [unique_keys In]; [tauto |].
  rewrite filter_In, IH, negb_true_iff, <- not_true_iff_false, key_eqb_eq.
  destruct (decide (y = x)); tauto.
Qed.

Lemma unique_keys_NoDup (l : list key) : NoDup (unique_keys l).
Proof.
  induction l as [| x l IH]; cbn [unique_keys]; [constructor |].
  apply NoDup_cons. split.
  - rewrite list_elem_of_In, filter_In, key_eqb_refl. intros [_ [=]].
  - apply NoDup_ListNoDup, List.NoDup_filter, NoDup_ListNoDup, IH.
Qed.

Lemma unique_NoDup (l : list string) : NoDup (unique l).
Proof.
  induction l as [| x l IH]; cbn [unique]; [constructor |].
  apply NoDup_cons. split.
  - rewrite list_elem_of_In, filter_In, String.eqb_refl. intros [_ [=]].
  - apply NoDup_ListNoDup, List.NoDup_filter, NoDup_ListNoDup, IH.
Qed.

Lemma NoDup_map_inj {A B : Type} (f : A -> B) (l : list A) :
  (forall x y, f x = f y -> x = y) -> NoDup l -> NoDup (map f l).
Proof.
  intros Hinj. induction 1 as [| x l Hx _ IH]; cbn [map]; constructor; [| exact IH].
  rewrite list_elem_of_In, in_map_iff. intros (y & E & Hy).
  apply Hinj in E. subst y. apply Hx, list_elem_of_In, Hy.
Qed.

Lemma all_combinations_NoDup (sa2s beds : list string) :
  NoDup sa2s -> NoDup beds -> NoDup (all_combinations sa2s beds).
Proof.
  intros Ha Hb. unfold all_combinations.
  induction Ha as [| a sa2s Hnotin _ IH]; cbn [flat_map]; [constructor |].
  apply NoDup_app. split; [| split; [| exact IH]].
  - apply NoDup_map_inj; [intros b1 b2 [=]; auto | exact Hb].
  - intros [a' b'] H1 H2. apply list_elem_of_In in H1, H2.
    apply in_map_iff in H1 as (b & [= <- <-] & _).
    change (In (a, b) (all_combinations sa2s beds)) in H2.
    apply all_combinations_In in H2 as [H2 _]. apply Hnotin, list_elem_of_In, H2.
Qed.

(** The key columns of a grouped frame followed by its per-area totals:
    no key twice, when no group has the category "total". *)
Lemma grouped_keys_NoDup (keys : list key) (areas : list string) :
  (forall k, In k keys -> snd k <> "total") ->
  NoDup (sort_by key_leb (unique_keys keys) ++
         map (fun a => (a, "total")) (sort_by String.leb (unique areas))).
Proof.
  intros Htotal. apply NoDup_app. split; [| split].
  - rewrite sort_by_perm. apply unique_keys_NoDup.
  - intros k H1 H2. apply list_elem_of_In in H1, H2.
    apply sort_by_In in H1. apply (proj1 (unique_keys_In _ _)) in H1.
    apply in_map_iff in H2 as (a & <- & _). now apply (Htotal _ H1).
  - apply NoDup_map_inj; [intros a1 a2 [=]; auto |].
    rewrite sort_by_perm. apply unique_NoDup.
Qed.

(** The listing counts have exactly the keys of the areas of the rental
    index by [BEDROOMS_ORDER], sorted, once each. *)
Lemma airbnb_count_keys (city_airbnb_df : list (Joined.row string)) (rental_df : RentalDf) :
  (forall r, In r city_airbnb_df -> Joined.bedrooms r <> "total") ->
  map key_of (airbnb_count city_airbnb_df rental_df) =
    sort_by key_leb (all_combinations (unique (index rental_df)) BEDROOMS_ORDER).
Proof.
  intros Htotal. unfold airbnb_count.
  rewrite sort_values_keys, map_cols_keys, merge_right_keys; [reflexivity |].
  rewrite map_app. unfold groupby_size at 1, total_counts. rewrite !map_map.
  cbn [key_of SA22018__1 bedrooms].
  erewrite (map_ext (fun x : key => (fst x, snd x)) id) by (intros []; reflexivity).
  rewrite map_id. apply grouped_keys_NoDup.
  intros k Hk. apply in_map_iff in Hk as (r & <- & Hr). now apply Htotal.
Qed.

(** The listing median prices have the same keys. *)
Lemma airbnb_price_keys (city_airbnb_df : list (Joined.row string)) (rental_df : RentalDf) :
  (forall r, In r city_airbnb_df -> Joined.bedrooms r <> "total") ->
  map key_of (airbnb_price city_airbnb_df rental_df) =
    sort_by key_leb (all_combinations (unique (index rental_df)) BEDROOMS_ORDER).
Proof.
  intros Htotal. unfold airbnb_price.
  rewrite sort_values_keys, map_cols_keys, merge_right_keys; [reflexivity |].
  rewrite map_app. unfold groupby_median, total_median. rewrite !map_map.
  cbn [key_of SA22018__1 bedrooms].
  erewrite (map_ext (fun x : key => (fst x, snd x)) id) by (intros []; reflexivity).
  rewrite map_id. apply grouped_keys_NoDup.
  intros k Hk. apply in_map_iff in Hk as (r & <- & Hr). now apply Htotal.
Qed.

(** The completed rental prices have the keys of the areas of the rental
    index by the categories that occur in the partial table. *)
Lemma fill_rental_price_keys (rental_df : RentalDf) (incomplete : list (Row value))
    (filled : list (Row RentalPrice)) :
  fill_rental_price rental_df incomplete = Ok filled ->
  NoDup (map key_of incomplete) ->
  map key_of filled =
    sort_by key_leb
      (all_combinations (unique (index rental_df)) (unique (map bedrooms incomplete))).
Proof.
  intros Hfill Hnd. unfold fill_rental_price in Hfill.
  destruct incomplete as [| r0 incomplete]; [discriminate |].
  injection Hfill as <-.
  now rewrite map_cols_keys, sort_values_keys, map_cols_keys, merge_right_keys.
Qed.

(** The number of rows, and no key twice. *)
Lemma complete_keys_card (sa2s beds : list string) (keys : list key) :
  keys = sort_by key_leb (all_combinations (unique sa2s) beds) -> NoDup beds ->
  length keys = (length (unique sa2s) * length beds)%nat /\ NoDup keys.
Proof.
  intros -> Hb. split.
  - now rewrite sort_by_length, all_combinations_length.
  - rewrite sort_by_perm. apply all_combinations_NoDup; [apply unique_NoDup | exact Hb].
Qed.

Lemma str_of_Z_head (n : Z) :
  exists (c : ascii) (s : string),
    str_of_Z n = String c s /\ c <> "."%char /\ c <> "t"%char.
Proof.
  unfold str_of_Z, NilZero.string_of_int.
  destruct (Z.to_int n) as [d | d]; destruct d; cbn;
    eexists _, _; (split; [reflexivity | split; discriminate]).
Qed.

Lemma str_replace_dot0_head (c : ascii) (s : string) :
  c <> "."%char ->
  str_replace ".0" "" (String c s) = String c (str_replace ".0" "" s).
Proof.
  intros Hdot. unfold str_replace. cbn [sub_matches]. unfold literal at 1.
  cbn [strip_prefix]. destruct (Ascii.eqb_spec "."%char c) as [E | _]; [| reflexivity].
  now subst c.
Qed.

(** No row of [airbnb_import] has the category "total". *)
Lemma bedrooms_str_not_total (b0 b : bed) :
  cap_bedrooms b0 = Ok b -> bedrooms_str b <> "total".
Proof.
  destruct b0 as [n | | s]; cbn [cap_bedrooms]; intros [= <-]; [| discriminate].
  destruct (7 <? n); [discriminate |].
  unfold bedrooms_str, str_of_float_Z.
  destruct (str_of_Z_head n) as (c & s & -> & Hdot & Ht).
  change (String c s +:+ ".0") with (String c (s +:+ ".0")).
  rewrite (str_replace_dot0_head c _ Hdot).
  intros H. injection H as E _. now apply Ht.
Qed.

Lemma airbnb_import_no_total (airbnb_file : list Csv.row) (city_sa2 : list SA2Geo)
    (out : list (Joined.row string)) :
  airbnb_import airbnb_file city_sa2 = Ok out ->
  forall r, In r out -> Joined.bedrooms r <> "total".
Proof.
  intros Himp r Hr. unfold airbnb_import in Himp.
  destruct (str_accessor _ _) as [[] |] eqn:Eacc; cbn in Himp; [| discriminate].
  destruct (rmapM _ (sjoin_left _ _)) as [priced |] eqn:E1; cbn in Himp; [| discriminate].
  destruct (rmapM _ priced) as [capped |] eqn:E2; cbn in Himp; [| discriminate].
  injection Himp as <-. apply in_map_iff in Hr as (x & <- & Hx).
  cbn [Joined.bedrooms]. apply rmapM_Forall2 in E2.
  clear E1. induction E2 as [| p c ps cs Hpc _ IH]; [destruct Hx |].
  destruct Hx as [<- | Hx]; [| now apply IH].
  destruct (cap_bedrooms (Joined.bedrooms p)) as [b |] eqn:Hb; cbn in Hpc; [| discriminate].
  injection Hpc as <-. cbn [Joined.bedrooms]. now apply (bedrooms_str_not_total _ _ Hb).
Qed.

(** The two listing tables that [main] builds are complete: one row for
    every area of the rental index and every category of
    [BEDROOMS_ORDER], in key order, and no key twice. *)
Lemma listing_tables_complete (airbnb_file : list Csv.row) (city_sa2 : list SA2Geo)
    (city_airbnb_df : list (Joined.row string)) (rental_df : RentalDf) :
  airbnb_import airbnb_file city_sa2 = Ok city_airbnb_df ->
  let domain := all_combinations (unique (index rental_df)) BEDROOMS_ORDER in
  map key_of (airbnb_count city_airbnb_df rental_df) = sort_by key_leb domain /\
  map key_of (airbnb_price city_airbnb_df rental_df) = sort_by key_leb domain /\
  length (airbnb_count city_airbnb_df rental_df) = (length (unique (index rental_df)) * 9)%nat /\
  length (airbnb_price city_airbnb_df rental_df) = (length (unique (index rental_df)) * 9)%nat /\
  NoDup (map key_of (airbnb_count city_airbnb_df rental_df)) /\
  NoDup (map key_of (airbnb_price city_airbnb_df rental_df)).
Proof.
  intros Himp domain.
  pose proof (airbnb_import_no_total _ _ _ Himp) as Htotal.
  pose proof (airbnb_count_keys _ rental_df Htotal) as Hc.
  pose proof (airbnb_price_keys _ rental_df Htotal) as Hp.
  assert (NoDup BEDROOMS_ORDER) as Hb
    by (apply NoDup_ListNoDup; repeat constructor; cbn; intuition discriminate).
  destruct (complete_keys_card (index rental_df) BEDROOMS_ORDER _ Hc Hb) as [Hlc Hnc].
  destruct (complete_keys_card (index rental_df) BEDROOMS_ORDER _ Hp Hb) as [Hlp Hnp].
  rewrite length_map in Hlc, Hlp.
  repeat split; assumption.
Qed.

(** ** Instances of the theorems on the examples *)

Lemma add_ratios_policy_witness :
  count_ratio (pair_row 5 0) = Ok (Num (ratio_policy 5 0)) /\
  price_ratio (pair_row 0 5) = Ok (Num (ratio_policy 0 5)).
Proof.
  destruct add_ratios_policy as (Hc & Hp & _).
  split; [apply Hc | apply Hp]; reflexivity.
Defined.

Lemma ratio_antisymmetric_witness :
  (exists x : Q,
     count_ratio (pair_row 3 5) = Ok (Num x) /\
     count_ratio (pair_row 5 3) = Ok (Num (- x)) /\ ~ (x == 0)%Q) /\
  (exists v : value,
     ratio_float64 (Num 3) (Num 5) = Ok v /\
     ratio_float64 (Num 5) (Num 3) = Ok (value_opp v) /\ is_positive v).
Proof.
  assert (~ (3 == 0)%Q) as H3 by (intros H; vm_compute in H; discriminate H).
  assert (~ (5 == 0)%Q) as H5 by (intros H; vm_compute in H; discriminate H).
  assert (~ (3 == 5)%Q) as H35 by (intros H; vm_compute in H; discriminate H).
  assert (float_range 3) as R3 by (split; vm_compute; discriminate).
  assert (float_range 5) as R5 by (split; vm_compute; discriminate).
  destruct (ratio_antisymmetric (pair_row 3 5) (pair_row 5 3) 3 5 H3 H5 H35)
    as (Hc & _ & v & Hv & Hv' & _ & Hsign).
  split.
  - destruct (Hc eq_refl eq_refl eq_refl eq_refl) as (x & Hx & Hx' & Hnz & _).
    exists x. auto.
  - exists v. split; [exact Hv |]. split; [exact Hv' |].
    apply (Hsign R3 R5). reflexivity.
Defined.

Lemma walk_in_bounds_witness :
  exists (i : nat) (c : Z),
    walk (float_of_int64 (int64_sum [0; 0; 0; 0; 5; 0; 0; 0]) * 0.5)
      [0; 0; 0; 0; 5; 0; 0; 0] O 0 = Stopped i c /\
    (1 <= i <= 8)%nat.
Proof.
  assert (In ("A", [0; 0; 0; 0; 5; 0; 0; 0])
            (rows (iloc_cols (8 * 0) (8 * 0 + 8) (filter_like "$" scenario_rental))))
    as Hin by (left; reflexivity).
  assert (Forall (fun c => 0 <= c) [0; 0; 0; 0; 5; 0; 0; 0]) as Hnonneg
    by (repeat constructor; discriminate).
  destruct (walk_in_bounds _ _ _ _ Hin Hnonneg) as (_ & _ & Hpos & _).
  destruct (Hpos eq_refl) as (i & c & Hw & Hi & _).
  exists i, c. split; [exact Hw | exact Hi].
Defined.

Lemma bedroom_categories_witness :
  exists r : Joined.row string,
    In r scenario_airbnb_df /\ Joined.SA22018__1 r = "A" /\ Joined.bedrooms r = "1".
Proof.
  destruct (bedroom_categories scenario_listings scenario_sa2 scenario_airbnb_df
              (Csv.mk 0 0.7 "Entire home/apt" (Str "$1,234.00") BedNaN)
              (mkSA2Geo "A" (fun lon lat => Qle_bool 0 lon && Qltb lon 1)))
    as (r & Hr & Hsa2 & Hnan & _);
    [reflexivity | right; right; left; reflexivity | reflexivity
    | left; reflexivity | reflexivity |].
  exists r. split; [exact Hr |]. split; [exact Hsa2 | apply Hnan; reflexivity].
Defined.

Lemma weekly_price_conversion_witness :
  exists out : list (Joined.row string),
    airbnb_import scenario_listings scenario_sa2 = Ok out /\
    exists r : Joined.row string,
      In r out /\ Joined.SA22018__1 r = "A" /\
      Joined.price r = times7 (round64 (amount [1; 2; 3; 4]%nat [0; 0]%nat)).
Proof.
  destruct weekly_price_conversion as (_ & _ & Himp & _).
  destruct (Himp scenario_listings scenario_sa2) as (out & Hout & Hrows).
  - unfold scenario_listings.
    repeat (apply List.Forall_cons; [intros _; split; [right | exact I] |]);
      [| | | apply List.Forall_nil].
    + exists "$100.00", [1; 0; 0]%nat, [0; 0]%nat.
      repeat split; try reflexivity; try discriminate;
        repeat (constructor; [lia |]); constructor.
    + exists "$150.00", [1; 5; 0]%nat, [0; 0]%nat.
      repeat split; try reflexivity; try discriminate;
        repeat (constructor; [lia |]); constructor.
    + exists "$1,234.00", [1; 2; 3; 4]%nat, [0; 0]%nat.
      repeat split; try reflexivity; try discriminate;
        repeat (constructor; [lia |]); constructor.
  - left. reflexivity.
  - exists out. split; [exact Hout |].
    apply (Hrows (Csv.mk 0 0.7 "Entire home/apt" (Str "$1,234.00") BedNaN)
             (mkSA2Geo "A" (fun lon lat => Qle_bool 0 lon && Qltb lon 1)) "$1,234.00");
      [right; right; left; reflexivity | reflexivity | left; reflexivity | reflexivity
      | reflexivity | repeat (constructor; [lia |]); constructor
      | repeat (constructor; [lia |]); constructor | discriminate | reflexivity].
Defined.



(** * Further properties of the pipeline *)

(** ** The selector on any row *)

Lemma select_bucket_cases (row : list Z) :
  (int64_sum row <= 0 /\ select_bucket row = Ok None) \/
  (0 < int64_sum row /\
   exists k : nat, select_bucket row = Ok (Some (Z.of_nat k)) /\ (k < length row)%nat).
Proof.
  destruct (Z_lt_le_dec 0 (int64_sum row)) as [Hpos | Hle].
  - right. split; [exact Hpos |].
    destruct (select_bucket_positive row Hpos) as (k & _ & Hsel & Hk & _). eauto.
  - left. split; [exact Hle |]. now apply select_bucket_zero.
Qed.

(** X1. The bucket selector raises nothing on any row of [int64] counts,
    of any signs and any length: it selects a bucket inside the row when
    the total that [row.sum()] gives, the sum modulo [2 ^ 64], is positive,
    and selects nothing when that total is zero or negative. *)
Theorem select_bucket_never_raises (row : list Z) :
  exists sel : option Z,
    select_bucket row = Ok sel /\
    int64_sum row = wrap64 (sum_Z row) /\
    (sel = None <-> int64_sum row <= 0) /\
    (forall j : Z, sel = Some j -> 0 <= j < Z.of_nat (length row)).
Proof.
  pose proof (int64_sum_wrap row) as Hwrap.
  destruct (select_bucket_cases row) as [[Hle Hsel] | [Hpos (k & Hsel & Hk)]].
  - exists None. split; [exact Hsel |]. split; [exact Hwrap |].
    split; [tauto | intros j [=]].
  - exists (Some (Z.of_nat k)). split; [exact Hsel |]. split; [exact Hwrap |]. split.
    + split; [intros [=] | lia].
    + intros j [= <-]. lia.
Qed.

(** ** [assign_rental_price] on a whole table *)

Lemma select_length {A B : Type} (mask : list bool) (l1 : list A) (l2 : list B) :
  length l1 = length l2 -> length (select mask l1) = length (select mask l2).
Proof.
  revert l1 l2. induction mask as [| b mask IH]; intros [| x l1] [| y l2] H;
    cbn [select length] in *; try reflexivity; try discriminate.
  injection H as H. destruct b; cbn [length]; auto.
Qed.


Lemma slice_length_eq {A B : Type} (lo hi : nat) (l1 : list A) (l2 : list B) :
  length l1 = length l2 -> length (slice lo hi l1) = length (slice lo hi l2).
Proof.
  intros H. unfold slice. now rewrite !length_take, !length_drop, H.
Qed.

Lemma slice_In {A : Type} (lo hi : nat) (l : list A) (x : A) :
  In x (slice lo hi l) -> In x l.
Proof.
  unfold slice. intros H. apply list_elem_of_In in H. apply list_elem_of_In.
  eapply subseteq_drop, subseteq_take, H.
Qed.

Lemma concat_length_bound {A : Type} (m : nat) (ls : list (list A)) :
  Forall (fun l => (length l <= m)%nat) ls -> (length (concat ls) <= length ls * m)%nat.
Proof.
  induction 1 as [| l ls Hl _ IH]; cbn [concat length]; [lia |].
  rewrite length_app. lia.
Qed.

Lemma filter_like_rectangular (sub : string) (df : RentalDf) :
  rectangular df -> rectangular (filter_like sub df).
Proof.
  unfold rectangular, filter_like; cbn [rows columns]. intros H.
  apply Forall_map. eapply Forall_impl; [exact H |].
  intros r Hr. cbn [snd]. now apply select_length.
Qed.

Lemma iloc_cols_rectangular (lo hi : nat) (df : RentalDf) :
  rectangular df -> rectangular (iloc_cols lo hi df).
Proof.
  unfold rectangular, iloc_cols; cbn [rows columns]. intros H.
  apply Forall_map. eapply Forall_impl; [exact H |].
  intros r Hr. cbn [snd]. now apply slice_length_eq.
Qed.

(** One block: no exception, at most one row for each area, each under an
    area of the block and with a label of the block. *)
Lemma assign_block_ok (col_subset : RentalDf) :
  rectangular col_subset ->
  exists out : list (Row value),
    assign_block col_subset = Ok out /\
    (length out <= length (rows col_subset))%nat /\
    forall r, In r out ->
      In (SA22018__1 r) (index col_subset) /\
      exists label, In label (columns col_subset) /\
        bedrooms r = bedrooms_of_label label /\
        cols r = Str (price_str_of_label label).
Proof.
  intros Hrect. unfold assign_block, index.
  set (body := fun r : string * list Z => _).
  assert (Forall (fun r => exists new, body r = Ok new /\ (length new <= 1)%nat /\
            forall x, In x new ->
              SA22018__1 x = fst r /\
              exists label, In label (columns col_subset) /\
                bedrooms x = bedrooms_of_label label /\
                cols x = Str (price_str_of_label label)) (rows col_subset)) as Hbody.
  { eapply Forall_impl; [exact Hrect |]. intros r Hr. unfold body. cbn beta in Hr.
    destruct (select_bucket_cases (snd r)) as [[_ ->] | [_ (k & -> & Hk)]];
      cbn [mbind result_bind].
    - exists []. split; [reflexivity |]. split; [cbn; lia | intros x []].
    - destruct (py_index_in_range (columns col_subset) k) as (label & Hl & ->); [lia |].
      eexists. split; [reflexivity |]. split; [cbn; lia |].
      intros x [<- | []]. cbn [SA22018__1 bedrooms cols]. split; [reflexivity |].
      exists label. split; [| auto]. apply list_elem_of_In.
      eapply list_elem_of_lookup_2, Hl. }
  clearbody body. revert Hbody. generalize (rows col_subset). intros rws Hbody.
  induction Hbody as [| r rws (new & Hnew & Hlen & Hin) _ (out & Hout & Hlo & Hall)].
  - exists []. cbn. split; [reflexivity |]. split; [lia | intros r []].
  - cbn [rmapM]. rewrite Hnew. cbn [mbind result_bind].
    destruct (rmapM body rws) as [news |] eqn:E; cbn in Hout; [| discriminate].
    injection Hout as <-. exists (new ++ concat news).
    split; [reflexivity |]. split; [rewrite length_app; cbn [length]; lia |].
    intros x Hx. apply in_app_iff in Hx as [Hx | Hx].
    + destruct (Hin x Hx) as [-> Hlabel]. split; [now left | exact Hlabel].
    + destruct (Hall x Hx) as [Harea Hlabel]. split; [now right | exact Hlabel].
Qed.

Lemma select_map_In {A : Type} (f : A -> bool) (l : list A) (x : A) :
  In x (select (map f l) l) -> In x l /\ f x = true.
Proof.
  induction l as [| y l IH]; cbn [map select]; [intros [] |].
  destruct (f y) eqn:E.
  - intros [<- | H]; [split; [now left | exact E] |].
    destruct (IH H). split; [now right | assumption].
  - intros H. destruct (IH H). split; [now right | assumption].
Qed.

Lemma index_filter_like (sub : string) (df : RentalDf) :
  index (filter_like sub df) = index df.
Proof.
  unfold index, filter_like; cbn [rows]. rewrite map_map. reflexivity.
Qed.

Lemma index_iloc_cols (lo hi : nat) (df : RentalDf) :
  index (iloc_cols lo hi df) = index df.
Proof.
  unfold index, iloc_cols; cbn [rows]. rewrite map_map. reflexivity.
Qed.

(** X2. On a rental table in which every row has one cell under every
    column, whatever the counts, [assign_rental_price] raises nothing.  It
    returns at most one row for each area and each whole block of eight
    priced columns; every row it returns is under an area of the table's
    index, and its category and price label are read from one column label
    of the table that contains a dollar sign. *)
Theorem assign_rental_price_total (rental_df : RentalDf) :
  rectangular rental_df ->
  exists out : list (Row value),
    assign_rental_price rental_df = Ok out /\
    (length out <=
       length (columns (filter_like "$" rental_df)) / 8 * length (rows rental_df))%nat /\
    forall r, In r out ->
      In (SA22018__1 r) (index rental_df) /\
      exists label, In label (columns rental_df) /\ contains "$" label = true /\
        bedrooms r = bedrooms_of_label label /\
        cols r = Str (price_str_of_label label).
Proof.
  intros Hrect. unfold assign_rental_price.
  set (priced := filter_like "$" rental_df).
  set (good := fun out : list (Row value) =>
    (length out <= length (rows rental_df))%nat /\
    forall r, In r out ->
      In (SA22018__1 r) (index rental_df) /\
      exists label, In label (columns rental_df) /\ contains "$" label = true /\
        bedrooms r = bedrooms_of_label label /\
        cols r = Str (price_str_of_label label)).
  destruct (rmapM_ok_with
              (fun k : nat => assign_block (iloc_cols (8 * k) (8 * k + 8) priced)) good
              (seq 0 (length (columns priced) / 8))) as (blocks & -> & Hgood & Hlen).
  { apply Forall_forall. intros k _.
    destruct (assign_block_ok (iloc_cols (8 * k) (8 * k + 8) priced))
      as (out & Hout & Hlo & Hall).
    { apply iloc_cols_rectangular, filter_like_rectangular, Hrect. }
    exists out. split; [exact Hout |]. split.
    - unfold iloc_cols, priced, filter_like in Hlo; cbn [rows] in Hlo.
      now rewrite !length_map in Hlo.
    - intros r Hr. destruct (Hall r Hr) as [Harea (label & Hlabel & Hbed & Hcols)].
      rewrite index_iloc_cols in Harea. unfold priced in Harea.
      rewrite index_filter_like in Harea. split; [exact Harea |].
      exists label. unfold iloc_cols in Hlabel; cbn [columns] in Hlabel.
      apply slice_In in Hlabel. unfold priced, filter_like in Hlabel; cbn [columns] in Hlabel.
      apply select_map_In in Hlabel as [Hin Hdollar]. auto. }
  cbn [mbind result_bind]. exists (concat blocks). split; [reflexivity |]. split.
  - rewrite length_seq in Hlen. rewrite <- Hlen. apply concat_length_bound.
    eapply Forall_impl; [exact Hgood |]. now intros out [Hlo _].
  - intros r Hr. apply in_concat in Hr as (out & Hout & Hr).
    rewrite Forall_forall in Hgood. apply list_elem_of_In in Hout.
    now apply (Hgood out Hout).
Qed.

Lemma assign_rental_price_total_witness :
  exists out : list (Row value),
    assign_rental_price scenario_rental = Ok out /\ (length out <= 9 * 2)%nat.
Proof.
  assert (rectangular scenario_rental) as Hrect by (repeat constructor).
  destruct (assign_rental_price_total scenario_rental Hrect) as (out & Hout & Hlen & _).
  exists out. split; [exact Hout | exact Hlen].
Defined.

(** ** A table without a household in any price band *)








(** ** The sign of a ratio *)

Lemma Qdiv_pos (p q : Q) : (0 < p)%Q -> (0 < q)%Q -> (0 < p * (1 / q))%Q.
Proof.
  intros Hp Hq. apply Qmult_lt_0_compat; [exact Hp |].
  unfold Qdiv. apply Qmult_lt_0_compat; [reflexivity | now apply Qinv_lt_0_compat].
Qed.

Lemma Qdiv_neg (p q : Q) : (0 < p)%Q -> (0 < q)%Q -> (p * ((-1 # 1) / q) < 0)%Q.
Proof.
  intros Hp Hq. rewrite Qmult_minus_inv.
  apply (Qopp_lt_compat 0 (p * (1 / q))). now apply Qdiv_pos.
Qed.

Lemma Qsucc_pos (q : Q) : (q == 0)%Q -> (0 < q + 1)%Q.
Proof. intros ->. reflexivity. Qed.

Lemma Qpos_of_nonzero (q : Q) : (0 <= q)%Q -> ~ (q == 0)%Q -> (0 < q)%Q.
Proof.
  intros Hle Hne. apply Qle_lteq in Hle as [Hlt | Heq]; [exact Hlt |].
  exfalso. apply Hne. now symmetry.
Qed.

Lemma ratio_policy_positive (a b : Q) :
  (0 <= a)%Q -> (a < b)%Q -> (0 < ratio_policy a b)%Q.
Proof.
  intros Ha Hlt. assert (0 < b)%Q as Hb by (eapply Qle_lt_trans; eassumption).
  unfold ratio_policy.
  assert (Qeq_bool a b = false) as ->.
  { apply Qeq_bool_false. intros E. rewrite E in Hlt. exact (Qlt_irrefl _ Hlt). }
  assert (Qltb b a = false) as -> by (apply Qltb_false, Qlt_le_weak; exact Hlt).
  destruct (Qeq_bool a 0) eqn:E.
  - apply Qeq_bool_iff in E. apply Qdiv_pos; [exact Hb | now apply Qsucc_pos].
  - apply Qeq_bool_false in E. apply Qdiv_pos; [exact Hb | now apply Qpos_of_nonzero].
Qed.

Lemma ratio_policy_negative (a b : Q) :
  (0 <= b)%Q -> (b < a)%Q -> (ratio_policy a b < 0)%Q.
Proof.
  intros Hb Hlt. assert (0 < a)%Q as Ha by (eapply Qle_lt_trans; eassumption).
  unfold ratio_policy.
  assert (Qeq_bool a b = false) as ->.
  { apply Qeq_bool_false. intros E. rewrite E in Hlt. exact (Qlt_irrefl _ Hlt). }
  assert (Qltb b a = true) as -> by (apply Qltb_true; exact Hlt).
  destruct (Qeq_bool b 0) eqn:E.
  - apply Qeq_bool_iff in E. apply Qdiv_neg; [exact Ha | now apply Qsucc_pos].
  - apply Qeq_bool_false in E. apply Qdiv_neg; [exact Ha | now apply Qpos_of_nonzero].
Qed.

Lemma ratio_policy_equal (a b : Q) : (a == b)%Q -> ratio_policy a b = 0%Q.
Proof.
  intros E. unfold ratio_policy. apply Qeq_bool_iff in E. now rewrite E.
Qed.

Lemma ratio_policy_sign (a b : Q) :
  (0 <= a)%Q -> (0 <= b)%Q ->
  ((ratio_policy a b < 0)%Q <-> (b < a)%Q) /\
  ((0 < ratio_policy a b)%Q <-> (a < b)%Q) /\
  ((ratio_policy a b == 0)%Q <-> (a == b)%Q).
Proof.
  intros Ha Hb. destruct (Q_dec a b) as [[Hlt | Hgt] | Heq].
  - pose proof (ratio_policy_positive a b Ha Hlt) as Hpos.
    repeat split; intros H; try assumption; exfalso.
    + apply (Qlt_irrefl 0). eapply Qlt_trans; eassumption.
    + apply (Qlt_irrefl a). eapply Qlt_trans; eassumption.
    + rewrite H in Hpos. exact (Qlt_irrefl _ Hpos).
    + rewrite H in Hlt. exact (Qlt_irrefl _ Hlt).
  - pose proof (ratio_policy_negative a b Hb Hgt) as Hneg.
    repeat split; intros H; try assumption; exfalso.
    + apply (Qlt_irrefl 0). eapply Qlt_trans; eassumption.
    + apply (Qlt_irrefl a). eapply Qlt_trans; eassumption.
    + rewrite H in Hneg. exact (Qlt_irrefl _ Hneg).
    + rewrite H in Hgt. exact (Qlt_irrefl _ Hgt).
  - rewrite (ratio_policy_equal a b Heq).
    repeat split; intros H; try assumption; try reflexivity; exfalso.
    + exact (Qlt_irrefl _ H).
    + rewrite Heq in H. exact (Qlt_irrefl _ H).
    + exact (Qlt_irrefl _ H).
    + rewrite Heq in H. exact (Qlt_irrefl _ H).
Qed.

(** X4. On a row whose compared values are numbers that are not negative,
    the sign of each ratio tells the larger side: the count ratio is
    negative exactly when the listing count is the larger, positive exactly
    when the rental count is the larger, and zero exactly when the two are
    equal; the same holds of the price ratio with the listing price and the
    rental average price. *)
Theorem ratio_sign (row : Agg.row) (a b : Q) :
  (0 <= a)%Q -> (0 <= b)%Q ->
  (Agg.Airbnb_count row = Num a -> Agg.rental_count row = Num b ->
   exists x : Q, count_ratio row = Ok (Num x) /\
     ((x < 0)%Q <-> (b < a)%Q) /\ ((0 < x)%Q <-> (a < b)%Q) /\ ((x == 0)%Q <-> (a == b)%Q)) /\
  (Agg.Airbnb_price row = Num a -> Agg.rental_price_average row = Num b ->
   exists x : Q, price_ratio row = Ok (Num x) /\
     ((x < 0)%Q <-> (b < a)%Q) /\ ((0 < x)%Q <-> (a < b)%Q) /\ ((x == 0)%Q <-> (a == b)%Q)).
Proof.
  intros Ha Hb. split; intros H1 H2; exists (ratio_policy a b).
  - split; [now apply count_ratio_policy | now apply ratio_policy_sign].
  - split; [now apply price_ratio_policy | now apply ratio_policy_sign].
Qed.

Lemma ratio_sign_witness :
  exists x : Q, count_ratio (pair_row 3 5) = Ok (Num x) /\ (0 < x)%Q.
Proof.
  assert (0 <= 3)%Q as H3 by (intros H; discriminate H).
  assert (0 <= 5)%Q as H5 by (intros H; discriminate H).
  destruct (ratio_sign (pair_row 3 5) 3 5 H3 H5) as [Hc _].
  destruct (Hc eq_refl eq_refl) as (x & Hx & _ & Hpos & _).
  exists x. split; [exact Hx | apply Hpos; reflexivity].
Defined.

(** ** Missing values and text in the compared columns *)

Lemma ratio_cells_numbers (a b : Q) : ratio_cells (Num a) (Num b) = Ok (Num (ratio_policy a b)).
Proof. apply ratio_chain. Qed.

Lemma ratio_cells_nan (a b : value) :
  a = NaN \/ b = NaN -> ~ is_str a -> ~ is_str b -> ratio_cells a b = Ok NaN.
Proof.
  intros Hnan Ha Hb.
  destruct a as [x | | s | i], b as [y | | t | j]; cbn [is_str] in *; try tauto;
    try (destruct Hnan; discriminate);
    unfold ratio_cells; cbn [py_eq py_gt py_add py_div py_mul mbind result_bind];
    try reflexivity.
  destruct (Qeq_bool x 0) eqn:E; cbn [py_add py_div py_mul mbind result_bind];
    [rewrite (Qeq_bool_succ _ E) |]; reflexivity.
Qed.

Lemma ratio_cells_str (a b : value) :
  (is_str a /\ ~ is_str b) \/ (~ is_str a /\ is_str b) ->
  ratio_cells a b = Raise TypeError.
Proof.
  destruct a as [x | | s | i], b as [y | | t | j]; cbn [is_str];
    intros [[H1 H2] | [H1 H2]]; try tauto; reflexivity.
Qed.

(** An infinity beside a number or an infinity: no division by zero, the
    zero divisor being replaced by [0 + 1]. *)
Lemma ratio_cells_inf (a b : value) (e : exn) :
  (exists i, a = Inf i) \/ (exists j, b = Inf j) -> ~ is_str a -> ~ is_str b ->
  ratio_cells a b <> Raise e.
Proof.
  intros Hinf Ha Hb.
  destruct a as [x | | s | i], b as [y | | t | j]; cbn [is_str] in *; try tauto;
    try (destruct Hinf as [[? [=]] | [? [=]]]; fail);
    unfold ratio_cells; cbn [py_eq py_gt py_add py_div py_mul mbind result_bind].
  - destruct j; cbn [py_eq py_gt py_add py_div py_mul mbind result_bind].
    + discriminate.
    + destruct (Qeq_bool x 0) eqn:E; cbn [py_add py_div py_mul mbind result_bind].
      * rewrite (Qeq_bool_succ _ E). cbn [mbind result_bind]. discriminate.
      * discriminate.
  - discriminate.
  - destruct i; cbn [negb py_eq py_gt py_add py_div py_mul mbind result_bind].
    + discriminate.
    + destruct (Qeq_bool y 0) eqn:E; cbn [py_add py_div py_mul mbind result_bind].
      * rewrite (Qeq_bool_succ _ E). cbn [mbind result_bind]. discriminate.
      * discriminate.
  - discriminate.
  - destruct (Bool.eqb i j); [discriminate |].
    destruct (negb i && j); discriminate.
Qed.

Lemma ratio_cells_only_TypeError (a b : value) (e : exn) :
  ratio_cells a b = Raise e -> e = TypeError.
Proof.
  destruct a as [x | | s | i], b as [y | | t | j].
  - rewrite ratio_cells_numbers. discriminate.
  - rewrite ratio_cells_nan; [discriminate | now right | exact id | exact id].
  - rewrite ratio_cells_str; [now intros [= <-] | right; split; [exact id | exact I]].
  - intros H. now apply ratio_cells_inf in H; [| right; eauto | exact id | exact id].
  - rewrite ratio_cells_nan; [discriminate | now left | exact id | exact id].
  - rewrite ratio_cells_nan; [discriminate | now left | exact id | exact id].
  - rewrite ratio_cells_str; [now intros [= <-] | right; split; [exact id | exact I]].
  - rewrite ratio_cells_nan; [discriminate | now left | exact id | exact id].
  - rewrite ratio_cells_str; [now intros [= <-] | left; split; [exact I | exact id]].
  - rewrite ratio_cells_str; [now intros [= <-] | left; split; [exact I | exact id]].
  - unfold ratio_cells; cbn [py_eq py_gt py_add py_div py_mul mbind result_bind].
    destruct (String.eqb s t); [discriminate |].
    destruct (String.ltb t s); cbn; now intros [= <-].
  - rewrite ratio_cells_str; [now intros [= <-] | left; split; [exact I | exact id]].
  - intros H. now apply ratio_cells_inf in H; [| left; eauto | exact id | exact id].
  - rewrite ratio_cells_nan; [discriminate | now right | exact id | exact id].
  - rewrite ratio_cells_str; [now intros [= <-] | right; split; [exact id | exact I]].
  - intros H. now apply ratio_cells_inf in H; [| left; eauto | exact id | exact id].
Qed.

(** X5. Either ratio of a row is the same computation on two cells.  It
    never raises [ZeroDivisionError], whatever the cells: the only exception
    is [TypeError].  When one of the two cells is NaN and neither is text,
    the ratio is NaN and nothing is raised; when one cell is text and the
    other is not (a price label that the average-price table does not map,
    beside a numeric listing price), [TypeError] is raised. *)
Theorem ratio_exceptions :
  (forall row : Agg.row,
      count_ratio row = ratio_cells (Agg.Airbnb_count row) (Agg.rental_count row) /\
      price_ratio row = ratio_cells (Agg.Airbnb_price row) (Agg.rental_price_average row)) /\
  (forall (a b : value) (e : exn), ratio_cells a b = Raise e -> e = TypeError) /\
  (forall a b : value,
      a = NaN \/ b = NaN -> ~ is_str a -> ~ is_str b -> ratio_cells a b = Ok NaN) /\
  (forall a b : value,
      (is_str a /\ ~ is_str b) \/ (~ is_str a /\ is_str b) ->
      ratio_cells a b = Raise TypeError).
Proof.
  split; [intros row; split; reflexivity |].
  split; [exact ratio_cells_only_TypeError |].
  split; [exact ratio_cells_nan | exact ratio_cells_str].
Qed.

Lemma ratio_exceptions_witness :
  ratio_cells (Num 700) (Str "$500 - $599") = Raise TypeError /\
  ratio_cells (Num 700) NaN = Ok NaN.
Proof.
  destruct ratio_exceptions as (_ & _ & Hnan & Hstr). split.
  - apply Hstr. right. split; [intros H; exact H | exact I].
  - apply Hnan; [now right | intros H; exact H | intros H; exact H].
Defined.

(** ** [add_ratios] when a ratio raises *)

Lemma count_ratio_only_TypeError (row : Agg.row) (e : exn) :
  count_ratio row = Raise e -> e = TypeError.
Proof. apply ratio_cells_only_TypeError. Qed.

Lemma price_ratio_only_TypeError (row : Agg.row) (e : exn) :
  price_ratio row = Raise e -> e = TypeError.
Proof. apply ratio_cells_only_TypeError. Qed.

(** One turn of the loop, by whether a ratio of the row raises. *)
Lemma ratio_step_result (r : nat) (ir : nat * Agg.row) (σ : store) (f : AggFrame) :
  σ !! r = Some (ObjAgg f) ->
  exists f' : AggFrame,
    agg_rows f' = agg_rows f /\
    ((raising (snd ir) /\ ratio_step r ir σ = (Raise TypeError, <[r := ObjAgg f']> σ)) \/
     (~ raising (snd ir) /\ ratio_step r ir σ = (Ok tt, <[r := ObjAgg f']> σ))).
Proof.
  intros Hr. unfold ratio_step, raising, mbind, M_bind, lift.
  destruct (count_ratio (snd ir)) as [cr | e] eqn:Hc.
  2: { exists f. split; [reflexivity |]. left. split; [left; eauto |].
       rewrite (count_ratio_only_TypeError _ _ Hc). now rewrite insert_id. }
  rewrite (update_agg_at _ _ _ _ Hr).
  destruct (price_ratio (snd ir)) as [pr | e] eqn:Hp.
  2: { exists (set_count_ratio (fst ir) cr f). split; [reflexivity |]. left.
       split; [right; eauto |]. now rewrite (price_ratio_only_TypeError _ _ Hp). }
  rewrite (update_agg_at r _ _ (set_count_ratio (fst ir) cr f)) by apply lookup_insert_eq.
  exists (set_price_ratio (fst ir) pr (set_count_ratio (fst ir) cr f)).
  split; [reflexivity |]. right. split.
  - intros [[e [=]] | [e [=]]].
  - now rewrite insert_insert_eq.
Qed.

Lemma for_each_raises (r : nat) (l : list (nat * Agg.row)) :
  forall (σ : store) (f : AggFrame),
    σ !! r = Some (ObjAgg f) ->
    (exists ir, In ir l /\ raising (snd ir)) ->
    exists f' : AggFrame,
      for_each l (ratio_step r) σ = (Raise TypeError, <[r := ObjAgg f']> σ) /\
      agg_rows f' = agg_rows f.
Proof.
  induction l as [| ir l IH]; intros σ f Hr (bad & Hin & Hbad); [destruct Hin |].
  cbn [for_each]. unfold mbind at 1, M_bind at 1.
  destruct (ratio_step_result r ir σ f Hr) as (f1 & Hrows1 & [[_ ->] | [Hgood ->]]).
  - exists f1. split; [reflexivity | exact Hrows1].
  - destruct Hin as [-> | Hin]; [contradiction |].
    destruct (IH (<[r := ObjAgg f1]> σ) f1) as (f2 & -> & Hrows2);
      [apply lookup_insert_eq | eauto |].
    exists f2. rewrite insert_insert_eq. split; [reflexivity | congruence].
Qed.

(** X6. When a ratio of some row of the aggregate frame raises,
    [add_ratios] raises [TypeError] and returns no frame: no object is
    added to the store.  The frame it was handed keeps its rows, and may
    already carry the ratios of the rows before the failing one. *)
Theorem add_ratios_raises (σ : store) (aggregate_df city_sa2 : nat)
    (f : AggFrame) (g : list SA2Geo) :
  σ !! aggregate_df = Some (ObjAgg f) ->
  σ !! city_sa2 = Some (ObjGeo g) ->
  (exists row, In row (agg_rows f) /\ raising row) ->
  exists (σ' : store) (f' : AggFrame),
    add_ratios aggregate_df city_sa2 σ = (Raise TypeError, σ') /\
    dom σ' = dom σ /\
    σ' !! aggregate_df = Some (ObjAgg f') /\
    agg_rows f' = agg_rows f /\
    forall r : nat, r <> aggregate_df -> σ' !! r = σ !! r.
Proof.
  intros Hagg Hgeo (row & Hrow & Hbad).
  destruct (for_each_raises aggregate_df
              (imap (fun index row => (index, row)) (agg_rows f)) σ f Hagg)
    as (f' & Hloop & Hrows).
  { apply list_elem_of_In, list_elem_of_lookup in Hrow as [i Hi].
    exists (i, row). split; [| exact Hbad].
    apply list_elem_of_In, list_elem_of_lookup. exists i.
    now rewrite list_lookup_imap, Hi. }
  exists (<[aggregate_df := ObjAgg f']> σ), f'.
  split; [| split; [| split; [apply lookup_insert_eq | split; [exact Hrows |]]]].
  - rewrite add_ratios_unfold. unfold mbind at 1, M_bind at 1.
    unfold read_agg at 1. rewrite Hagg. unfold mbind at 1, M_bind at 1.
    now rewrite Hloop.
  - apply dom_insert_lookup_L. eauto.
  - intros r Hr. now apply lookup_insert_ne.
Qed.

Lemma add_ratios_raises_witness :
  exists (σ' : store) (f' : AggFrame),
    add_ratios 1 0 text_store = (Raise TypeError, σ') /\
    dom σ' = dom text_store /\
    σ' !! 1%nat = Some (ObjAgg f') /\
    agg_rows f' = agg_rows text_frame.
Proof.
  destruct (add_ratios_raises text_store 1 0 text_frame scenario_sa2 eq_refl eq_refl)
    as (σ' & f' & Hrun & Hdom & Hagg & Hrows & _).
  { eexists. split; [left; reflexivity |]. right. exists TypeError. reflexivity. }
  exists σ', f'. auto.
Defined.

(** ** The frame that [add_ratios] returns *)

Lemma merge_geo_In (geo : list SA2Geo) (df : AggFrame) (c : ComparisonRow) :
  In c (merge_geo geo df) <->
  exists (a : SA2Geo) (i : nat) (row : Agg.row),
    In a geo /\ agg_rows df !! i = Some row /\
    geo_SA22018__1 a = Agg.SA2 row /\
    c = mkComparisonRow a row (ratio_cell (count_ratio_col df) i)
          (ratio_cell (price_ratio_col df) i).
Proof.
  unfold merge_geo. rewrite in_flat_map. split.
  - intros (a & Ha & Hc). apply list_elem_of_In, list_elem_of_omap in Hc
      as ([i row] & Hir & Hsome).
    apply list_elem_of_lookup in Hir as [j Hj].
    rewrite list_lookup_imap in Hj.
    destruct (agg_rows df !! j) as [row' |] eqn:Hrow; [| discriminate].
    injection Hj as <- <-. cbn [fst snd] in Hsome.
    destruct (String.eqb_spec (geo_SA22018__1 a) (Agg.SA2 row')) as [E |]; [| discriminate].
    injection Hsome as <-. exists a, j, row'. auto.
  - intros (a & i & row & Ha & Hi & E & ->). exists a. split; [exact Ha |].
    apply list_elem_of_In, list_elem_of_omap. exists (i, row). split.
    + apply list_elem_of_lookup. exists i. now rewrite list_lookup_imap, Hi.
    + cbn [fst snd]. rewrite E, String.eqb_refl. reflexivity.
Qed.

(** The whole run of [add_ratios] when no ratio raises. *)
Lemma add_ratios_run (σ : store) (aggregate_df city_sa2 : nat)
    (rws : list Agg.row) (g : list SA2Geo) (c p : Agg.row -> value) :
  σ !! aggregate_df = Some (ObjAgg (mkAggFrame rws None None)) ->
  σ !! city_sa2 = Some (ObjGeo g) ->
  Forall (fun row => count_ratio row = Ok (c row) /\ price_ratio row = Ok (p row)) rws ->
  rws <> [] ->
  let f' := mkAggFrame rws (Some (map c rws)) (Some (map p rws)) in
  let σ1 := <[aggregate_df := ObjAgg f']> σ in
  add_ratios aggregate_df city_sa2 σ =
    (Ok (fresh (dom σ1)), <[fresh (dom σ1) := ObjComparison (merge_geo g f')]> σ1).
Proof.
  intros Hagg Hgeo Hok Hne f' σ1.
  assert (city_sa2 <> aggregate_df) as Hdiff by (intros ->; congruence).
  pose proof (for_each_columns aggregate_df c p rws [] σ Hok Hagg) as Hloop.
  cbn [length Nat.add app] in Hloop.
  destruct rws as [| row rws]; [contradiction |].
  rewrite add_ratios_unfold. unfold mbind, M_bind.
  unfold read_agg at 1. rewrite Hagg. cbn [agg_rows]. rewrite Hloop.
  unfold read_agg, read_geo, alloc. fold f'. fold σ1.
  assert (σ1 !! aggregate_df = Some (ObjAgg f')) as -> by apply lookup_insert_eq.
  assert (σ1 !! city_sa2 = Some (ObjGeo g)) as ->
    by (unfold σ1; rewrite lookup_insert_ne by congruence; exact Hgeo).
  reflexivity.
Qed.

(** X7. When the compared cells of every row are numbers, [add_ratios]
    returns a new frame that is the inner join of the areas with the
    aggregate rows on the area name: it holds exactly the pairs of an area
    of [city_sa2] and a row of the aggregate frame with that area's name,
    each with the two ratios of its own row.  A row whose area is not in
    [city_sa2] is dropped, and so is an area without a row. *)
Theorem add_ratios_returns (σ : store) (aggregate_df city_sa2 : nat)
    (rws : list Agg.row) (g : list SA2Geo) :
  σ !! aggregate_df = Some (ObjAgg (mkAggFrame rws None None)) ->
  σ !! city_sa2 = Some (ObjGeo g) ->
  Forall numeric rws -> rws <> [] ->
  exists (out : nat) (cmp : list ComparisonRow),
    fst (add_ratios aggregate_df city_sa2 σ) = Ok out /\
    σ !! out = None /\
    snd (add_ratios aggregate_df city_sa2 σ) !! out = Some (ObjComparison cmp) /\
    forall c : ComparisonRow,
      In c cmp <->
      exists (a : SA2Geo) (row : Agg.row),
        In a g /\ In row rws /\ geo_SA22018__1 a = Agg.SA2 row /\
        c = mkComparisonRow a row (count_ratio_value row) (price_ratio_value row).
Proof.
  intros Hagg Hgeo Hnum Hne.
  assert (Forall (fun row => count_ratio row = Ok (count_ratio_value row) /\
                             price_ratio row = Ok (price_ratio_value row)) rws) as Hok.
  { eapply Forall_impl; [exact Hnum |]. intros row (a & b & c & d & Ha & Hb & Hc & Hd).
    unfold count_ratio_value, price_ratio_value.
    now rewrite (count_ratio_policy row a b Ha Hb), (price_ratio_policy row c d Hc Hd). }
  rewrite (add_ratios_run σ aggregate_df city_sa2 rws g _ _ Hagg Hgeo Hok Hne).
  cbn [fst snd].
  set (f' := mkAggFrame rws _ _). set (σ1 := <[aggregate_df := ObjAgg f']> σ).
  assert (σ1 !! fresh (dom σ1) = None) as Hfresh by (apply not_elem_of_dom, is_fresh).
  exists (fresh (dom σ1)), (merge_geo g f').
  split; [reflexivity |]. split; [| split; [apply lookup_insert_eq |]].
  - destruct (decide (fresh (dom σ1) = aggregate_df)) as [E | E].
    + rewrite E in Hfresh. unfold σ1 in Hfresh. now rewrite lookup_insert_eq in Hfresh.
    + unfold σ1 in Hfresh. now rewrite lookup_insert_ne in Hfresh.
  - intros c. rewrite merge_geo_In. unfold f'; cbn [agg_rows count_ratio_col price_ratio_col].
    split.
    + intros (a & i & row & Ha & Hi & E & ->). exists a, row.
      split; [exact Ha |]. split; [| split; [exact E |]].
      * apply list_elem_of_In. eapply list_elem_of_lookup_2, Hi.
      * unfold ratio_cell; cbn [mbind option_bind].
        now rewrite !list_lookup_fmap, Hi.
    + intros (a & row & Ha & Hrow & E & ->).
      apply list_elem_of_In, list_elem_of_lookup in Hrow as [i Hi].
      exists a, i, row. split; [exact Ha |]. split; [exact Hi |]. split; [exact E |].
      unfold ratio_cell; cbn [mbind option_bind].
      now rewrite !list_lookup_fmap, Hi.
Qed.

Lemma add_ratios_returns_witness :
  exists (out : nat) (cmp : list ComparisonRow),
    fst (add_ratios 1 0 example_store) = Ok out /\
    snd (add_ratios 1 0 example_store) !! out = Some (ObjComparison cmp).
Proof.
  destruct (add_ratios_returns example_store 1 0 (agg_rows example_frame) scenario_sa2
              eq_refl eq_refl) as (out & cmp & Hout & _ & Hcmp & _).
  - constructor; [| constructor]. exists 3%Q, 5%Q, 700%Q, 49.5%Q. repeat split.
  - discriminate.
  - exists out, cmp. auto.
Defined.

(** ** The values of the completed listing tables *)

Lemma merge_right_present {A : Type} (nan : A) (left : list (Row A)) (right : list key)
    (r : Row A) :
  In r left -> In (key_of r) right -> In r (merge_right nan left right).
Proof.
  intros Hr Hk. unfold merge_right. apply in_flat_map. exists (key_of r).
  split; [exact Hk |].
  assert (In r (List.filter (fun r' => key_eqb (key_of r') (key_of r)) left)) as Hf
    by (apply filter_In; split; [exact Hr | apply key_eqb_refl]).
  destruct (List.filter _ left); [destruct Hf | exact Hf].
Qed.

(** A row of the partial table whose key is in the domain comes out of the
    completion with its cell, NaN replaced by the fill value. *)
Lemma complete_present (d : value) (left : list (Row value)) (right : list key)
    (r : Row value) :
  In r left -> In (key_of r) right ->
  In (mkRow (SA22018__1 r) (bedrooms r) (fillna d (cols r)))
     (sort_values (map_cols (fillna d) (merge_right NaN left right))).
Proof.
  intros Hr Hk. apply sort_by_In, map_cols_In. now apply merge_right_present.
Qed.

(** A key of the domain without a row in the partial table comes out with
    the fill value. *)
Lemma complete_missing (d : value) (left : list (Row value)) (right : list key)
    (a b : string) :
  In (a, b) right -> (forall r, In r left -> key_of r <> (a, b)) ->
  In (mkRow a b d) (sort_values (map_cols (fillna d) (merge_right NaN left right))).
Proof.
  intros Hk Hnone. apply sort_by_In.
  change (mkRow a b d)
    with (mkRow (SA22018__1 (mkRow a b NaN)) (bedrooms (mkRow a b NaN))
            (fillna d (cols (mkRow a b NaN)))).
  apply map_cols_In. now apply (merge_right_missing NaN left right (a, b)).
Qed.

Lemma Qsum_inject_Z (l : list Z) : Qsum (map inject_Z l) = inject_Z (sum_Z l).
Proof.
  induction l as [| x l IH]; [reflexivity |].
  cbn [map Qsum foldr]. fold (Qsum (map inject_Z l)). rewrite IH, sum_Z_cons.
  unfold Qplus, inject_Z; cbn [Qnum Qden]. f_equal. lia.
Qed.

Lemma count_key_cons (k x : key) (l : list key) :
  count_key k (x :: l) = (if key_eqb k x then 1 else 0) + count_key k l.
Proof.
  unfold count_key. cbn [List.filter]. destruct (key_eqb k x); cbn [length]; lia.
Qed.

Lemma count_key_pos (k : key) (l : list key) : 0 < count_key k l <-> In k l.
Proof.
  induction l as [| x l IH]; [split; [intros H; discriminate H | intros []] |].
  rewrite count_key_cons. cbn [In]. destruct (key_eqb k x) eqn:E.
  - apply key_eqb_eq in E. subst x. split; [auto |]. intros _.
    unfold count_key. lia.
  - apply not_true_iff_false in E. rewrite key_eqb_eq in E.
    rewrite Z.add_0_l, IH. split; [auto |]. intros [-> | H]; [contradiction | exact H].
Qed.

Lemma count_key_nonneg (k : key) (l : list key) : 0 <= count_key k l.
Proof. unfold count_key. lia. Qed.

Lemma filter_filter_comm {A : Type} (f g : A -> bool) (l : list A) :
  List.filter f (List.filter g l) = List.filter g (List.filter f l).
Proof.
  induction l as [| x l IH]; [reflexivity |]. cbn [List.filter].
  destruct (f x) eqn:Ef, (g x) eqn:Eg; cbn [List.filter]; rewrite ?Ef, ?Eg, IH; reflexivity.
Qed.

Lemma filter_filter_idem {A : Type} (f : A -> bool) (l : list A) :
  List.filter f (List.filter f l) = List.filter f l.
Proof.
  induction l as [| x l IH]; [reflexivity |]. cbn [List.filter].
  destruct (f x) eqn:Ef; cbn [List.filter]; rewrite ?Ef, IH; reflexivity.
Qed.

Lemma filter_perm {A : Type} (f : A -> bool) (l l' : list A) :
  Permutation l l' -> Permutation (List.filter f l) (List.filter f l').
Proof.
  induction 1 as [| x l l' _ IH | x y l | l l' l'' _ IH1 _ IH2]; cbn [List.filter].
  - reflexivity.
  - destruct (f x); [now constructor | exact IH].
  - destruct (f x), (f y); try reflexivity. apply perm_swap.
  - now transitivity (List.filter f l').
Qed.

Lemma sum_Z_perm (l l' : list Z) : Permutation l l' -> sum_Z l = sum_Z l'.
Proof.
  induction 1 as [| x l l' _ IH | x y l | l l' l'' _ IH1 _ IH2];
    rewrite ?sum_Z_cons; lia.
Qed.

Lemma unique_keys_filter (x : key) (l : list key) :
  unique_keys (List.filter (fun y => negb (key_eqb x y)) l) =
  List.filter (fun y => negb (key_eqb x y)) (unique_keys l).
Proof.
  induction l as [| y l IH]; [reflexivity |]. cbn [List.filter unique_keys].
  destruct (key_eqb x y) eqn:E; cbn [negb unique_keys List.filter]; rewrite ?E; cbn [negb].
  - apply key_eqb_eq in E. subst y. now rewrite IH, filter_filter_idem.
  - rewrite IH. f_equal. apply filter_filter_comm.
Qed.

Lemma count_key_filter_ne (k x : key) (l : list key) :
  key_eqb x k = false ->
  count_key k (List.filter (fun y => negb (key_eqb x y)) l) = count_key k l.
Proof.
  intros Hne. unfold count_key. f_equal. f_equal.
  rewrite filter_filter_comm. induction l as [| y l IH]; [reflexivity |].
  cbn [List.filter]. destruct (key_eqb k y) eqn:E; [| exact IH].
  apply key_eqb_eq in E. subst y. cbn [List.filter]. rewrite Hne. cbn [negb].
  now rewrite IH.
Qed.

Lemma filter_area_split (a : string) (x : key) (l : list key) :
  Z.of_nat (length (List.filter (fun k => String.eqb (fst k) a) (x :: l))) =
  (if String.eqb (fst x) a then count_key x (x :: l) else 0) +
  Z.of_nat (length (List.filter (fun k => String.eqb (fst k) a)
                      (List.filter (fun y => negb (key_eqb x y)) l))).
Proof.
  assert (Z.of_nat (length (List.filter (fun k => String.eqb (fst k) a) l)) =
          (if String.eqb (fst x) a then count_key x l else 0) +
          Z.of_nat (length (List.filter (fun k => String.eqb (fst k) a)
                              (List.filter (fun y => negb (key_eqb x y)) l)))) as Hl.
  { induction l as [| y l IH]; [destruct (String.eqb (fst x) a); reflexivity |].
    rewrite count_key_cons. cbn [List.filter].
    destruct (key_eqb x y) eqn:E; cbn [negb].
    - apply key_eqb_eq in E. subst y.
      destruct (String.eqb (fst x) a); cbn [length]; lia.
    - cbn [List.filter].
      destruct (String.eqb (fst y) a), (String.eqb (fst x) a); cbn [length] in *; lia. }
  rewrite count_key_cons, key_eqb_refl. cbn [List.filter].
  destruct (String.eqb (fst x) a); cbn [length] in *; lia.
Qed.

(** The sizes of an area's groups add up to the number of its rows. *)
Lemma group_sizes_total (a : string) (n : nat) :
  forall keys : list key, (length keys <= n)%nat ->
    sum_Z (map (fun k => count_key k keys)
             (List.filter (fun k => String.eqb (fst k) a) (unique_keys keys))) =
    Z.of_nat (length (List.filter (fun k => String.eqb (fst k) a) keys)).
Proof.
  induction n as [| n IH]; intros [| x l] Hlen; try reflexivity; [cbn in Hlen; lia |].
  cbn [length] in Hlen. rewrite filter_area_split.
  cbn [unique_keys]. rewrite <- unique_keys_filter.
  set (l' := List.filter (fun y => negb (key_eqb x y)) l).
  assert (length l' <= n)%nat as Hl'.
  { unfold l'. pose proof (List.filter_length_le (fun y => negb (key_eqb x y)) l). lia. }
  rewrite <- (IH l' Hl').
  assert (map (fun k => count_key k (x :: l))
            (List.filter (fun k => String.eqb (fst k) a) (unique_keys l')) =
          map (fun k => count_key k l')
            (List.filter (fun k => String.eqb (fst k) a) (unique_keys l'))) as Hmap.
  { apply map_ext_in. intros k Hk. apply filter_In in Hk as [Hk _].
    apply (proj1 (unique_keys_In _ _)) in Hk. unfold l' in Hk.
    apply filter_In in Hk as [_ Hne].
    apply negb_true_iff in Hne. rewrite count_key_cons. unfold l'.
    rewrite (count_key_filter_ne k x l Hne).
    assert (key_eqb k x = false) as ->; [| lia].
    apply not_true_iff_false. rewrite key_eqb_eq. intros ->.
    now rewrite key_eqb_refl in Hne. }
  cbn [List.filter]. destruct (String.eqb (fst x) a); cbn [map]; rewrite ?sum_Z_cons, Hmap; lia.
Qed.

Lemma filter_map_comm {A B : Type} (f : B -> bool) (g : A -> B) (l : list A) :
  List.filter f (map g l) = map g (List.filter (fun x => f (g x)) l).
Proof.
  induction l as [| x l IH]; [reflexivity |]. cbn [map List.filter].
  destruct (f (g x)); cbn [map]; now rewrite IH.
Qed.

Lemma filter_length_zero {A : Type} (f : A -> bool) (l : list A) :
  (forall x, In x l -> f x = false) -> length (List.filter f l) = O.
Proof. intros H. now rewrite filter_none. Qed.

(** The total that [total_counts] gives an area: the number of rows of the
    grouped frame's source under that area. *)
Lemma total_counts_value (keys : list key) (a : string) :
  Qsum (map (fun r : Row value => num_or_zero (cols r))
          (List.filter (fun r => String.eqb (SA22018__1 r) a) (groupby_size keys))) =
  inject_Z (Z.of_nat (length (List.filter (fun k => String.eqb (fst k) a) keys))).
Proof.
  unfold groupby_size. rewrite filter_map_comm, map_map. cbn [SA22018__1 cols num_or_zero].
  rewrite <- (map_map (fun k => count_key k keys) inject_Z), Qsum_inject_Z. f_equal.
  rewrite <- (group_sizes_total a (length keys) keys (le_n _)).
  apply sum_Z_perm, Permutation_map, filter_perm, sort_by_perm.
Qed.

Lemma groupby_size_In (keys : list key) (k : key) :
  In k keys ->
  In (mkRow (fst k) (snd k) (Num (inject_Z (count_key k keys)))) (groupby_size keys).
Proof.
  intros Hk. unfold groupby_size.
  apply (in_map (fun k => mkRow (fst k) (snd k) (Num (inject_Z (count_key k keys))))).
  now apply sort_by_In, unique_keys_In.
Qed.

Lemma groupby_size_key (keys : list key) (r : Row value) :
  In r (groupby_size keys) -> In (key_of r) keys.
Proof.
  unfold groupby_size. intros Hr. apply in_map_iff in Hr as ([a b] & <- & Hk).
  apply sort_by_In in Hk. now apply (proj1 (unique_keys_In _ _)) in Hk.
Qed.

Lemma total_counts_key (df : list (Row value)) (r : Row value) :
  In r (total_counts df) ->
  bedrooms r = "total" /\ In (SA22018__1 r) (map SA22018__1 df).
Proof.
  unfold total_counts. intros Hr. apply in_map_iff in Hr as (a & <- & Ha).
  cbn [bedrooms SA22018__1]. split; [reflexivity |].
  apply sort_by_In in Ha. now apply (proj1 (unique_In _ _)) in Ha.
Qed.

(** The row of "total" that [airbnb_count] gives an area of the rental
    index: the number of rows of the listing frame under that area. *)
Lemma airbnb_count_total (city_airbnb_df : list (Joined.row string))
    (rental_df : RentalDf) (a : string) :
  (forall r, In r city_airbnb_df -> Joined.bedrooms r <> "total") ->
  In a (index rental_df) ->
  In (mkRow a "total"
        (Num (inject_Z (Z.of_nat (length (List.filter
           (fun r => String.eqb (Joined.SA22018__1 r) a) city_airbnb_df))))))
     (airbnb_count city_airbnb_df rental_df).
Proof.
  intros Htotal Ha.
  unfold airbnb_count.
  change (map (fun r => (Joined.SA22018__1 r, Joined.bedrooms r)) city_airbnb_df)
    with (map listing_key city_airbnb_df).
  set (keys := map listing_key city_airbnb_df).
  assert (In (a, "total") (all_combinations (unique (index rental_df)) BEDROOMS_ORDER))
    as Hdom.
  { apply all_combinations_In. split; [now apply unique_In |].
    cbn. intuition. }
  assert (length (List.filter (fun r => String.eqb (Joined.SA22018__1 r) a) city_airbnb_df) =
          length (List.filter (fun k => String.eqb (fst k) a) keys)) as ->.
  { unfold keys. now rewrite filter_map_comm, length_map. }
  destruct (decide (a ∈ map SA22018__1 (groupby_size keys))) as [Hin | Hout].
  + rewrite <- total_counts_value.
    apply (complete_present NA_REPLACEMENT _ _
             (mkRow a "total" (Num (Qsum (map (fun r : Row value => num_or_zero (cols r))
                (List.filter (fun r => String.eqb (SA22018__1 r) a) (groupby_size keys)))))));
      [| exact Hdom].
    apply in_or_app. right. unfold total_counts.
    apply (in_map (fun a => mkRow a "total" (Num (Qsum (map (fun r : Row value =>
             num_or_zero (cols r))
             (List.filter (fun r => String.eqb (SA22018__1 r) a) (groupby_size keys))))))).
    apply sort_by_In, unique_In, list_elem_of_In, Hin.
  + rewrite filter_length_zero.
    * apply (complete_missing NA_REPLACEMENT); [exact Hdom |].
      intros r Hr E. apply in_app_or in Hr as [Hr | Hr].
      -- apply groupby_size_key in Hr. rewrite E in Hr. unfold keys in Hr.
         apply in_map_iff in Hr as (x & [= _ Hx] & Hxin). now apply (Htotal x Hxin).
      -- apply total_counts_key in Hr as [_ Hr]. injection E as E _.
         apply Hout. rewrite <- E. apply list_elem_of_In, Hr.
    * intros k Hk. apply not_true_iff_false. intros E. apply String.eqb_eq in E.
      apply Hout, list_elem_of_In, in_map_iff.
      exists (mkRow (fst k) (snd k) (Num (inject_Z (count_key k keys)))).
      split; [exact E | now apply groupby_size_In].
Qed.

(** X8. In the listing counts, for every area of the rental index: the row
    of a category of [BEDROOMS_ORDER] other than "total" holds the number
    of rows of [city_airbnb_df] under that area and category (0 when there
    is none), and the row of "total" holds the number of all rows of
    [city_airbnb_df] under that area, whatever their category.  The table
    has one row for each pair of an area and a category of
    [BEDROOMS_ORDER], and no key twice. *)
Theorem airbnb_count_values (city_airbnb_df : list (Joined.row string))
    (rental_df : RentalDf) (a : string) :
  (forall r, In r city_airbnb_df -> Joined.bedrooms r <> "total") ->
  In a (index rental_df) ->
  (forall b, In b BEDROOMS_ORDER -> b <> "total" ->
     In (mkRow a b (Num (inject_Z (count_key (a, b) (map listing_key city_airbnb_df)))))
        (airbnb_count city_airbnb_df rental_df)) /\
  In (mkRow a "total"
        (Num (inject_Z (Z.of_nat (length (List.filter
           (fun r => String.eqb (Joined.SA22018__1 r) a) city_airbnb_df))))))
     (airbnb_count city_airbnb_df rental_df) /\
  NoDup (map key_of (airbnb_count city_airbnb_df rental_df)) /\
  length (airbnb_count city_airbnb_df rental_df) =
    (length (unique (index rental_df)) * 9)%nat.
Proof.
  intros Htotal Ha.
  pose proof (airbnb_count_keys _ rental_df Htotal) as Hkeys.
  assert (NoDup BEDROOMS_ORDER) as Hb
    by (apply NoDup_ListNoDup; repeat constructor; cbn; intuition discriminate).
  destruct (complete_keys_card (index rental_df) BEDROOMS_ORDER _ Hkeys Hb) as [Hlen Hnd].
  rewrite length_map in Hlen.
  split; [| split; [| split; [exact Hnd | exact Hlen]]].
  - intros b Hbin Hbne. unfold airbnb_count.
    change (map (fun r => (Joined.SA22018__1 r, Joined.bedrooms r)) city_airbnb_df)
      with (map listing_key city_airbnb_df).
    set (keys := map listing_key city_airbnb_df).
    assert (In (a, b) (all_combinations (unique (index rental_df)) BEDROOMS_ORDER)) as Hdom
      by (apply all_combinations_In; split; [now apply unique_In | exact Hbin]).
    destruct (Z_lt_le_dec 0 (count_key (a, b) keys)) as [Hpos | Hzero].
    + apply count_key_pos in Hpos.
      apply (complete_present NA_REPLACEMENT _ _
               (mkRow a b (Num (inject_Z (count_key (a, b) keys))))); [| exact Hdom].
      apply in_or_app. left. exact (groupby_size_In keys (a, b) Hpos).
    + assert (count_key (a, b) keys = 0) as -> by (pose proof (count_key_nonneg (a, b) keys); lia).
      apply (complete_missing NA_REPLACEMENT); [exact Hdom |].
      intros r Hr E. apply in_app_or in Hr as [Hr | Hr].
      * apply groupby_size_key in Hr. rewrite E in Hr.
        apply count_key_pos in Hr. lia.
      * apply total_counts_key in Hr as [Hr _]. injection E as _ E. congruence.
  - exact (airbnb_count_total city_airbnb_df rental_df a Htotal Ha).
Qed.

Lemma airbnb_count_values_witness :
  In (mkRow "A" "1" (Num 3)) (airbnb_count scenario_airbnb_df scenario_rental) /\
  In (mkRow "A" "total" (Num 3)) (airbnb_count scenario_airbnb_df scenario_rental).
Proof.
  destruct (airbnb_count_values scenario_airbnb_df scenario_rental "A")
    as (Hcat & Htot & _).
  - intros r [<- | [<- | [<- | [<- | []]]]]; discriminate.
  - left. reflexivity.
  - split; [apply (Hcat "1"); [left; reflexivity | discriminate] | exact Htot].
Defined.

(** ** The rows of the left join under an area *)

Lemma Forall2_map_eq {A B C : Type} (R : A -> B -> Prop) (h : A -> C) (h' : B -> C)
    (l : list A) (l' : list B) :
  (forall x y, R x y -> h x = h' y) -> Forall2 R l l' -> map h l = map h' l'.
Proof.
  intros HR. induction 1 as [| x y l l' Hxy _ IH]; [reflexivity |].
  cbn [map]. now rewrite (HR x y Hxy), IH.
Qed.

(** [airbnb_import] keeps the rows of the join, in their order, under
    their areas. *)
Lemma airbnb_import_areas (airbnb_file : list Csv.row) (city_sa2 : list SA2Geo)
    (out : list (Joined.row string)) :
  airbnb_import airbnb_file city_sa2 = Ok out ->
  map Joined.SA22018__1 out =
    map Joined.SA22018__1
      (sjoin_left city_sa2
         (map fillna_bedrooms
            (List.filter (fun l => String.eqb (Csv.room_type l) "Entire home/apt")
               airbnb_file))).
Proof.
  intros Himp. unfold airbnb_import in Himp.
  set (joined := sjoin_left _ _) in *.
  destruct (str_accessor _ _) as [[] |] eqn:Eacc; cbn in Himp; [| discriminate].
  destruct (rmapM _ joined) as [priced |] eqn:E1; cbn in Himp; [| discriminate].
  destruct (rmapM _ priced) as [capped |] eqn:E2; cbn in Himp; [| discriminate].
  injection Himp as <-. apply rmapM_Forall2 in E1, E2.
  rewrite map_map. cbn [Joined.SA22018__1].
  transitivity (map (@Joined.SA22018__1 bed) priced); symmetry.
  - eapply Forall2_map_eq; [| exact E2]. intros x y H. cbn beta in H.
    destruct (cap_bedrooms (Joined.bedrooms x)); cbn in H; [| discriminate].
    now injection H as <-.
  - eapply Forall2_map_eq; [| exact E1]. intros x y H. cbn beta in H.
    destruct (weekly_price (Joined.price x)); cbn in H; [| discriminate].
    now injection H as <-.
Qed.

Lemma sjoin_left_blocks (city_sa2 : list SA2Geo) (dataframe : list Csv.row) :
  sjoin_left city_sa2 dataframe = flat_map (fun a => join_block a dataframe) city_sa2.
Proof. reflexivity. Qed.

Lemma map_const_replicate {A B : Type} (c : B) (l : list A) :
  map (fun _ => c) l = replicate (length l) c.
Proof. induction l; cbn; [reflexivity | now f_equal]. Qed.

Lemma join_block_areas (a : SA2Geo) (dataframe : list Csv.row) :
  map Joined.SA22018__1 (join_block a dataframe) =
    replicate
      (Nat.max 1 (length (List.filter
         (fun l => geometry a (Csv.longitude l) (Csv.latitude l)) dataframe)))
      (geo_SA22018__1 a).
Proof.
  unfold join_block. destruct (List.filter _ dataframe) as [| l ls]; [reflexivity |].
  rewrite map_map. cbn [Joined.SA22018__1]. rewrite map_const_replicate.
  destruct ls; reflexivity.
Qed.

Lemma filter_replicate_eq (a : string) (n : nat) :
  List.filter (fun x => String.eqb x a) (replicate n a) = replicate n a.
Proof.
  induction n as [| n IH]; [reflexivity |].
  cbn [replicate List.filter]. now rewrite String.eqb_refl, IH.
Qed.

Lemma filter_replicate_ne (a b : string) (n : nat) :
  b <> a -> List.filter (fun x => String.eqb x a) (replicate n b) = [].
Proof.
  intros Hne. apply filter_none. intros x Hx.
  apply list_elem_of_In, elem_of_replicate in Hx as [-> _]. now apply String.eqb_neq.
Qed.

(** Under an area with a name of its own, the left join has one row for
    each listing inside the area, and one row when there is none. *)
Lemma sjoin_left_count (city_sa2 : list SA2Geo) (dataframe : list Csv.row) (a : SA2Geo) :
  NoDup (map geo_SA22018__1 city_sa2) -> In a city_sa2 ->
  length (List.filter (fun x => String.eqb x (geo_SA22018__1 a))
            (map Joined.SA22018__1 (sjoin_left city_sa2 dataframe))) =
    Nat.max 1 (length (List.filter
      (fun l => geometry a (Csv.longitude l) (Csv.latitude l)) dataframe)).
Proof.
  rewrite sjoin_left_blocks. induction city_sa2 as [| a0 rest IH]; intros Hnd Ha; [destruct Ha |].
  cbn [map] in Hnd. apply NoDup_cons in Hnd as [Hnotin Hnd].
  cbn [flat_map]. rewrite map_app, List.filter_app, length_app, join_block_areas.
  destruct Ha as [-> | Ha].
  - rewrite filter_replicate_eq, length_replicate.
    rewrite (filter_length_zero _ (map Joined.SA22018__1 _)); [lia |].
    intros x Hx. apply String.eqb_neq. intros ->. apply Hnotin.
    apply in_map_iff in Hx as (r & <- & Hr). apply in_flat_map in Hr as (a1 & Ha1 & Hr).
    assert (In (Joined.SA22018__1 r) (map Joined.SA22018__1 (join_block a1 dataframe))) as Hn
      by now apply in_map.
    rewrite join_block_areas in Hn.
    apply list_elem_of_In, elem_of_replicate in Hn as [-> _].
    apply list_elem_of_In. now apply in_map.
  - rewrite filter_replicate_ne; [now rewrite (IH Hnd Ha) |].
    intros E. apply Hnotin. rewrite E. apply list_elem_of_In. now apply in_map.
Qed.

Lemma filter_filter_andb {A : Type} (f g : A -> bool) (l : list A) :
  List.filter g (List.filter f l) = List.filter (fun x => f x && g x) l.
Proof.
  induction l as [| x l IH]; [reflexivity |]. cbn [List.filter].
  destruct (f x); cbn [List.filter andb]; [destruct (g x) |]; now rewrite IH.
Qed.

Lemma fillna_bedrooms_point (l : Csv.row) :
  Csv.longitude (fillna_bedrooms l) = Csv.longitude l /\
  Csv.latitude (fillna_bedrooms l) = Csv.latitude l.
Proof. unfold fillna_bedrooms. destruct (Csv.bedrooms l); split; reflexivity. Qed.

(** X9. After [airbnb_import], [airbnb_count] gives an area of the map
    that is also in the rental index, as its "total", the number of
    entire-home listings of the file that lie inside the area, and 1 when
    there is none: the left join keeps one row for such an area, and the
    count of group sizes counts it.  No such area has a total of 0. *)
Theorem airbnb_total_listings (airbnb_file : list Csv.row) (city_sa2 : list SA2Geo)
    (rental_df : RentalDf) (out : list (Joined.row string)) (a : SA2Geo) :
  airbnb_import airbnb_file city_sa2 = Ok out ->
  NoDup (map geo_SA22018__1 city_sa2) ->
  In a city_sa2 ->
  In (geo_SA22018__1 a) (index rental_df) ->
  In (mkRow (geo_SA22018__1 a) "total"
        (Num (inject_Z (Z.of_nat (Nat.max 1 (length (List.filter
           (fun l => String.eqb (Csv.room_type l) "Entire home/apt" &&
                     geometry a (Csv.longitude l) (Csv.latitude l))
           airbnb_file)))))))
     (airbnb_count out rental_df).
Proof.
  intros Himp Hnd Ha Hidx.
  pose proof (airbnb_count_total out rental_df (geo_SA22018__1 a)
                (airbnb_import_no_total _ _ _ Himp) Hidx) as Hrow.
  assert (length (List.filter
            (fun r => String.eqb (Joined.SA22018__1 r) (geo_SA22018__1 a)) out) =
          Nat.max 1 (length (List.filter
            (fun l => String.eqb (Csv.room_type l) "Entire home/apt" &&
                      geometry a (Csv.longitude l) (Csv.latitude l))
            airbnb_file))) as E; [| now rewrite E in Hrow].
  rewrite <- (length_map (@Joined.SA22018__1 string) (List.filter _ out)).
  rewrite <- (filter_map_comm (fun x => String.eqb x (geo_SA22018__1 a))
                (@Joined.SA22018__1 string) out).
  rewrite (airbnb_import_areas _ _ _ Himp), (sjoin_left_count _ _ a Hnd Ha).
  f_equal. rewrite filter_map_comm, length_map.
  rewrite filter_filter_andb. f_equal. apply filter_ext. intros l.
  destruct (fillna_bedrooms_point l) as [-> ->]. reflexivity.
Qed.

Lemma airbnb_total_listings_witness :
  In (mkRow "B" "total" (Num 1)) (airbnb_count scenario_airbnb_df scenario_rental).
Proof.
  apply (airbnb_total_listings scenario_listings scenario_sa2 scenario_rental
           scenario_airbnb_df (mkSA2Geo "B" (fun lon lat => Qle_bool 1 lon && Qltb lon 2))).
  - reflexivity.
  - apply NoDup_ListNoDup. repeat constructor; cbn; intuition discriminate.
  - right. left. reflexivity.
  - right. left. reflexivity.
Defined.

(** ** The values of the listing prices ([airbnb_price]) *)

Lemma groupby_median_In (df : list (Joined.row string)) (k : key) :
  In k (map listing_key df) ->
  In (mkRow (fst k) (snd k)
        (median (map Joined.price (List.filter (fun r => key_eqb (listing_key r) k) df))))
     (groupby_median df).
Proof.
  intros Hk. unfold groupby_median.
  apply (in_map (fun k => mkRow (fst k) (snd k)
           (median (map Joined.price
              (List.filter (fun r => key_eqb (listing_key r) k) df))))).
  now apply sort_by_In, unique_keys_In.
Qed.

Lemma groupby_median_key (df : list (Joined.row string)) (r : Row value) :
  In r (groupby_median df) -> In (key_of r) (map listing_key df).
Proof.
  unfold groupby_median. intros Hr. apply in_map_iff in Hr as ([a b] & <- & Hk).
  apply sort_by_In in Hk. now apply (proj1 (unique_keys_In _ _)) in Hk.
Qed.

Lemma total_median_In (df : list (Joined.row string)) (a : string) :
  In a (map Joined.SA22018__1 df) ->
  In (mkRow a "total"
        (median (map Joined.price
           (List.filter (fun r => String.eqb (Joined.SA22018__1 r) a) df))))
     (total_median df).
Proof.
  intros Ha. unfold total_median.
  apply (in_map (fun a => mkRow a "total"
           (median (map Joined.price
              (List.filter (fun r => String.eqb (Joined.SA22018__1 r) a) df))))).
  now apply sort_by_In, unique_In.
Qed.

Lemma total_median_key (df : list (Joined.row string)) (r : Row value) :
  In r (total_median df) ->
  bedrooms r = "total" /\ In (SA22018__1 r) (map Joined.SA22018__1 df).
Proof.
  unfold total_median. intros Hr. apply in_map_iff in Hr as (a & <- & Ha).
  cbn [bedrooms SA22018__1]. split; [reflexivity |].
  apply sort_by_In in Ha. now apply (proj1 (unique_In _ _)) in Ha.
Qed.

(** X10. In the listing prices, for every area of the rental index: the
    row of a category of [BEDROOMS_ORDER] other than "total" holds the
    median of the prices of the listing rows under that area and category,
    and the row of "total" the median of the prices of all listing rows
    under that area; where there is no such row, or none with a price, the
    cell holds the fill value 0 instead of NaN. *)
Theorem airbnb_price_values (city_airbnb_df : list (Joined.row string))
    (rental_df : RentalDf) (a : string) :
  (forall r, In r city_airbnb_df -> Joined.bedrooms r <> "total") ->
  In a (index rental_df) ->
  (forall b, In b BEDROOMS_ORDER -> b <> "total" ->
     In (mkRow a b (fillna NA_REPLACEMENT (median (map Joined.price
           (List.filter (fun r => key_eqb (listing_key r) (a, b)) city_airbnb_df)))))
        (airbnb_price city_airbnb_df rental_df)) /\
  In (mkRow a "total" (fillna NA_REPLACEMENT (median (map Joined.price
        (List.filter (fun r => String.eqb (Joined.SA22018__1 r) a) city_airbnb_df)))))
     (airbnb_price city_airbnb_df rental_df).
Proof.
  intros Htotal Ha. unfold airbnb_price. split.
  - intros b Hbin Hbne.
    assert (In (a, b) (all_combinations (unique (index rental_df)) BEDROOMS_ORDER)) as Hdom
      by (apply all_combinations_In; split; [now apply unique_In | exact Hbin]).
    destruct (decide ((a, b) ∈ map listing_key city_airbnb_df)) as [Hin | Hout];
      rewrite list_elem_of_In in *.
    + apply (complete_present NA_REPLACEMENT _ _
               (mkRow a b (median (map Joined.price
                  (List.filter (fun r => key_eqb (listing_key r) (a, b)) city_airbnb_df)))));
        [| exact Hdom].
      apply in_or_app. left. exact (groupby_median_In city_airbnb_df (a, b) Hin).
    + rewrite filter_none.
      * apply (complete_missing NA_REPLACEMENT); [exact Hdom |].
        intros r Hr E. apply in_app_or in Hr as [Hr | Hr].
        -- apply groupby_median_key in Hr. rewrite E in Hr. contradiction.
        -- apply total_median_key in Hr as [Hr _]. injection E as _ E. congruence.
      * intros r Hr. apply not_true_iff_false. intros E. apply key_eqb_eq in E.
        apply Hout. rewrite <- E. now apply in_map.
  - assert (In (a, "total") (all_combinations (unique (index rental_df)) BEDROOMS_ORDER))
      as Hdom.
    { apply all_combinations_In. split; [now apply unique_In |]. cbn. intuition. }
    destruct (decide (a ∈ map Joined.SA22018__1 city_airbnb_df)) as [Hin | Hout];
      rewrite list_elem_of_In in *.
    + apply (complete_present NA_REPLACEMENT _ _
               (mkRow a "total" (median (map Joined.price
                  (List.filter (fun r => String.eqb (Joined.SA22018__1 r) a) city_airbnb_df)))));
        [| exact Hdom].
      apply in_or_app. right. exact (total_median_In city_airbnb_df a Hin).
    + rewrite filter_none.
      * apply (complete_missing NA_REPLACEMENT); [exact Hdom |].
        intros r Hr E. apply in_app_or in Hr as [Hr | Hr].
        -- apply groupby_median_key in Hr. rewrite E in Hr.
           apply in_map_iff in Hr as (x & [= _ Hx] & Hxin). now apply (Htotal x Hxin).
        -- apply total_median_key in Hr as [_ Hr]. injection E as E _.
           apply Hout. now rewrite <- E.
      * intros r Hr. apply not_true_iff_false. intros E. apply String.eqb_eq in E.
        apply Hout. rewrite <- E. now apply in_map.
Qed.

Lemma airbnb_price_values_witness :
  In (mkRow "A" "1" (Num 1050)) (airbnb_price scenario_airbnb_df scenario_rental) /\
  In (mkRow "B" "total" (Num 0)) (airbnb_price scenario_airbnb_df scenario_rental).
Proof.
  split.
  - apply (proj1 (airbnb_price_values scenario_airbnb_df scenario_rental "A"
             ltac:(intros r [<- | [<- | [<- | [<- | []]]]]; discriminate)
             ltac:(left; reflexivity)) "1");
      [left; reflexivity | discriminate].
  - apply (proj2 (airbnb_price_values scenario_airbnb_df scenario_rental "B"
             ltac:(intros r [<- | [<- | [<- | [<- | []]]]]; discriminate)
             ltac:(right; left; reflexivity))).
Defined.

(** ** The aggregate frame ([df_aggregate]) *)

Lemma lookup_key {A B : Type} (l : list (Row A)) (l' : list (Row B)) (i : nat) (r : Row A) :
  map key_of l' = map key_of l -> l !! i = Some r ->
  exists r', l' !! i = Some r' /\ key_of r' = key_of r.
Proof.
  intros Hkeys Hi.
  assert (map key_of l !! i = Some (key_of r)) as Hk
    by (change (map key_of l) with (key_of <$> l); now rewrite list_lookup_fmap, Hi).
  rewrite <- Hkeys in Hk. change (map key_of l') with (key_of <$> l') in Hk.
  rewrite list_lookup_fmap in Hk.
  destruct (l' !! i) as [r' |]; [| discriminate]. cbn in Hk.
  exists r'. split; [reflexivity | congruence].
Qed.

(** X11. [df_aggregate] joins on the row position, not on the key: the
    frame has one row for each row of the rental counts, in their order and
    under their keys.  When the three other tables have the same keys in
    the same order as the rental counts, every row of the aggregate frame
    takes its cells from the four rows that carry its own key. *)
Theorem df_aggregate_aligned (city_rental_count city_airbnb_count : list (Row value))
    (city_rental_price : list (Row RentalPrice)) (city_airbnb_price : list (Row value)) :
  map key_of city_airbnb_count = map key_of city_rental_count ->
  map key_of city_rental_price = map key_of city_rental_count ->
  map key_of city_airbnb_price = map key_of city_rental_count ->
  map (fun g => (Agg.SA2 g, Agg.Bedrooms g))
      (df_aggregate city_rental_count city_airbnb_count city_rental_price city_airbnb_price) =
    map key_of city_rental_count /\
  forall g,
    In g (df_aggregate city_rental_count city_airbnb_count city_rental_price
            city_airbnb_price) ->
    exists rc ac rp ap,
      In rc city_rental_count /\ In ac city_airbnb_count /\
      In rp city_rental_price /\ In ap city_airbnb_price /\
      key_of rc = (Agg.SA2 g, Agg.Bedrooms g) /\
      key_of ac = (Agg.SA2 g, Agg.Bedrooms g) /\
      key_of rp = (Agg.SA2 g, Agg.Bedrooms g) /\
      key_of ap = (Agg.SA2 g, Agg.Bedrooms g) /\
      g = Agg.mk (SA22018__1 rc) (bedrooms rc) (cols rc) (cols ac)
            (price_str (cols rp)) (price_basic (cols rp)) (price_average (cols rp))
            (cols ap).
Proof.
  intros Hac Hrp Hap. split.
  - unfold df_aggregate. apply list_eq. intros i.
    change (map ?f ?l) with (f <$> l). rewrite !list_lookup_fmap, list_lookup_imap.
    destruct (city_rental_count !! i); reflexivity.
  - intros g Hg. apply list_elem_of_In, list_elem_of_lookup in Hg as [i Hi].
    unfold df_aggregate in Hi. rewrite list_lookup_imap in Hi.
    destruct (city_rental_count !! i) as [rc |] eqn:Hrc; [| discriminate].
    cbn in Hi. injection Hi as <-.
    destruct (lookup_key _ city_airbnb_count i rc Hac Hrc) as (ac & Eac & Kac).
    destruct (lookup_key _ city_rental_price i rc Hrp Hrc) as (rp & Erp & Krp).
    destruct (lookup_key _ city_airbnb_price i rc Hap Hrc) as (ap & Eap & Kap).
    exists rc, ac, rp, ap. unfold joined_cell. rewrite Eac, Erp, Eap.
    cbn [Agg.SA2 Agg.Bedrooms].
    repeat split; try assumption; try reflexivity;
      apply list_elem_of_In; eapply list_elem_of_lookup_2; eassumption.
Qed.

Lemma df_aggregate_aligned_witness :
  map (fun g => (Agg.SA2 g, Agg.Bedrooms g))
      (df_aggregate [mkRow "A" "1" (Num 5)] [mkRow "A" "1" (Num 3)]
         [mkRow "A" "1" (mkRentalPrice (Str "$300 - $399") (Num 4.0) (Num 349.5))]
         [mkRow "A" "1" (Num 1050)]) =
    [("A", "1")].
Proof.
  exact (proj1 (df_aggregate_aligned [mkRow "A" "1" (Num 5)] [mkRow "A" "1" (Num 3)]
                  [mkRow "A" "1" (mkRentalPrice (Str "$300 - $399") (Num 4.0) (Num 349.5))]
                  [mkRow "A" "1" (Num 1050)] eq_refl eq_refl eq_refl)).
Defined.

(** ** The completed rental prices ([fill_rental_price]) *)

Lemma fill_rental_price_unfold (rental_df : RentalDf) (incomplete : list (Row value)) :
  incomplete <> [] ->
  fill_rental_price rental_df incomplete =
    Ok (map_cols (fun p =>
          mkRentalPrice p (series_replace basic_price_dict p)
            (series_replace average_price_dict p))
        (sort_values
           (map_cols (fillna (Str "0"))
              (merge_right NaN incomplete
                 (all_combinations (unique (index rental_df))
                    (unique (map bedrooms incomplete))))))).
Proof. destruct incomplete; [contradiction | reflexivity]. Qed.

(** X12. On a partial price table that has a row and no key twice,
    [fill_rental_price] returns a table with exactly one row for each area
    of the rental index and each category that occurs in the partial table
    (not each category of [BEDROOMS_ORDER]), in key order.  A row of the
    partial table under an area of the index keeps its price label and gets
    the two numbers that the price tables give that label; a pair without a
    row gets the label "0" and the numbers 0. *)
Theorem fill_rental_price_table (rental_df : RentalDf)
    (incomplete_rental_price : list (Row value)) :
  incomplete_rental_price <> [] ->
  NoDup (map key_of incomplete_rental_price) ->
  exists filled : list (Row RentalPrice),
    fill_rental_price rental_df incomplete_rental_price = Ok filled /\
    map key_of filled =
      sort_by key_leb
        (all_combinations (unique (index rental_df))
           (unique (map bedrooms incomplete_rental_price))) /\
    length filled =
      (length (unique (index rental_df)) *
       length (unique (map bedrooms incomplete_rental_price)))%nat /\
    (forall r, In r incomplete_rental_price -> In (SA22018__1 r) (index rental_df) ->
       In (mkRow (SA22018__1 r) (bedrooms r)
             (mkRentalPrice (fillna (Str "0") (cols r))
                (series_replace basic_price_dict (fillna (Str "0") (cols r)))
                (series_replace average_price_dict (fillna (Str "0") (cols r)))))
          filled) /\
    (forall a b, In a (index rental_df) -> In b (map bedrooms incomplete_rental_price) ->
       (forall r, In r incomplete_rental_price -> key_of r <> (a, b)) ->
       In (mkRow a b (mkRentalPrice (Str "0") (Num 0.0) (Num 0.0))) filled).
Proof.
  intros Hne Hnd. pose proof (fill_rental_price_unfold rental_df _ Hne) as Hfill.
  eexists. split; [exact Hfill |].
  pose proof (fill_rental_price_keys _ _ _ Hfill Hnd) as Hkeys.
  split; [exact Hkeys |]. split; [| split].
  - rewrite <- (length_map key_of), Hkeys, sort_by_length. apply all_combinations_length.
  - intros r Hr Ha.
    apply (map_cols_In
             (fun p => mkRentalPrice p (series_replace basic_price_dict p)
                         (series_replace average_price_dict p)) _
             (mkRow (SA22018__1 r) (bedrooms r) (fillna (Str "0") (cols r)))).
    apply complete_present; [exact Hr |].
    destruct r as [a b c]. apply all_combinations_In. cbn [SA22018__1 bedrooms] in *.
    split; [now apply unique_In |].
    apply unique_In. apply in_map_iff. exists (mkRow a b c). now split.
  - intros a b Ha Hb Hnone.
    exact (fill_rental_price_default _ _ _ a b Hfill Ha Hb Hnone).
Qed.

Lemma fill_rental_price_table_witness :
  exists filled : list (Row RentalPrice),
    fill_rental_price scenario_rental [mkRow "A" "1" (Str "$300 - $399")] = Ok filled /\
    length filled = 2%nat /\
    In (mkRow "B" "1" (mkRentalPrice (Str "0") (Num 0.0) (Num 0.0))) filled.
Proof.
  destruct (fill_rental_price_table scenario_rental [mkRow "A" "1" (Str "$300 - $399")])
    as (filled & Hfill & _ & Hlen & _ & Hmissing).
  - discriminate.
  - apply NoDup_ListNoDup. repeat constructor. cbn. intuition.
  - exists filled. split; [exact Hfill |]. split; [exact Hlen |].
    apply Hmissing.
    + right. left. reflexivity.
    + left. reflexivity.
    + intros r [<- | []]. discriminate.
Defined.

(** ** The column labels of the rental table *)

Lemma sub_matches_skip_all (m : string -> option nat) (new s : string) (k : nat) :
  (String.length s <= k)%nat -> sub_matches m new k s = "".
Proof.
  revert k. induction s as [| c s IH]; intros k Hk; [reflexivity |].
  cbn [String.length] in Hk. destruct k as [| k]; [lia |].
  cbn [sub_matches]. apply IH. lia.
Qed.

(** X13. A column label that [dotstat_import] builds, the text
    [category: name] with the category of position [k] of [CATEGORIES] and
    a name that starts with no white space and holds a dollar sign, is read
    back by [assign_rental_price] as the category of position [k] of
    [BEDROOMS_ORDER] and as the name from its first dollar sign on
    ("Under $100" when that is just "$100"). *)
Theorem category_labels_decode (k : nat) (category : string) (c : ascii)
    (name tail : string) :
  CATEGORIES !! k = Some category ->
  is_space c = false ->
  from_first_dollar (String c name) = Some tail ->
  BEDROOMS_ORDER !! k = Some (bedrooms_of_label (category ++ ": " ++ String c name)) /\
  price_str_of_label (category ++ ": " ++ String c name) = under_100 tail.
Proof.
  intros Hk Hc Htail.
  destruct k as [| [| [| [| [| [| [| [| [| k]]]]]]]]]; try discriminate Hk;
    injection Hk as <-; split.
  all: try (unfold bedrooms_of_label; cbv [String.append];
            cbn -[is_space str_replace]; rewrite Hc; cbn -[str_replace];
            rewrite sub_matches_skip_all by lia; reflexivity).
  all: unfold price_str_of_label, drop_to_dollar; remember (String c name) as label;
    cbv [String.append]; cbn [from_first_dollar Ascii.eqb Bool.eqb];
    now rewrite Htail.
Qed.

Lemma category_labels_decode_witness :
  BEDROOMS_ORDER !! 8%nat =
    Some (bedrooms_of_label
            ("Total households stated - number of bedrooms" ++ ": " ++ "Under $100")) /\
  price_str_of_label
    ("Total households stated - number of bedrooms" ++ ": " ++ "Under $100") = "Under $100".
Proof.
  exact (category_labels_decode 8 "Total households stated - number of bedrooms"
           "U" "nder $100" "$100" eq_refl eq_refl eq_refl).
Defined.

(** ** The rental counts ([rental_count]) *)

Lemma select_lookup {A B : Type} (mask : list bool) (l : list A) (l' : list B)
    (i : nat) (x : A) (y : B) :
  mask !! i = Some true -> l !! i = Some x -> l' !! i = Some y ->
  exists j, select mask l !! j = Some x /\ select mask l' !! j = Some y.
Proof.
  revert l l' i. induction mask as [| b mask IH]; intros l l' i Hm Hl Hl';
    [discriminate |].
  destruct l as [| x0 l]; [discriminate |]. destruct l' as [| y0 l']; [discriminate |].
  destruct i as [| i].
  - cbn in Hm, Hl, Hl'. injection Hm as ->. injection Hl as ->. injection Hl' as ->.
    exists O. split; reflexivity.
  - cbn in Hm, Hl, Hl'. destruct (IH l l' i Hm Hl Hl') as (j & H1 & H2).
    cbn [select]. destruct b; [exists (S j) | exists j]; split; assumption.
Qed.

Lemma melt_In (df : RentalDf) (r : string * list Z) (j : nat) (c : string) :
  In r (rows df) -> columns df !! j = Some c ->
  In (mkRow (fst r) c (cell_at j (snd r))) (melt df).
Proof.
  intros Hr Hc. unfold melt. apply in_flat_map. exists (j, c). split.
  - apply list_elem_of_In, (list_elem_of_lookup_2 _ j).
    now rewrite list_lookup_imap, Hc.
  - apply (in_map (fun r : string * list Z => mkRow (fst r) c (cell_at j (snd r)))), Hr.
Qed.

Lemma melt_length (df : RentalDf) :
  length (melt df) = (length (columns df) * length (rows df))%nat.
Proof.
  unfold melt. generalize (imap (fun j c => (j, c)) (columns df)) (length_imap
    (fun (j : nat) (c : string) => (j, c)) (columns df)).
  intros l <-. induction l as [| x l IH]; [reflexivity |].
  cbn [flat_map length]. rewrite length_app, length_map, IH. reflexivity.
Qed.

(** X14. [rental_count] has one row for each area row of the rental table
    and each column whose label contains ": Total households stated": the
    row holds the area, the label cut down to its bedroom category, and the
    cell of that area under that column.  The nine labels that
    [dotstat_import] builds for these columns are cut down to the nine
    categories of [BEDROOMS_ORDER], position by position. *)
Theorem rental_count_cells (rental_df : RentalDf) (a : string) (cells : list Z)
    (i : nat) (label : string) (z : Z) :
  In (a, cells) (rows rental_df) ->
  columns rental_df !! i = Some label ->
  contains ": Total households stated" label = true ->
  cells !! i = Some z ->
  In (mkRow a
        (str_replace "Total households stated - number of" "total"
           (sub_matches re_bedrooms_total "" O label))
        (Num (inject_Z z)))
     (rental_count rental_df) /\
  length (rental_count rental_df) =
    (length (columns (filter_like ": Total households stated" rental_df)) *
     length (rows rental_df))%nat /\
  map (fun category =>
         str_replace "Total households stated - number of" "total"
           (sub_matches re_bedrooms_total "" O (category ++ ": Total households stated")))
      CATEGORIES = BEDROOMS_ORDER.
Proof.
  intros Hrow Hcol Hlike Hcell. split; [| split; [| reflexivity]].
  - unfold rental_count.
    set (sub := ": Total households stated") in *.
    set (mask := map (contains sub) (columns rental_df)).
    assert (mask !! i = Some true) as Hmask.
    { unfold mask. change (map ?f ?l) with (f <$> l).
      now rewrite list_lookup_fmap, Hcol; cbn; rewrite Hlike. }
    destruct (select_lookup mask _ _ i label z Hmask Hcol Hcell) as (j & Hj & Hz).
    apply (in_map (fun r : Row value =>
             mkRow (SA22018__1 r)
               (str_replace "Total households stated - number of" "total"
                  (sub_matches re_bedrooms_total "" O (bedrooms r)))
               (cols r)) _ (mkRow a label (Num (inject_Z z)))).
    apply sort_by_In.
    assert (Num (inject_Z z) = cell_at j (select mask cells)) as ->
      by (unfold cell_at; now rewrite Hz).
    apply (melt_In (filter_like sub rental_df) (a, select mask cells) j label).
    + unfold filter_like. cbn [rows]. fold mask.
      apply (in_map (fun r : string * list Z => (fst r, select mask (snd r))) _ (a, cells)),
        Hrow.
    + exact Hj.
  - unfold rental_count. rewrite length_map.
    unfold sort_values. rewrite sort_by_length, melt_length.
    unfold filter_like at 2. cbn [rows]. now rewrite length_map.
Qed.

Lemma rental_count_cells_witness :
  In (mkRow "A" "1" (Num 5)) (rental_count scenario_rental).
Proof.
  apply (proj1 (rental_count_cells scenario_rental "A"
                  (block 4 5 ++ concat (replicate 7 empty_block) ++ block 4 5)
                  8 "1 bedroom: Total households stated" 5
                  ltac:(left; reflexivity) eq_refl eq_refl eq_refl)).
Defined.

(** ** The renaming loops of [dotstat_import] *)

Lemma rename_length (column new : string) (columns : list string) :
  length (rename column new columns) = length columns.
Proof. apply length_map. Qed.

Lemma fold_rename_step (snapshot : list string) (st : Loop) :
  length (loop_columns (fold_left rename_step snapshot st)) = length (loop_columns st) /\
  suffix_num (fold_left rename_step snapshot st) = suffix_num st /\
  col_within_category (fold_left rename_step snapshot st) =
    (col_within_category st + length snapshot)%nat /\
  col_num (fold_left rename_step snapshot st) = (col_num st + length snapshot)%nat.
Proof.
  revert st. induction snapshot as [| c snapshot IH]; intros st; cbn [fold_left length].
  - repeat split; lia.
  - destruct (IH (rename_step st c)) as (H1 & H2 & H3 & H4).
    rewrite H1, H2, H3, H4. unfold rename_step.
    cbn [loop_columns suffix_num col_within_category col_num].
    rewrite rename_length. repeat split; lia.
Qed.

Lemma slice_length_min {A : Type} (lo hi : nat) (l : list A) :
  length (slice lo hi l) = Nat.min (hi - lo) (length l - lo).
Proof. unfold slice. now rewrite length_take, length_drop. Qed.

(** One pass of the [for] loop: it renames the columns that are left of
    the next nine, and counts them. *)
Lemma rename_for_counts (st : Loop) :
  length (loop_columns (rename_for st)) = length (loop_columns st) /\
  suffix_num (rename_for st) = suffix_num st /\
  col_within_category (rename_for st) =
    (col_within_category st + Nat.min 9 (length (loop_columns st) - col_num st))%nat /\
  col_num (rename_for st) =
    (col_num st + Nat.min 9 (length (loop_columns st) - col_num st))%nat.
Proof.
  unfold rename_for.
  destruct (fold_rename_step
              (slice (col_num st) (col_num st + COLS_PER_CATEGORY) (loop_columns st)) st)
    as (H1 & H2 & H3 & H4).
  rewrite H1, H2, H3, H4, slice_length_min. unfold COLS_PER_CATEGORY.
  replace (col_num st + 9 - col_num st)%nat with 9%nat by lia. repeat split.
Qed.

Lemma rename_for_past_end (st : Loop) :
  (length (loop_columns st) <= col_num st)%nat -> rename_for st = st.
Proof.
  intros H. unfold rename_for, slice. rewrite drop_ge by exact H. now rewrite take_nil.
Qed.

(** With fewer than nine columns counted and no column left, the inner
    loop does not end. *)
Lemma inner_while_stuck (fuel : nat) (st : Loop) :
  (col_within_category st < 9)%nat -> (length (loop_columns st) <= col_num st)%nat ->
  inner_while fuel st = None.
Proof.
  intros Hw Hn. induction fuel as [| fuel IH]; [reflexivity |].
  cbn [inner_while]. unfold COLS_PER_CATEGORY.
  rewrite (proj2 (Nat.ltb_lt _ _) Hw), rename_for_past_end by exact Hn. exact IH.
Qed.

Lemma inner_while_some (fuel : nat) (st st' : Loop) :
  col_within_category st = O -> inner_while fuel st = Some st' ->
  (col_num st + 9 <= length (loop_columns st))%nat /\ st' = rename_for st.
Proof.
  intros Hw H. destruct fuel as [| fuel]; [discriminate |].
  cbn [inner_while] in H. rewrite Hw in H. cbn in H.
  destruct (rename_for_counts st) as (H1 & H2 & H3 & H4).
  destruct (le_lt_dec (col_num st + 9) (length (loop_columns st))) as [Hle | Hlt].
  - split; [exact Hle |]. destruct fuel as [| fuel]; [discriminate |].
    cbn [inner_while] in H. unfold COLS_PER_CATEGORY in H.
    rewrite (proj2 (Nat.ltb_ge _ _)) in H by lia. now injection H as <-.
  - rewrite inner_while_stuck in H by lia. discriminate.
Qed.

Lemma inner_while_ok (fuel : nat) (st : Loop) :
  col_within_category st = O -> (col_num st + 9 <= length (loop_columns st))%nat ->
  inner_while (S (S fuel)) st = Some (rename_for st).
Proof.
  intros Hw Hle. destruct (rename_for_counts st) as (H1 & H2 & H3 & H4).
  cbn [inner_while]. unfold COLS_PER_CATEGORY. rewrite Hw.
  change (0 <? 9)%nat with true. cbv iota.
  now rewrite (proj2 (Nat.ltb_ge _ _)) by lia.
Qed.

Lemma outer_while_diverges (fuel : nat) (st : Loop) :
  (length (loop_columns st) < 81)%nat -> col_within_category st = O ->
  col_num st = (9 * suffix_num st)%nat -> (suffix_num st < 9)%nat ->
  outer_while fuel st = None.
Proof.
  revert st. induction fuel as [| fuel IH]; intros st Hn Hw Hc Hk; [reflexivity |].
  cbn [outer_while]. change (length CATEGORIES) with 9%nat.
  rewrite (proj2 (Nat.ltb_lt _ _) Hk).
  destruct (inner_while fuel st) as [st' |] eqn:E; [| reflexivity].
  apply inner_while_some in E as [Hle ->]; [| exact Hw].
  destruct (rename_for_counts st) as (H1 & H2 & H3 & H4).
  apply IH; cbn [loop_columns suffix_num col_within_category col_num]; lia.
Qed.

(** X15. On a sheet with fewer than 81 columns the renaming loops of
    [dotstat_import] never end, whatever the fuel: with fewer than nine
    columns left for a category, [col_within_category] stays below
    [COLS_PER_CATEGORY] and the slice of the next columns is empty. *)
Theorem dotstat_import_diverges (sheet : Sheet) (fuel : nat) :
  (length (sheet_columns sheet) < 81)%nat ->
  dotstat_import fuel sheet = None.
Proof.
  intros Hn. unfold dotstat_import.
  rewrite outer_while_diverges; cbn [loop_columns suffix_num col_within_category col_num];
    [reflexivity | exact Hn | reflexivity | reflexivity | lia].
Qed.

Lemma dotstat_import_diverges_witness :
  dotstat_import 1000 (mkSheet (take 80 sheet_labels) (sheet_rows example_sheet)) = None.
Proof.
  apply (dotstat_import_diverges
           (mkSheet (take 80 sheet_labels) (sheet_rows example_sheet)) 1000).
  vm_compute. lia.
Defined.

Lemma strip_prefix_app (p s : string) : strip_prefix p (p ++ s) = Some s.
Proof.
  induction p as [| c p IH]; [destruct s; reflexivity |].
  change (String c p ++ s)%string with (String c (p ++ s)%string).
  cbn [strip_prefix]. now rewrite Ascii.eqb_refl.
Qed.

Lemma contains_app (sub a b : string) : contains sub (a ++ sub ++ b) = true.
Proof.
  induction a as [| c a IH].
  - change ("" ++ sub ++ b)%string with (sub ++ b)%string.
    destruct (sub ++ b)%string eqn:E; cbn [contains]; rewrite <- E, strip_prefix_app;
      reflexivity.
  - change (String c a ++ sub ++ b)%string with (String c (a ++ sub ++ b)%string).
    cbn [contains]. rewrite IH. now destruct (strip_prefix sub _).
Qed.

Lemma new_column_name_contains (k : nat) (column : string) :
  contains ": " (new_column_name k column) = true.
Proof. unfold new_column_name. apply contains_app. Qed.

(** Renaming the column of position [j], when the columns before it have
    been renamed: only that column changes. *)
Lemma renamed_step (columns : list string) (j : nat) (column : string) :
  NoDup columns -> Forall (fun c => contains ": " c = false) columns ->
  columns !! j = Some column ->
  rename column (new_column_name (j / 9) column) (renamed j columns) =
    renamed (S j) columns.
Proof.
  intros Hnd Hcolon Hj. apply list_eq. intros i. unfold rename, renamed.
  change (map ?f ?l) with (f <$> l). rewrite list_lookup_fmap, !list_lookup_imap.
  destruct (columns !! i) as [ci |] eqn:Ei; [| reflexivity].
  unfold COLS_PER_CATEGORY. cbn -[Nat.ltb Nat.div new_column_name String.eqb]. f_equal.
  destruct (lt_eq_lt_dec i j) as [[Hlt | ->] | Hgt].
  - rewrite (proj2 (Nat.ltb_lt i j)), (proj2 (Nat.ltb_lt i (S j))) by lia.
    destruct (String.eqb_spec (new_column_name (i / 9) ci) column) as [E |]; [| reflexivity].
    pose proof (new_column_name_contains (i / 9) ci) as Hc. rewrite E in Hc.
    rewrite Forall_forall in Hcolon.
    rewrite (Hcolon column) in Hc; [discriminate |].
    eapply list_elem_of_lookup_2; exact Hj.
  - rewrite Hj in Ei. injection Ei as <-.
    now rewrite Nat.ltb_irrefl, String.eqb_refl, (proj2 (Nat.ltb_lt j (S j))) by lia.
  - rewrite (proj2 (Nat.ltb_ge i j)), (proj2 (Nat.ltb_ge i (S j))) by lia.
    destruct (String.eqb_spec ci column) as [-> |]; [| reflexivity].
    pose proof (NoDup_lookup _ _ _ _ Hnd Ei Hj). lia.
Qed.

Lemma fold_renamed (columns : list string) (k : nat) :
  NoDup columns -> Forall (fun c => contains ": " c = false) columns ->
  forall (snapshot : list string) (j w : nat),
    (forall t c, snapshot !! t = Some c ->
       columns !! (j + t)%nat = Some c /\ ((j + t) / 9)%nat = k) ->
    fold_left rename_step snapshot (mkLoop (renamed j columns) k w j) =
      mkLoop (renamed (j + length snapshot) columns) k (w + length snapshot)
        (j + length snapshot).
Proof.
  intros Hnd Hcolon. induction snapshot as [| c snapshot IH]; intros j w H.
  - cbn [fold_left length]. now rewrite !Nat.add_0_r.
  - cbn [fold_left length]. unfold rename_step at 2.
    cbn [loop_columns suffix_num col_within_category col_num].
    destruct (H O c eq_refl) as [Hc Hk]. rewrite Nat.add_0_r in Hc, Hk.
    rewrite <- Hk at 1. rewrite (renamed_step columns j c Hnd Hcolon Hc).
    rewrite IH; [now rewrite !Nat.add_succ_r |].
    intros t c' Ht. specialize (H (S t) c' Ht). now rewrite Nat.add_succ_r in H.
Qed.

Lemma renamed_length (j : nat) (columns : list string) :
  length (renamed j columns) = length columns.
Proof. apply length_imap. Qed.

(** One pass of the [for] loop on nine columns not yet renamed. *)
Lemma rename_for_renamed (columns : list string) (k : nat) :
  NoDup columns -> Forall (fun c => contains ": " c = false) columns ->
  (9 * k + 9 <= length columns)%nat ->
  rename_for (mkLoop (renamed (9 * k) columns) k O (9 * k)) =
    mkLoop (renamed (9 * k + 9) columns) k 9 (9 * k + 9).
Proof.
  intros Hnd Hcolon Hle. unfold rename_for.
  cbn [loop_columns suffix_num col_within_category col_num].
  set (snapshot := slice _ _ _).
  assert (length snapshot = 9%nat) as Hlen.
  { unfold snapshot. rewrite slice_length_min, renamed_length. unfold COLS_PER_CATEGORY. lia. }
  rewrite (fold_renamed columns k Hnd Hcolon snapshot); [now rewrite Hlen |].
  intros t c Ht.
  assert (t < 9)%nat as Hlt by (rewrite <- Hlen; eapply lookup_lt_Some; exact Ht).
  split; [| symmetry; apply (Nat.div_unique _ 9 k t); lia].
  unfold snapshot, slice in Ht. rewrite lookup_take_lt in Ht by (unfold COLS_PER_CATEGORY; lia).
  rewrite lookup_drop in Ht. unfold renamed in Ht. rewrite list_lookup_imap in Ht.
  destruct (columns !! (9 * k + t)%nat) as [c0 |]; [| discriminate].
  cbn -[Nat.ltb Nat.div Nat.mul new_column_name] in Ht.
  now rewrite (proj2 (Nat.ltb_ge _ _)) in Ht by lia.
Qed.

Lemma outer_while_renamed (columns : list string) :
  NoDup columns -> Forall (fun c => contains ": " c = false) columns ->
  (81 <= length columns)%nat ->
  forall (d k fuel : nat), (k + d = 9)%nat -> (d + 2 <= fuel)%nat ->
    outer_while fuel (mkLoop (renamed (9 * k) columns) k O (9 * k)) =
      Some (mkLoop (renamed 81 columns) 9 O 81).
Proof.
  intros Hnd Hcolon Hn. induction d as [| d IH]; intros k fuel Hk Hfuel.
  - replace k with 9%nat by lia. destruct fuel as [| fuel]; [lia |]. reflexivity.
  - destruct fuel as [| fuel]; [lia |].
    cbn [outer_while]. cbn [suffix_num]. change (length CATEGORIES) with 9%nat.
    rewrite (proj2 (Nat.ltb_lt k 9)) by lia.
    destruct fuel as [| [| fuel]]; try lia.
    rewrite inner_while_ok;
      [| reflexivity
       | cbn [loop_columns col_num]; rewrite renamed_length; lia].
    rewrite rename_for_renamed by (assumption || lia).
    cbn [loop_columns suffix_num col_num].
    replace (9 * k + 9)%nat with (9 * S k)%nat by lia.
    apply IH; lia.
Qed.

(** With 81 columns or more the loops end, whatever the labels. *)
Lemma outer_while_ends (d : nat) :
  forall (st : Loop) (fuel : nat),
    (suffix_num st + d = 9)%nat -> (d + 2 <= fuel)%nat ->
    col_within_category st = O -> col_num st = (9 * suffix_num st)%nat ->
    (81 <= length (loop_columns st))%nat ->
    exists st', outer_while fuel st = Some st' /\
      length (loop_columns st') = length (loop_columns st).
Proof.
  induction d as [| d IH]; intros st fuel Hk Hfuel Hw Hc Hn.
  - destruct fuel as [| fuel]; [lia |]. exists st. cbn [outer_while].
    change (length CATEGORIES) with 9%nat.
    now rewrite (proj2 (Nat.ltb_ge _ _)) by lia.
  - destruct fuel as [| fuel]; [lia |].
    cbn [outer_while]. change (length CATEGORIES) with 9%nat.
    rewrite (proj2 (Nat.ltb_lt _ 9)) by lia.
    destruct fuel as [| [| fuel]]; try lia.
    rewrite inner_while_ok by (assumption || lia).
    destruct (rename_for_counts st) as (H1 & H2 & H3 & H4).
    destruct (IH (mkLoop (loop_columns (rename_for st)) (S (suffix_num (rename_for st))) O
                    (col_num (rename_for st))) (S (S fuel)))
      as (st' & Hst' & Hlen);
      cbn [loop_columns suffix_num col_within_category col_num]; try lia.
    exists st'. split; [exact Hst' |].
    cbn [loop_columns] in Hlen. now rewrite Hlen.
Qed.

(** X16. On a sheet with 81 columns or more, [dotstat_import] returns
    once the fuel allows the nine passes: the table has as many columns as
    the sheet, the rows of the sheet but the first, their labels without
    their first two characters, and 0 in place of a confidential cell.
    When the sheet's labels are distinct and none holds ": ", column [i] of
    the first 81 carries the category of position [i / 9] of [CATEGORIES],
    ": ", and its old label without the suffix [.(i / 9)]; the columns
    after them keep their labels. *)
Theorem dotstat_import_returns (sheet : Sheet) (fuel : nat) :
  (81 <= length (sheet_columns sheet))%nat -> (11 <= fuel)%nat ->
  exists rental_df : RentalDf,
    dotstat_import fuel sheet = Some rental_df /\
    length (columns rental_df) = length (sheet_columns sheet) /\
    rows rental_df =
      tail (map (fun r => (drop_chars 2 (fst r), map replace_confidential (snd r)))
              (sheet_rows sheet)) /\
    (NoDup (sheet_columns sheet) ->
     Forall (fun c => contains ": " c = false) (sheet_columns sheet) ->
     forall (i : nat) (column : string), sheet_columns sheet !! i = Some column ->
       columns rental_df !! i =
         Some (if (i <? 81)%nat then new_column_name (i / 9) column else column)).
Proof.
  intros Hn Hfuel.
  destruct (outer_while_ends 9 (mkLoop (sheet_columns sheet) O O O) fuel)
    as (st & Hst & Hlen); cbn [loop_columns suffix_num col_within_category col_num];
    try lia.
  unfold dotstat_import. rewrite Hst. eexists. split; [reflexivity |].
  cbn [columns rows]. split; [exact Hlen |]. split; [now rewrite map_map |].
  intros Hnd Hcolon i column Hi.
  assert (sheet_columns sheet = renamed (9 * 0) (sheet_columns sheet)) as E0.
  { unfold renamed. apply list_eq. intros j. rewrite list_lookup_imap.
    now destruct (sheet_columns sheet !! j). }
  pose proof (outer_while_renamed _ Hnd Hcolon Hn 9 0 fuel eq_refl) as Hren.
  rewrite <- E0 in Hren. change (9 * 0)%nat with O in Hren.
  rewrite Hren in Hst by lia.
  injection Hst as <-. cbn [loop_columns]. unfold renamed.
  now rewrite list_lookup_imap, Hi.
Qed.

Lemma dotstat_import_returns_witness :
  exists rental_df : RentalDf,
    dotstat_import 11 example_sheet = Some rental_df /\
    length (columns rental_df) = 81%nat /\
    map fst (rows rental_df) = ["A"] /\
    columns rental_df !! 9%nat = Some "2 bedrooms: Under $100".
Proof.
  destruct (dotstat_import_returns example_sheet 11)
    as (rental_df & Himp & Hlen & Hrows & Hcols).
  - vm_compute. lia.
  - lia.
  - exists rental_df. split; [exact Himp |]. split; [exact Hlen |].
    split; [now rewrite Hrows |].
    apply (Hcols ltac:(apply (bool_decide_unpack _); vm_compute; exact I)
                 ltac:(apply (bool_decide_unpack _); vm_compute; exact I)
                 9%nat "Under $100.1" eq_refl).
Defined.

(** ** The order of the keys *)

Lemma ascii_compare_refl (a : ascii) : Ascii.compare a a = Eq.
Proof. apply N.compare_refl. Qed.

Lemma ascii_compare_lt_trans (a b c : ascii) :
  Ascii.compare a b = Lt -> Ascii.compare b c = Lt -> Ascii.compare a c = Lt.
Proof. unfold Ascii.compare. rewrite !N.compare_lt_iff. apply N.lt_trans. Qed.

Lemma string_compare_lt_trans (a b c : string) :
  String.compare a b = Lt -> String.compare b c = Lt -> String.compare a c = Lt.
Proof.
  revert b c. induction a as [| x a IH]; intros [| y b] [| z c]; cbn [String.compare];
    try easy.
  destruct (Ascii.compare x y) eqn:E1; try discriminate;
    destruct (Ascii.compare y z) eqn:E2; try discriminate; intros H1 H2.
  - apply Ascii.compare_eq_iff in E1, E2. subst. rewrite ascii_compare_refl. eauto.
  - apply Ascii.compare_eq_iff in E1. subst. now rewrite E2.
  - apply Ascii.compare_eq_iff in E2. subst. now rewrite E1.
  - now rewrite (ascii_compare_lt_trans x y z E1 E2).
Qed.

Lemma string_compare_refl (a : string) : String.compare a a = Eq.
Proof. induction a as [| x a IH]; cbn; [reflexivity | now rewrite ascii_compare_refl]. Qed.

Lemma string_leb_trans (a b c : string) :
  String.leb a b = true -> String.leb b c = true -> String.leb a c = true.
Proof.
  unfold String.leb.
  destruct (String.compare a b) eqn:E1; try discriminate;
    destruct (String.compare b c) eqn:E2; try discriminate; intros _ _.
  - apply String.compare_eq_iff in E1, E2. subst. now rewrite string_compare_refl.
  - apply String.compare_eq_iff in E1. subst. now rewrite E2.
  - apply String.compare_eq_iff in E2. subst. now rewrite E1.
  - now rewrite (string_compare_lt_trans a b c E1 E2).
Qed.

Lemma key_leb_total (k1 k2 : key) : key_leb k1 k2 = true \/ key_leb k2 k1 = true.
Proof.
  unfold key_leb. rewrite (String.compare_antisym (fst k2)).
  destruct (String.compare (fst k1) (fst k2)); cbn; auto using String.leb_total.
Qed.

Lemma key_leb_antisym (k1 k2 : key) :
  key_leb k1 k2 = true -> key_leb k2 k1 = true -> k1 = k2.
Proof.
  destruct k1 as [a1 b1], k2 as [a2 b2]. unfold key_leb. cbn [fst snd].
  rewrite (String.compare_antisym a2 a1).
  destruct (String.compare a1 a2) eqn:E; cbn; try discriminate.
  intros H1 H2. apply String.compare_eq_iff in E.
  now rewrite E, (String.leb_antisym _ _ H1 H2).
Qed.

Lemma key_leb_trans (k1 k2 k3 : key) :
  key_leb k1 k2 = true -> key_leb k2 k3 = true -> key_leb k1 k3 = true.
Proof.
  destruct k1 as [a1 b1], k2 as [a2 b2], k3 as [a3 b3]. unfold key_leb. cbn [fst snd].
  destruct (String.compare a1 a2) eqn:E1; try discriminate;
    destruct (String.compare a2 a3) eqn:E2; try discriminate; intros H1 H2.
  - apply String.compare_eq_iff in E1, E2. subst. rewrite string_compare_refl.
    eapply string_leb_trans; eassumption.
  - apply String.compare_eq_iff in E1. subst. now rewrite E2.
  - apply String.compare_eq_iff in E2. subst. now rewrite E1.
  - now rewrite (string_compare_lt_trans a1 a2 a3 E1 E2).
Qed.

(** ** Sorting *)

Section Sorting.
Context {A : Type} (leb : A -> A -> bool).
Hypothesis leb_total : forall x y, leb x y = true \/ leb y x = true.
Hypothesis leb_trans : forall x y z, leb x y = true -> leb y z = true -> leb x z = true.
Hypothesis leb_antisym : forall x y, leb x y = true -> leb y x = true -> x = y.

Lemma insert_by_sorted (x : A) (l : list A) :
  sorted_by leb l -> sorted_by leb (insert_by leb x l).
Proof.
  induction l as [| y l IH]; cbn [insert_by sorted_by]; [now split |].
  intros [Hy Hl]. destruct (leb x y) eqn:E; cbn [sorted_by].
  - split; [| now split]. constructor; [exact E |].
    eapply Forall_impl; [exact Hy |]. intros z Hz. cbn beta in *. eauto.
  - split; [| now apply IH].
    apply Forall_forall. intros z Hz. apply list_elem_of_In in Hz.
    apply (Permutation_in _ (insert_by_perm leb x l)) in Hz as [<- | Hz].
    + destruct (leb_total x y) as [H | H]; [congruence | exact H].
    + rewrite Forall_forall in Hy. apply Hy, list_elem_of_In, Hz.
Qed.

Lemma sort_by_sorted (l : list A) : sorted_by leb (sort_by leb l).
Proof.
  induction l as [| x l IH]; [exact I |].
  cbn [sort_by foldr]. fold (sort_by leb l). now apply insert_by_sorted.
Qed.

Lemma sorted_by_unique (l1 l2 : list A) :
  sorted_by leb l1 -> sorted_by leb l2 -> Permutation l1 l2 -> l1 = l2.
Proof.
  revert l2. induction l1 as [| x1 l1 IH]; intros l2 H1 H2 Hp.
  - now apply Permutation_nil in Hp.
  - destruct l2 as [| x2 l2]; [now apply Permutation_sym, Permutation_nil in Hp |].
    destruct H1 as [Hx1 Hl1], H2 as [Hx2 Hl2].
    rewrite Forall_forall in Hx1, Hx2.
    assert (x1 = x2) as ->.
    { assert (In x2 (x1 :: l1)) as [-> | Hin2]
        by (apply (Permutation_in _ (Permutation_sym Hp)); now left); [reflexivity |].
      assert (In x1 (x2 :: l2)) as [-> | Hin1]
        by (apply (Permutation_in _ Hp); now left); [reflexivity |].
      apply leb_antisym; [apply Hx1 | apply Hx2]; now apply list_elem_of_In. }
    f_equal. apply IH; [exact Hl1 | exact Hl2 |].
    exact (Permutation_cons_inv Hp).
Qed.

(** Two lists with the same entries sort to the same list. *)
Lemma sort_by_perm_eq (l1 l2 : list A) :
  Permutation l1 l2 -> sort_by leb l1 = sort_by leb l2.
Proof.
  intros Hp. apply sorted_by_unique; try apply sort_by_sorted.
  now rewrite !sort_by_perm.
Qed.

End Sorting.

Lemma sorted_by_map_on {A B : Type} (leb : A -> A -> bool) (leb' : B -> B -> bool)
    (f : A -> B) (l : list A) :
  (forall x y, In x l -> In y l -> leb x y = true -> leb' (f x) (f y) = true) ->
  sorted_by leb l -> sorted_by leb' (map f l).
Proof.
  induction l as [| x l IH]; intros Hf; cbn [sorted_by map]; [auto |].
  intros [Hx Hl]. split.
  - apply Forall_forall. intros z Hz. apply list_elem_of_In, in_map_iff in Hz as (y & <- & Hy).
    rewrite Forall_forall in Hx.
    apply Hf; [now left | now right | apply Hx, list_elem_of_In, Hy].
  - apply IH; [| exact Hl]. intros a b Ha Hb. apply Hf; now right.
Qed.

(** ** The keys of the rental counts *)

Lemma melt_keys_from (rows : list (string * list Z)) (h : nat -> nat) (columns : list string) :
  map key_of
    (flat_map (fun jc : nat * string =>
         map (fun r : string * list Z => mkRow (fst r) (snd jc) (cell_at (fst jc) (snd r)))
           rows)
       (imap (fun j c => (h j, c)) columns)) =
    flat_map (fun c => map (fun a => (a, c)) (map fst rows)) columns.
Proof.
  revert h. induction columns as [| c columns IH]; intros h; [reflexivity |].
  rewrite imap_cons. cbn [flat_map]. rewrite map_app. f_equal.
  - rewrite !map_map. reflexivity.
  - exact (IH (fun j => h (S j))).
Qed.

Lemma melt_keys (df : RentalDf) :
  map key_of (melt df) =
    flat_map (fun c => map (fun a => (a, c)) (index df)) (columns df).
Proof. exact (melt_keys_from (rows df) (fun j => j) (columns df)). Qed.

Lemma flat_map_cons_perm {A B : Type} (f : A -> B) (g : A -> list B) (l : list A) :
  Permutation (flat_map (fun x => f x :: g x) l) (map f l ++ flat_map g l).
Proof.
  induction l as [| x l IH]; [reflexivity |]. cbn [flat_map map app].
  constructor. rewrite IH. rewrite !app_assoc.
  apply Permutation_app_tail, Permutation_app_comm.
Qed.

(** Column by column or area by area: the same pairs. *)
Lemma transpose_perm (sa2s beds : list string) :
  Permutation (flat_map (fun b => map (fun a => (a, b)) sa2s) beds)
    (all_combinations sa2s beds).
Proof.
  unfold all_combinations. induction sa2s as [| a sa2s IH]; cbn [flat_map map].
  - induction beds; [reflexivity | assumption].
  - rewrite <- IH. apply (flat_map_cons_perm (fun b => (a, b))).
Qed.

Lemma unique_id (l : list string) : NoDup l -> unique l = l.
Proof.
  induction 1 as [| x l Hx _ IH]; [reflexivity |]. cbn [unique]. rewrite IH. f_equal.
  apply forallb_filter_id, forallb_forall. intros y Hy.
  apply negb_true_iff, String.eqb_neq. intros ->. now apply Hx, list_elem_of_In.
Qed.

Lemma count_category_order :
  Forall (fun l1 =>
      Forall (fun l2 =>
          String.leb (count_category l1) (count_category l2) = String.leb l1 l2)
        count_labels)
    count_labels.
Proof. apply (bool_decide_unpack _). vm_compute. exact I. Qed.

Lemma count_category_keys (sa2s labels : list string) :
  map (fun k : key => (fst k, count_category (snd k)))
      (flat_map (fun c => map (fun a => (a, c)) sa2s) labels) =
    flat_map (fun b => map (fun a => (a, b)) sa2s) (map count_category labels).
Proof.
  induction labels as [| c labels IH]; [reflexivity |].
  change (map count_category (c :: labels))
    with (count_category c :: map count_category labels).
  cbn [flat_map]. rewrite map_app. f_equal; [| exact IH]. now rewrite map_map.
Qed.

(** On a table whose nine count columns carry the labels that
    [dotstat_import] builds, in their order, and whose areas are distinct,
    the rental counts have the keys of the areas by [BEDROOMS_ORDER], in
    key order. *)
Lemma rental_count_keys (rental_df : RentalDf) :
  columns (filter_like ": Total households stated" rental_df) = count_labels ->
  NoDup (index rental_df) ->
  map key_of (rental_count rental_df) =
    sort_by key_leb (all_combinations (unique (index rental_df)) BEDROOMS_ORDER).
Proof.
  intros Hcols Hnd. unfold rental_count.
  set (df := filter_like ": Total households stated" rental_df) in *.
  set (dkey := fun k : key => (fst k, count_category (snd k))).
  assert (forall X : list (Row value),
            map key_of
              (map (fun r =>
                   mkRow (SA22018__1 r)
                     (str_replace "Total households stated - number of" "total"
                        (sub_matches re_bedrooms_total "" O (bedrooms r)))
                     (cols r)) X) = map dkey (map key_of X)) as ->
    by (intros X; rewrite !map_map; reflexivity).
  rewrite sort_values_keys, melt_keys, Hcols. unfold df. rewrite index_filter_like.
  set (Lk := flat_map _ count_labels).
  apply (sorted_by_unique key_leb key_leb_antisym).
  - apply (sorted_by_map_on key_leb key_leb dkey);
      [| apply (sort_by_sorted key_leb key_leb_total key_leb_trans)].
    intros x y Hx Hy Hxy.
    apply sort_by_In in Hx, Hy. unfold Lk in Hx, Hy.
    apply in_flat_map in Hx as (c1 & Hc1 & Hx), Hy as (c2 & Hc2 & Hy).
    apply in_map_iff in Hx as (a1 & <- & _), Hy as (a2 & <- & _).
    pose proof count_category_order as Hord. rewrite Forall_forall in Hord.
    specialize (Hord c1 (proj2 (list_elem_of_In _ _) Hc1)). rewrite Forall_forall in Hord.
    specialize (Hord c2 (proj2 (list_elem_of_In _ _) Hc2)). cbn beta in Hord.
    unfold key_leb, dkey in *. cbn [fst snd] in *. now rewrite Hord.
  - apply (sort_by_sorted key_leb key_leb_total key_leb_trans).
  - rewrite !sort_by_perm. unfold Lk, dkey. rewrite count_category_keys.
    change (map count_category count_labels) with BEDROOMS_ORDER.
    rewrite transpose_perm. now rewrite unique_id.
Qed.

(** X17. On a rental table whose nine count columns carry the labels
    that [dotstat_import] builds, in their order, and whose areas are
    distinct, the rental counts, the listing counts and the listing prices
    have the same keys in the same order, the key order: for every area,
    the categories of [BEDROOMS_ORDER].  So [df_aggregate], which joins on
    the row position, puts next to each rental count the listing count and
    the listing price of the same area and category. *)
Theorem count_tables_aligned (rental_df : RentalDf)
    (city_airbnb_df : list (Joined.row string)) :
  columns (filter_like ": Total households stated" rental_df) = count_labels ->
  NoDup (index rental_df) ->
  (forall r, In r city_airbnb_df -> Joined.bedrooms r <> "total") ->
  map key_of (rental_count rental_df) =
    map key_of (airbnb_count city_airbnb_df rental_df) /\
  map key_of (rental_count rental_df) =
    map key_of (airbnb_price city_airbnb_df rental_df) /\
  sorted_by key_leb (map key_of (rental_count rental_df)) /\
  forall (city_rental_price : list (Row RentalPrice)) (i : nat) (g : Agg.row),
    df_aggregate (rental_count rental_df) (airbnb_count city_airbnb_df rental_df)
      city_rental_price (airbnb_price city_airbnb_df rental_df) !! i = Some g ->
    exists rc ac ap,
      rental_count rental_df !! i = Some rc /\
      airbnb_count city_airbnb_df rental_df !! i = Some ac /\
      airbnb_price city_airbnb_df rental_df !! i = Some ap /\
      key_of ac = key_of rc /\ key_of ap = key_of rc /\
      (Agg.SA2 g, Agg.Bedrooms g) = key_of rc /\
      Agg.rental_count g = cols rc /\
      Agg.Airbnb_count g = cols ac /\
      Agg.Airbnb_price g = cols ap.
Proof.
  intros Hcols Hnd Htotal.
  pose proof (rental_count_keys rental_df Hcols Hnd) as Hrc.
  pose proof (airbnb_count_keys city_airbnb_df rental_df Htotal) as Hac.
  pose proof (airbnb_price_keys city_airbnb_df rental_df Htotal) as Hap.
  assert (map key_of (airbnb_count city_airbnb_df rental_df) =
          map key_of (rental_count rental_df)) as Kac by (rewrite Hrc; exact Hac).
  assert (map key_of (airbnb_price city_airbnb_df rental_df) =
          map key_of (rental_count rental_df)) as Kap by (rewrite Hrc; exact Hap).
  split; [now symmetry |]. split; [now symmetry |]. split.
  - rewrite Hrc. apply (sort_by_sorted key_leb key_leb_total key_leb_trans).
  - intros city_rental_price i g Hg. unfold df_aggregate in Hg.
    rewrite list_lookup_imap in Hg.
    destruct (rental_count rental_df !! i) as [rc |] eqn:Erc; [| discriminate].
    cbn in Hg. injection Hg as <-.
    destruct (lookup_key _ (airbnb_count city_airbnb_df rental_df) i rc Kac Erc)
      as (ac & Eac & Kac').
    destruct (lookup_key _ (airbnb_price city_airbnb_df rental_df) i rc Kap Erc)
      as (ap & Eap & Kap').
    exists rc, ac, ap. unfold joined_cell. rewrite Eac, Eap.
    repeat split; assumption.
Qed.

Lemma count_tables_aligned_witness :
  map key_of (rental_count scenario_rental) =
    map key_of (airbnb_count scenario_airbnb_df scenario_rental).
Proof.
  apply (proj1 (count_tables_aligned scenario_rental scenario_airbnb_df eq_refl
                  ltac:(apply (bool_decide_unpack _); vm_compute; exact I)
                  ltac:(intros r [<- | [<- | [<- | [<- | []]]]]; discriminate))).
Defined.

(** ** The rule of the weighted median *)

(** Half of an integer total, compared with an integer running sum. *)
Lemma below_half (c t : Z) : (inject_Z c < inject_Z t * 0.5)%Q <-> 2 * c < t.
Proof.
  unfold Qlt, Qmult, inject_Z; cbn [Qnum Qden]. lia.
Qed.

Lemma reaches_half (c t : Z) : (inject_Z t * 0.5 <= inject_Z c)%Q <-> t <= 2 * c.
Proof.
  unfold Qle, Qmult, inject_Z; cbn [Qnum Qden]. lia.
Qed.

(** Counts that are not negative and add up to at most [2 ^ 53]: every
    running sum is exact, as an [int64] and as a [float64]. *)
Lemma running_sum_exact (row : list Z) (k : nat) :
  Forall (fun c => 0 <= c) row -> sum_Z row <= 2 ^ 53 ->
  (float_of_int64 (int64_sum (take k row)) == inject_Z (sum_Z (take k row)))%Q.
Proof.
  intros Hrow Hsum. pose proof (sum_Z_take_le row k Hrow) as Hk.
  rewrite (int64_sum_exact row k Hrow) by lia.
  apply float_of_int64_exact. lia.
Qed.

(** X18. The rule of the weighted median, on counts that are not negative
    and add up to at most [2 ^ 53], where the arithmetic of the code is
    exact: the total weight is the sum of the counts; a zero total selects
    nothing, raises nothing and makes no row; a positive total selects the
    first bucket whose running sum is at least half the total (every
    earlier running sum is below half of it), and the row made carries the
    label of that bucket. *)
Theorem weighted_median_rule (row : list Z) :
  Forall (fun c => 0 <= c) row -> sum_Z row <= 2 ^ 53 ->
  int64_sum row = sum_Z row /\
  (sum_Z row = 0 ->
     select_bucket row = Ok None /\
     forall cols a, assign_block (mkRentalDf cols [(a, row)]) = Ok []) /\
  (0 < sum_Z row ->
     exists k : nat,
       select_bucket row = Ok (Some (Z.of_nat k)) /\
       (k < length row)%nat /\
       sum_Z row <= 2 * sum_Z (take (S k) row) /\
       (forall j : nat, (j < k)%nat -> 2 * sum_Z (take (S j) row) < sum_Z row) /\
       forall cols a, length cols = length row ->
         exists label, cols !! k = Some label /\
           assign_block (mkRentalDf cols [(a, row)]) =
             Ok [mkRow a (bedrooms_of_label label) (Str (price_str_of_label label))]).
Proof.
  intros Hrow Hsum.
  assert (int64_sum row = sum_Z row) as Htotal.
  { pose proof (int64_sum_exact row (length row) Hrow ltac:(lia)) as E.
    now rewrite firstn_all in E. }
  split; [exact Htotal |]. split.
  - intros H0. destruct (select_bucket_zero row) as [_ Hsel]; [lia |].
    split; [exact Hsel |]. intros cols a.
    rewrite assign_block_single, Hsel. reflexivity.
  - intros Hpos.
    destruct (select_bucket_positive row) as (k & _ & Hsel & Hk & Hge & Hlt); [lia |].
    exists k. split; [exact Hsel |]. split; [exact Hk |].
    assert ((float_of_int64 (int64_sum row) == inject_Z (sum_Z row))%Q) as Et.
    { rewrite Htotal. apply float_of_int64_exact. pose proof (sum_Z_nonneg row Hrow). lia. }
    split; [| split].
    + rewrite Et, (running_sum_exact row (S k) Hrow Hsum) in Hge.
      now apply reaches_half in Hge.
    + intros j Hj. specialize (Hlt (S j) ltac:(lia)).
      rewrite Et, (running_sum_exact row (S j) Hrow Hsum) in Hlt.
      now apply below_half in Hlt.
    + intros cols a Hlen.
      destruct (py_index_in_range cols k) as (label & Hlook & Hidx); [lia |].
      exists label. split; [exact Hlook |].
      rewrite assign_block_single, Hsel. cbn. rewrite Hidx. reflexivity.
Qed.

Lemma weighted_median_rule_witness :
  exists k : nat,
    select_bucket [10; 0; 0; 0; 0; 0; 0; 0; 0] = Ok (Some (Z.of_nat k)) /\
    10 <= 2 * sum_Z (take (S k) [10; 0; 0; 0; 0; 0; 0; 0; 0]).
Proof.
  destruct (weighted_median_rule [10; 0; 0; 0; 0; 0; 0; 0; 0]) as (_ & _ & Hpos).
  - repeat constructor; discriminate.
  - vm_compute. discriminate.
  - destruct (Hpos eq_refl) as (k & Hsel & _ & Hge & _).
    exists k. split; [exact Hsel | exact Hge].
Defined.

(** ** The rows of [assign_rental_price] *)

Lemma rmapM_map {A B : Type} (f : A -> result B) (g : A -> B) (l : list A) :
  (forall x, In x l -> f x = Ok (g x)) -> rmapM f l = Ok (map g l).
Proof.
  induction l as [| x l IH]; intros H; [reflexivity |].
  cbn [rmapM map]. rewrite (H x (or_introl eq_refl)), IH by (intros y Hy; apply H; now right).
  reflexivity.
Qed.

Lemma assign_block_rows (col_subset : RentalDf) :
  rectangular col_subset ->
  assign_block col_subset =
    Ok (flat_map (selected_rows (columns col_subset)) (rows col_subset)).
Proof.
  intros Hrect. unfold assign_block.
  rewrite (rmapM_map _ (selected_rows (columns col_subset))).
  - cbn. now rewrite flat_map_concat_map.
  - intros r Hr. unfold rectangular in Hrect. rewrite Forall_forall in Hrect.
    pose proof (Hrect r (proj2 (list_elem_of_In _ _) Hr)) as Hlen. cbn beta in Hlen.
    unfold selected_rows.
    destruct (select_bucket_cases (snd r)) as [[_ ->] | [_ (k & -> & Hk)]]; [reflexivity |].
    destruct (py_index_in_range (columns col_subset) k) as (label & Hlook & Hidx); [lia |].
    cbn. rewrite Hidx, Nat2Z.id, Hlook. reflexivity.
Qed.

(** X19. On a table with a cell under every column, [assign_rental_price]
    returns, block of eight priced columns after block and, within a
    block, area after area, the row of each area for which the selector
    selects a bucket, with the category and the price label read from the
    label of the selected column; an area whose block has a total that is
    not positive gets no row for that block. *)
Theorem assign_rental_price_rows (rental_df : RentalDf) :
  rectangular rental_df ->
  assign_rental_price rental_df =
    Ok (flat_map (fun k : nat =>
          flat_map
            (selected_rows (columns (iloc_cols (8 * k) (8 * k + 8) (filter_like "$" rental_df))))
            (rows (iloc_cols (8 * k) (8 * k + 8) (filter_like "$" rental_df))))
        (seq 0 (length (columns (filter_like "$" rental_df)) / 8))).
Proof.
  intros Hrect. unfold assign_rental_price.
  rewrite (rmapM_map _ (fun k : nat =>
             flat_map
               (selected_rows
                  (columns (iloc_cols (8 * k) (8 * k + 8) (filter_like "$" rental_df))))
               (rows (iloc_cols (8 * k) (8 * k + 8) (filter_like "$" rental_df))))).
  - cbn. now rewrite flat_map_concat_map.
  - intros k _. apply assign_block_rows.
    now apply iloc_cols_rectangular, filter_like_rectangular.
Qed.

Lemma assign_rental_price_rows_witness :
  assign_rental_price scenario_rental =
    Ok [mkRow "A" "1" (Str "$300 - $399"); mkRow "A" "total" (Str "$300 - $399")].
Proof.
  rewrite (assign_rental_price_rows scenario_rental).
  - vm_compute. reflexivity.
  - apply (bool_decide_unpack _). vm_compute. exact I.
Defined.
